(** * scripts/create_cfn_coverage_table.py

    A shallow embedding of the script that regenerates the two
    CloudFormation coverage tables of a documentation page, and the
    properties of its three parts: the row transformer, the markdown
    table renderer and the section replacer.

    Python strings are sequences of Unicode code points, and [len]
    counts code points; a string is therefore a list of code points.
    Python dictionaries keep insertion order and are association lists
    here.  Exceptions are the [Raise] results of a small error monad.
    The document file is a sequence of bytes, read as UTF-8 with
    universal newlines and written with the line separator and the
    locale encoding of the platform; the command line and the catalog
    file enter a run through what [parse_args] and [json.load] make of
    them. *)

From Stdlib Require Import Ascii String.
From Stdlib Require Import List NArith ZArith Arith Bool Lia Permutation Sorted.
Import ListNotations.

Set Implicit Arguments.

(** ** Strings *)

Definition char := N.
Definition pystr := list char.

(** An ASCII literal of the source. *)
Definition py (s : string) : pystr :=
  map N_of_ascii (list_ascii_of_string s).

Definition nl : char := 10%N.
Definition space : char := 32%N.
Definition dash : char := 45%N.
Definition colon : char := 58%N.
Definition pipe : char := 124%N.
Definition backslash : char := 92%N.

Fixpoint pystr_eqb (a b : pystr) : bool :=
  match a, b with
  | [], [] => true
  | x :: a', y :: b' => N.eqb x y && pystr_eqb a' b'
  | _, _ => false
  end.

(** [sep.join(parts)] *)
Fixpoint join (sep : pystr) (parts : list pystr) : pystr :=
  match parts with
  | [] => []
  | [p] => p
  | p :: rest => p ++ sep ++ join sep rest
  end.

(** [c * n] for a one-character string [c] *)
Definition times (c : char) (n : nat) : pystr := repeat c n.

(** [value.ljust(width)], [value.rjust(width)], [value.center(width)] *)
Definition ljust (value : pystr) (width : nat) : pystr :=
  value ++ times space (width - length value).

Definition rjust (value : pystr) (width : nat) : pystr :=
  times space (width - length value) ++ value.

(** CPython puts [marg / 2 + (marg & width & 1)] spaces on the left. *)
Definition center (value : pystr) (width : nat) : pystr :=
  let marg := width - length value in
  let left := marg / 2 + (if Nat.odd marg && Nat.odd width then 1 else 0) in
  times space left ++ value ++ times space (marg - left).

Fixpoint lstrip_char (c : char) (s : pystr) : pystr :=
  match s with
  | x :: s' => if N.eqb x c then lstrip_char c s' else s
  | [] => []
  end.

(** [s.rstrip(c)] for a one-character [c] *)
Definition rstrip_char (c : char) (s : pystr) : pystr :=
  rev (lstrip_char c (rev s)).

(** ** Exceptions *)

Inductive result (E A : Type) : Type :=
| Ok (a : A)
| Raise (e : E).

Arguments Ok {E A} a.
Arguments Raise {E A} e.

Definition bind {E A B} (m : result E A) (k : A -> result E B) : result E B :=
  match m with
  | Ok a => k a
  | Raise e => Raise e
  end.

Notation "x <- m ;; k" := (bind m (fun x => k))
  (at level 61, m at next level, right associativity).

Fixpoint mapM {E A B} (f : A -> result E B) (l : list A) : result E (list B) :=
  match l with
  | [] => Ok []
  | a :: l' => b <- f a ;; bs <- mapM f l' ;; Ok (b :: bs)
  end.

(** ** Values and dictionaries *)

Inductive value :=
| VNone
| VBool (b : bool)
| VStr (s : pystr).

Definition truthy (v : value) : bool :=
  match v with
  | VNone => false
  | VBool b => b
  | VStr [] => false
  | VStr _ => true
  end.

(** [str(value)] *)
Definition str (v : value) : pystr :=
  match v with
  | VNone => py "None"
  | VBool true => py "True"
  | VBool false => py "False"
  | VStr s => s
  end.

Definition dict (V : Type) := list (pystr * V).

(** [d.get(key, default)] *)
Fixpoint dict_get {V} (d : dict V) (key : pystr) (default : V) : V :=
  match d with
  | [] => default
  | (k, v) :: d' => if pystr_eqb k key then v else dict_get d' key default
  end.

(** [d.get(key)] *)
Fixpoint dict_find {V} (d : dict V) (key : pystr) : option V :=
  match d with
  | [] => None
  | (k, v) :: d' => if pystr_eqb k key then Some v else dict_find d' key
  end.

Definition keys {V} (d : dict V) : list pystr := map fst d.

(** The keys of a Python dictionary are pairwise distinct. *)
Definition well_formed {V} (d : dict V) : Prop := NoDup (keys d).

Definition row := dict value.

(** ** Regular expressions

    The patterns of the script use literals, [\s], [.], the anchors
    [^], [$] and [\Z], the loops [*] and [*?] on one character, groups
    with alternatives and a lookahead.  A pattern string is the list of
    its top-level alternatives ([a|b|c]); [Alt] inside a [regex] is an
    alternation in a group of its own.  There are no capturing groups
    in a pattern. *)

Inductive cclass :=
| CAny
| CSpace
| CLit (c : char).

Inductive regex :=
| Eps
| Chr (k : cclass)
| Bol
| Eol
| EndZ
| Star (greedy : bool) (k : cclass)
| Seq (a b : regex)
| Alt (a b : regex)
| Look (a : regex).

Definition pattern := list regex.

(** [ValueError] is the error of the section replacer, with the
    pattern of its message, and [InvalidJSON] the [ValueError] of
    [_load_cfn_file]; [TemplateError] is [re.error]; [SystemExit] is
    the exit of the argument parser. *)
Inductive exn :=
| ValueError (starting_rx : pattern)
| TemplateError
| IndexError
| TypeError
| SystemExit (code : N)
| OSError
| UnicodeDecodeError
| UnicodeEncodeError
| InvalidJSON.

(** ** The table renderer *)

Record ColumnConfig := {
  header : pystr;
  key : pystr;
  alignment : pystr;
  formatter : option (value -> pystr)
}.

Definition format_value (self : ColumnConfig) (v : value) : pystr :=
  match formatter self with
  | Some f => f v
  | None => match v with VNone => py "-" | _ => str v end
  end.

(** The glyph of the source file is the three code points U+00E2,
    U+0153, U+2026. *)
Definition bool_formatter (v : value) : pystr :=
  if truthy v then [226; 339; 8230]%N else py "-".

Record TableConfig := {
  columns : list ColumnConfig;
  sort_by : option pystr
}.

Definition get_headers (self : TableConfig) : list pystr :=
  map header (columns self).

Definition _calculate_column_widths (self : TableConfig) (data : list row)
  : list nat :=
  map (fun col =>
         fold_left
           (fun max_width r =>
              let v := dict_get r (key col) (VStr []) in
              let formatted_value := format_value col v in
              Nat.max max_width (length formatted_value))
           data (length (header col)))
      (columns self).

Definition _get_alignment_separator (alignment : pystr) (width : nat) : pystr :=
  if pystr_eqb alignment (py "right") then times dash (width + 1) ++ [colon]
  else if pystr_eqb alignment (py "center") then
    [colon] ++ times dash width ++ [colon]
  else times dash width.

Definition _format_cell (v : pystr) (width : nat) (alignment : pystr) : pystr :=
  if pystr_eqb alignment (py "right") then rjust v width
  else if pystr_eqb alignment (py "center") then center v width
  else ljust v width.

Fixpoint enumerate_from {A} (i : nat) (l : list A) : list (nat * A) :=
  match l with
  | [] => []
  | a :: l' => (i, a) :: enumerate_from (S i) l'
  end.

Definition enumerate {A} (l : list A) := enumerate_from 0 l.

(** [l[i]] *)
Definition item {A} (l : list A) (i : nat) : result exn A :=
  match nth_error l i with
  | Some a => Ok a
  | None => Raise IndexError
  end.

(** The writer is the text written so far. *)
Definition _write_header_row (self : TableConfig) (writer : pystr)
  (widths : list nat) : result exn pystr :=
  formatted_headers <-
    mapM (fun '(i, h) =>
            col <- item (columns self) i ;;
            w <- item widths i ;;
            Ok (_format_cell h w (alignment col)))
         (enumerate (get_headers self)) ;;
  Ok (writer ++ py "| " ++ join (py " | ") formatted_headers ++ py " |" ++ [nl]).

Definition _write_separator_row (self : TableConfig) (writer : pystr)
  (widths : list nat) : result exn pystr :=
  separators <-
    mapM (fun '(i, col) =>
            w <- item widths i ;;
            Ok (_get_alignment_separator (alignment col) w))
         (enumerate (columns self)) ;;
  Ok (writer ++ py "|" ++ join (py "|") separators ++ py "|" ++ [nl]).

(** [a < b] on the values a row holds: strings by code point, booleans
    as the integers 0 and 1; anything else is not ordered. *)
Fixpoint str_lt (a b : pystr) : bool :=
  match a, b with
  | _, [] => false
  | [], _ :: _ => true
  | x :: a', y :: b' => N.ltb x y || (N.eqb x y && str_lt a' b')
  end.

Definition value_lt (a b : value) : result exn bool :=
  match a, b with
  | VStr x, VStr y => Ok (str_lt x y)
  | VBool x, VBool y => Ok (negb x && y)
  | _, _ => Raise TypeError
  end.

(** [sorted(data, key=...)]: a stable ascending sort that asks only
    [<] of the keys and raises what a comparison raises. *)
Fixpoint insert_sorted {A} (keyf : A -> value) (x : A) (l : list A)
  : result exn (list A) :=
  match l with
  | [] => Ok [x]
  | y :: l' =>
      b <- value_lt (keyf x) (keyf y) ;;
      if b then Ok (x :: y :: l')
      else (r <- insert_sorted keyf x l' ;; Ok (y :: r))
  end.

Fixpoint sorted_from {A} (keyf : A -> value) (acc l : list A)
  : result exn (list A) :=
  match l with
  | [] => Ok acc
  | x :: l' => acc' <- insert_sorted keyf x acc ;; sorted_from keyf acc' l'
  end.

Definition sorted {A} (l : list A) (keyf : A -> value) : result exn (list A) :=
  sorted_from keyf [] l.

Definition format_row (self : TableConfig) (widths : list nat) (r : row)
  : result exn (list pystr) :=
  mapM (fun '(i, col) =>
          let v := dict_get r (key col) (VStr []) in
          let formatted_value := format_value col v in
          w <- item widths i ;;
          Ok (_format_cell formatted_value w (alignment col)))
       (enumerate (columns self)).

Fixpoint write_rows (self : TableConfig) (writer : pystr) (data : list row)
  (widths : list nat) : result exn pystr :=
  match data with
  | [] => Ok writer
  | r :: data' =>
      formatted_cells <- format_row self widths r ;;
      write_rows self
        (writer ++ py "| " ++ join (py " | ") formatted_cells ++ py " |" ++ [nl])
        data' widths
  end.

(** [if self.config.sort_by: data = sorted(data, key=...)] *)
Definition sort_rows (self : TableConfig) (data : list row)
  : result exn (list row) :=
  match sort_by self with
  | Some (c :: k) => sorted data (fun x => dict_get x (c :: k) (VStr []))
  | _ => Ok data
  end.

Definition _write_data_rows (self : TableConfig) (writer : pystr)
  (data : list row) (widths : list nat) : result exn pystr :=
  data <- sort_rows self data ;;
  write_rows self writer data widths.

Definition generate_table (self : TableConfig) (data : option (list row))
  : result exn pystr :=
  match data with
  | None | Some [] => Ok []
  | Some d =>
      let buffer := [] in
      let widths := _calculate_column_widths self d in
      buffer <- _write_header_row self buffer widths ;;
      buffer <- _write_separator_row self buffer widths ;;
      buffer <- _write_data_rows self buffer d widths ;;
      Ok (rstrip_char nl buffer ++ [nl])
  end.

(** ** The row transformer *)

Definition metadata := dict (list pystr).
Definition section := dict metadata.

Definition eq_pystr_dec : forall a b : pystr, {a = b} + {a <> b} :=
  list_eq_dec N.eq_dec.

(** [set(l)] and [x in s] *)
Definition set (l : list pystr) : list pystr := nodup eq_pystr_dec l.

Definition set_in (x : pystr) (s : list pystr) : bool :=
  existsb (pystr_eqb x) s.

(** The body of the loop of [transform]. *)
Definition make_row (entry : pystr * metadata) : row :=
  let '(resource_type, md) := entry in
  let methods := set (dict_get md (py "methods") []) in
  [ (py "resource", VStr resource_type);
    (py "create", VBool (set_in (py "Create") methods));
    (py "delete", VBool (set_in (py "Delete") methods));
    (py "update", VBool (set_in (py "Update") methods)) ].

Definition transform (section_data : option section) : list row :=
  match section_data with
  | None | Some [] => []
  | Some d => map make_row d
  end.

(** ** Matching

    [ends r s i] lists the positions at which a match of [r] that
    starts at position [i] of [s] can end, in the order in which the
    backtracking matcher of [re] tries them.  The flags are those of
    the script: [re.DOTALL | re.MULTILINE], on a [str] pattern. *)

Definition is_space (c : char) : bool :=
  ((9 <=? c) && (c <=? 13) || (28 <=? c) && (c <=? 32)
   || (c =? 133) || (c =? 160) || (c =? 5760)
   || (8192 <=? c) && (c <=? 8202)
   || (c =? 8232) || (c =? 8233) || (c =? 8239) || (c =? 8287)
   || (c =? 12288))%N.

Definition in_class (k : cclass) (c : char) : bool :=
  match k with
  | CAny => true
  | CSpace => is_space c
  | CLit d => N.eqb c d
  end.

Fixpoint run_length (k : cclass) (t : pystr) : nat :=
  match t with
  | c :: t' => if in_class k c then S (run_length k t') else 0
  | [] => 0
  end.

Definition at_bol (s : pystr) (i : nat) : bool :=
  match i with
  | 0 => true
  | S p => match nth_error s p with Some c => N.eqb c nl | None => false end
  end.

Definition at_eol (s : pystr) (i : nat) : bool :=
  match nth_error s i with
  | Some c => N.eqb c nl
  | None => Nat.eqb i (length s)
  end.

Fixpoint ends (r : regex) (s : pystr) (i : nat) : list nat :=
  match r with
  | Eps => [i]
  | Chr k =>
      match nth_error s i with
      | Some c => if in_class k c then [S i] else []
      | None => []
      end
  | Bol => if at_bol s i then [i] else []
  | Eol => if at_eol s i then [i] else []
  | EndZ => if Nat.eqb i (length s) then [i] else []
  | Star true k =>
      map (fun d => i + d) (rev (seq 0 (S (run_length k (skipn i s)))))
  | Star false k =>
      map (fun d => i + d) (seq 0 (S (run_length k (skipn i s))))
  | Seq a b => flat_map (ends b s) (ends a s i)
  | Alt a b => ends a s i ++ ends b s i
  | Look a => match ends a s i with [] => [] | _ :: _ => [i] end
  end.

(** The text of a pattern in a group: the alternatives of the
    pattern are alternatives of the group. *)
Fixpoint alts (p : pattern) : regex :=
  match p with
  | [] => Eps
  | [b] => b
  | b :: bs => Alt b (alts bs)
  end.

Fixpoint append_last (p : pattern) (post : regex) : regex :=
  match p with
  | [] => post
  | [b] => Seq b post
  | b :: bs => Alt b (append_last bs post)
  end.

(** [\s*\n] *)
Definition heading_tail : regex := Seq (Star true CSpace) (Chr (CLit nl)).

(** The body of group 1, [^{starting_rx}\s*\n]: the text is spliced,
    so [^] belongs to the first alternative of [starting_rx] and
    [\s*\n] to its last one. *)
Definition group1 (starting_rx : pattern) : regex :=
  match starting_rx with
  | [] => Seq Bol heading_tail
  | [b] => Seq Bol (Seq b heading_tail)
  | b :: bs => Alt (Seq Bol b) (append_last bs heading_tail)
  end.

(** [(^{starting_rx}\s*\n)(.*?)(?={ending_rx})] *)
Definition compile (starting_rx ending_rx : pattern) : regex :=
  Seq (group1 starting_rx) (Seq (Star false CAny) (Look (alts ending_rx))).

(** A match: group 0 is [m_start, m_end), group 1 is [m_start, g1_end)
    and group 2 is [g1_end, m_end). *)
Record Match := {
  m_start : nat;
  g1_end : nat;
  m_end : nat
}.

(** [(.*?)(?=e)] from position [j]: the lazy loop takes no character,
    then one more at a time, until the lookahead succeeds. *)
Fixpoint first_boundary (e : regex) (s : pystr) (j fuel : nat) : option nat :=
  match ends e s j with
  | _ :: _ => Some j
  | [] =>
      match fuel with
      | 0 => None
      | S fuel' => first_boundary e s (S j) fuel'
      end
  end.

Fixpoint first_some {A B} (f : A -> option B) (l : list A) : option (A * B) :=
  match l with
  | [] => None
  | a :: l' =>
      match f a with
      | Some b => Some (a, b)
      | None => first_some f l'
      end
  end.

(** The first match of the compiled pattern that starts at [i]: the
    ends of group 1 in the matcher's order, each with its boundary. *)
Definition match_at (starting_rx ending_rx : pattern) (s : pystr) (i : nat)
  : option Match :=
  match first_some
          (fun j => first_boundary (alts ending_rx) s j (length s - j))
          (ends (group1 starting_rx) s i) with
  | Some (j, k) => Some {| m_start := i; g1_end := j; m_end := k |}
  | None => None
  end.

(** [pattern.search(content)]: the leftmost start with a match. *)
Definition search (starting_rx ending_rx : pattern) (s : pystr)
  : option Match :=
  match first_some (match_at starting_rx ending_rx s)
                   (seq 0 (S (length s))) with
  | Some (_, m) => Some m
  | None => None
  end.

(** [s[i:j]] *)
Definition slice (s : pystr) (i j : nat) : pystr := firstn (j - i) (skipn i s).

Definition group (m : Match) (s : pystr) (n : nat) : pystr :=
  match n with
  | 0 => slice s (m_start m) (m_end m)
  | 1 => slice s (m_start m) (g1_end m)
  | _ => slice s (g1_end m) (m_end m)
  end.

(** ** Replacement templates

    [pattern.sub(repl, ...)] with a string [repl] that holds a
    backslash reads it as a template: [parse_template] of CPython 3.11
    ([re/_parser.py]), the version this model follows.  [TemplateError]
    is [re.error].  The deprecation warnings of the parser are not
    exceptions and leave no trace here. *)

Inductive titem :=
| TLit (c : char)
| TGroup (n : nat).

Definition is_digit (c : char) : bool := ((48 <=? c) && (c <=? 57))%N.
Definition is_octdigit (c : char) : bool := ((48 <=? c) && (c <=? 55))%N.
Definition is_ascii_letter (c : char) : bool :=
  ((65 <=? c) && (c <=? 90) || (97 <=? c) && (c <=? 122))%N.

Definition digit (c : char) : N := (c - 48)%N.

Definition number (base : N) (ds : pystr) : N :=
  fold_left (fun acc d => (acc * base + digit d)%N) ds 0%N.

(** The escapes [\a \b \f \n \r \t \v \\] *)
Definition escape (c : char) : option char :=
  if (c =? 97)%N then Some 7%N
  else if (c =? 98)%N then Some 8%N
  else if (c =? 102)%N then Some 12%N
  else if (c =? 110)%N then Some 10%N
  else if (c =? 114)%N then Some 13%N
  else if (c =? 116)%N then Some 9%N
  else if (c =? 118)%N then Some 11%N
  else if (c =? 92)%N then Some 92%N
  else None.

(** *** The tokenizer

    [Tokenizer] cuts the template into tokens: a character, or a
    backslash with the character behind it.  It holds the next token
    ready, so the backslash at the very end of the template is refused
    when the token before it is taken. *)

Inductive token :=
| Plain (c : char)
| Escaped (c : char)
| Dangling.

Fixpoint tokenize (s : pystr) : list token :=
  match s with
  | [] => []
  | c :: rest =>
      if N.eqb c backslash then
        match rest with
        | [] => [Dangling]
        | d :: rest' => Escaped d :: tokenize rest'
        end
      else Plain c :: tokenize rest
  end.

(** [Tokenizer.__next], after a token is taken: the tokens that are
    left, once the first of them is read. *)
Definition read_ahead (rest : list token) : result exn (list token) :=
  match rest with
  | Dangling :: _ => Raise TemplateError
  | _ => Ok rest
  end.

(** [s.getuntil(">", "group name")], without the check for the empty
    name. *)
Fixpoint getuntil (terminator : char) (ts : list token)
  : result exn (pystr * list token) :=
  match ts with
  | [] => Raise TemplateError
  | c :: rest =>
      _ <- read_ahead rest ;;
      match c with
      | Dangling => Raise TemplateError
      | Plain x =>
          if N.eqb x terminator then Ok ([], rest)
          else r <- getuntil terminator rest ;; Ok (x :: fst r, snd r)
      | Escaped x =>
          r <- getuntil terminator rest ;;
          Ok (backslash :: x :: fst r, snd r)
      end
  end.

(** *** Group names

    [str.isidentifier] and [int] read the Unicode database of the
    interpreter (Unicode 14.0 in CPython 3.11). *)

Definition in_ranges (table : list (N * N)) (c : char) : bool :=
  existsb (fun r => (fst r <=? c) && (c <=? snd r))%N table.

(** The code points with the property XID_Start (Unicode 14.0). *)
Definition xid_start_ranges : list (N * N) :=
  [ (65, 90); (97, 122); (170, 170); (181, 181); (186, 186); (192, 214);
    (216, 246); (248, 705); (710, 721); (736, 740); (748, 748); (750, 750);
    (880, 884); (886, 887); (891, 893); (895, 895); (902, 902); (904, 906);
    (908, 908); (910, 929); (931, 1013); (1015, 1153); (1162, 1327);
    (1329, 1366); (1369, 1369); (1376, 1416); (1488, 1514); (1519, 1522);
    (1568, 1610); (1646, 1647); (1649, 1747); (1749, 1749); (1765, 1766);
    (1774, 1775); (1786, 1788); (1791, 1791); (1808, 1808); (1810, 1839);
    (1869, 1957); (1969, 1969); (1994, 2026); (2036, 2037); (2042, 2042);
    (2048, 2069); (2074, 2074); (2084, 2084); (2088, 2088); (2112, 2136);
    (2144, 2154); (2160, 2183); (2185, 2190); (2208, 2249); (2308, 2361);
    (2365, 2365); (2384, 2384); (2392, 2401); (2417, 2432); (2437, 2444);
    (2447, 2448); (2451, 2472); (2474, 2480); (2482, 2482); (2486, 2489);
    (2493, 2493); (2510, 2510); (2524, 2525); (2527, 2529); (2544, 2545);
    (2556, 2556); (2565, 2570); (2575, 2576); (2579, 2600); (2602, 2608);
    (2610, 2611); (2613, 2614); (2616, 2617); (2649, 2652); (2654, 2654);
    (2674, 2676); (2693, 2701); (2703, 2705); (2707, 2728); (2730, 2736);
    (2738, 2739); (2741, 2745); (2749, 2749); (2768, 2768); (2784, 2785);
    (2809, 2809); (2821, 2828); (2831, 2832); (2835, 2856); (2858, 2864);
    (2866, 2867); (2869, 2873); (2877, 2877); (2908, 2909); (2911, 2913);
    (2929, 2929); (2947, 2947); (2949, 2954); (2958, 2960); (2962, 2965);
    (2969, 2970); (2972, 2972); (2974, 2975); (2979, 2980); (2984, 2986);
    (2990, 3001); (3024, 3024); (3077, 3084); (3086, 3088); (3090, 3112);
    (3114, 3129); (3133, 3133); (3160, 3162); (3165, 3165); (3168, 3169);
    (3200, 3200); (3205, 3212); (3214, 3216); (3218, 3240); (3242, 3251);
    (3253, 3257); (3261, 3261); (3293, 3294); (3296, 3297); (3313, 3314);
    (3332, 3340); (3342, 3344); (3346, 3386); (3389, 3389); (3406, 3406);
    (3412, 3414); (3423, 3425); (3450, 3455); (3461, 3478); (3482, 3505);
    (3507, 3515); (3517, 3517); (3520, 3526); (3585, 3632); (3634, 3634);
    (3648, 3654); (3713, 3714); (3716, 3716); (3718, 3722); (3724, 3747);
    (3749, 3749); (3751, 3760); (3762, 3762); (3773, 3773); (3776, 3780);
    (3782, 3782); (3804, 3807); (3840, 3840); (3904, 3911); (3913, 3948);
    (3976, 3980); (4096, 4138); (4159, 4159); (4176, 4181); (4186, 4189);
    (4193, 4193); (4197, 4198); (4206, 4208); (4213, 4225); (4238, 4238);
    (4256, 4293); (4295, 4295); (4301, 4301); (4304, 4346); (4348, 4680);
    (4682, 4685); (4688, 4694); (4696, 4696); (4698, 4701); (4704, 4744);
    (4746, 4749); (4752, 4784); (4786, 4789); (4792, 4798); (4800, 4800);
    (4802, 4805); (4808, 4822); (4824, 4880); (4882, 4885); (4888, 4954);
    (4992, 5007); (5024, 5109); (5112, 5117); (5121, 5740); (5743, 5759);
    (5761, 5786); (5792, 5866); (5870, 5880); (5888, 5905); (5919, 5937);
    (5952, 5969); (5984, 5996); (5998, 6000); (6016, 6067); (6103, 6103);
    (6108, 6108); (6176, 6264); (6272, 6312); (6314, 6314); (6320, 6389);
    (6400, 6430); (6480, 6509); (6512, 6516); (6528, 6571); (6576, 6601);
    (6656, 6678); (6688, 6740); (6823, 6823); (6917, 6963); (6981, 6988);
    (7043, 7072); (7086, 7087); (7098, 7141); (7168, 7203); (7245, 7247);
    (7258, 7293); (7296, 7304); (7312, 7354); (7357, 7359); (7401, 7404);
    (7406, 7411); (7413, 7414); (7418, 7418); (7424, 7615); (7680, 7957);
    (7960, 7965); (7968, 8005); (8008, 8013); (8016, 8023); (8025, 8025);
    (8027, 8027); (8029, 8029); (8031, 8061); (8064, 8116); (8118, 8124);
    (8126, 8126); (8130, 8132); (8134, 8140); (8144, 8147); (8150, 8155);
    (8160, 8172); (8178, 8180); (8182, 8188); (8305, 8305); (8319, 8319);
    (8336, 8348); (8450, 8450); (8455, 8455); (8458, 8467); (8469, 8469);
    (8472, 8477); (8484, 8484); (8486, 8486); (8488, 8488); (8490, 8505);
    (8508, 8511); (8517, 8521); (8526, 8526); (8544, 8584); (11264, 11492);
    (11499, 11502); (11506, 11507); (11520, 11557); (11559, 11559);
    (11565, 11565); (11568, 11623); (11631, 11631); (11648, 11670);
    (11680, 11686); (11688, 11694); (11696, 11702); (11704, 11710);
    (11712, 11718); (11720, 11726); (11728, 11734); (11736, 11742);
    (12293, 12295); (12321, 12329); (12337, 12341); (12344, 12348);
    (12353, 12438); (12445, 12447); (12449, 12538); (12540, 12543);
    (12549, 12591); (12593, 12686); (12704, 12735); (12784, 12799);
    (13312, 19903); (19968, 42124); (42192, 42237); (42240, 42508);
    (42512, 42527); (42538, 42539); (42560, 42606); (42623, 42653);
    (42656, 42735); (42775, 42783); (42786, 42888); (42891, 42954);
    (42960, 42961); (42963, 42963); (42965, 42969); (42994, 43009);
    (43011, 43013); (43015, 43018); (43020, 43042); (43072, 43123);
    (43138, 43187); (43250, 43255); (43259, 43259); (43261, 43262);
    (43274, 43301); (43312, 43334); (43360, 43388); (43396, 43442);
    (43471, 43471); (43488, 43492); (43494, 43503); (43514, 43518);
    (43520, 43560); (43584, 43586); (43588, 43595); (43616, 43638);
    (43642, 43642); (43646, 43695); (43697, 43697); (43701, 43702);
    (43705, 43709); (43712, 43712); (43714, 43714); (43739, 43741);
    (43744, 43754); (43762, 43764); (43777, 43782); (43785, 43790);
    (43793, 43798); (43808, 43814); (43816, 43822); (43824, 43866);
    (43868, 43881); (43888, 44002); (44032, 55203); (55216, 55238);
    (55243, 55291); (63744, 64109); (64112, 64217); (64256, 64262);
    (64275, 64279); (64285, 64285); (64287, 64296); (64298, 64310);
    (64312, 64316); (64318, 64318); (64320, 64321); (64323, 64324);
    (64326, 64433); (64467, 64605); (64612, 64829); (64848, 64911);
    (64914, 64967); (65008, 65017); (65137, 65137); (65139, 65139);
    (65143, 65143); (65145, 65145); (65147, 65147); (65149, 65149);
    (65151, 65276); (65313, 65338); (65345, 65370); (65382, 65437);
    (65440, 65470); (65474, 65479); (65482, 65487); (65490, 65495);
    (65498, 65500); (65536, 65547); (65549, 65574); (65576, 65594);
    (65596, 65597); (65599, 65613); (65616, 65629); (65664, 65786);
    (65856, 65908); (66176, 66204); (66208, 66256); (66304, 66335);
    (66349, 66378); (66384, 66421); (66432, 66461); (66464, 66499);
    (66504, 66511); (66513, 66517); (66560, 66717); (66736, 66771);
    (66776, 66811); (66816, 66855); (66864, 66915); (66928, 66938);
    (66940, 66954); (66956, 66962); (66964, 66965); (66967, 66977);
    (66979, 66993); (66995, 67001); (67003, 67004); (67072, 67382);
    (67392, 67413); (67424, 67431); (67456, 67461); (67463, 67504);
    (67506, 67514); (67584, 67589); (67592, 67592); (67594, 67637);
    (67639, 67640); (67644, 67644); (67647, 67669); (67680, 67702);
    (67712, 67742); (67808, 67826); (67828, 67829); (67840, 67861);
    (67872, 67897); (67968, 68023); (68030, 68031); (68096, 68096);
    (68112, 68115); (68117, 68119); (68121, 68149); (68192, 68220);
    (68224, 68252); (68288, 68295); (68297, 68324); (68352, 68405);
    (68416, 68437); (68448, 68466); (68480, 68497); (68608, 68680);
    (68736, 68786); (68800, 68850); (68864, 68899); (69248, 69289);
    (69296, 69297); (69376, 69404); (69415, 69415); (69424, 69445);
    (69488, 69505); (69552, 69572); (69600, 69622); (69635, 69687);
    (69745, 69746); (69749, 69749); (69763, 69807); (69840, 69864);
    (69891, 69926); (69956, 69956); (69959, 69959); (69968, 70002);
    (70006, 70006); (70019, 70066); (70081, 70084); (70106, 70106);
    (70108, 70108); (70144, 70161); (70163, 70187); (70272, 70278);
    (70280, 70280); (70282, 70285); (70287, 70301); (70303, 70312);
    (70320, 70366); (70405, 70412); (70415, 70416); (70419, 70440);
    (70442, 70448); (70450, 70451); (70453, 70457); (70461, 70461);
    (70480, 70480); (70493, 70497); (70656, 70708); (70727, 70730);
    (70751, 70753); (70784, 70831); (70852, 70853); (70855, 70855);
    (71040, 71086); (71128, 71131); (71168, 71215); (71236, 71236);
    (71296, 71338); (71352, 71352); (71424, 71450); (71488, 71494);
    (71680, 71723); (71840, 71903); (71935, 71942); (71945, 71945);
    (71948, 71955); (71957, 71958); (71960, 71983); (71999, 71999);
    (72001, 72001); (72096, 72103); (72106, 72144); (72161, 72161);
    (72163, 72163); (72192, 72192); (72203, 72242); (72250, 72250);
    (72272, 72272); (72284, 72329); (72349, 72349); (72368, 72440);
    (72704, 72712); (72714, 72750); (72768, 72768); (72818, 72847);
    (72960, 72966); (72968, 72969); (72971, 73008); (73030, 73030);
    (73056, 73061); (73063, 73064); (73066, 73097); (73112, 73112);
    (73440, 73458); (73648, 73648); (73728, 74649); (74752, 74862);
    (74880, 75075); (77712, 77808); (77824, 78894); (82944, 83526);
    (92160, 92728); (92736, 92766); (92784, 92862); (92880, 92909);
    (92928, 92975); (92992, 92995); (93027, 93047); (93053, 93071);
    (93760, 93823); (93952, 94026); (94032, 94032); (94099, 94111);
    (94176, 94177); (94179, 94179); (94208, 100343); (100352, 101589);
    (101632, 101640); (110576, 110579); (110581, 110587); (110589, 110590);
    (110592, 110882); (110928, 110930); (110948, 110951); (110960, 111355);
    (113664, 113770); (113776, 113788); (113792, 113800); (113808, 113817);
    (119808, 119892); (119894, 119964); (119966, 119967); (119970, 119970);
    (119973, 119974); (119977, 119980); (119982, 119993); (119995, 119995);
    (119997, 120003); (120005, 120069); (120071, 120074); (120077, 120084);
    (120086, 120092); (120094, 120121); (120123, 120126); (120128, 120132);
    (120134, 120134); (120138, 120144); (120146, 120485); (120488, 120512);
    (120514, 120538); (120540, 120570); (120572, 120596); (120598, 120628);
    (120630, 120654); (120656, 120686); (120688, 120712); (120714, 120744);
    (120746, 120770); (120772, 120779); (122624, 122654); (123136, 123180);
    (123191, 123197); (123214, 123214); (123536, 123565); (123584, 123627);
    (124896, 124902); (124904, 124907); (124909, 124910); (124912, 124926);
    (124928, 125124); (125184, 125251); (125259, 125259); (126464, 126467);
    (126469, 126495); (126497, 126498); (126500, 126500); (126503, 126503);
    (126505, 126514); (126516, 126519); (126521, 126521); (126523, 126523);
    (126530, 126530); (126535, 126535); (126537, 126537); (126539, 126539);
    (126541, 126543); (126545, 126546); (126548, 126548); (126551, 126551);
    (126553, 126553); (126555, 126555); (126557, 126557); (126559, 126559);
    (126561, 126562); (126564, 126564); (126567, 126570); (126572, 126578);
    (126580, 126583); (126585, 126588); (126590, 126590); (126592, 126601);
    (126603, 126619); (126625, 126627); (126629, 126633); (126635, 126651);
    (131072, 173791); (173824, 177976); (177984, 178205); (178208, 183969);
    (183984, 191456); (194560, 195101); (196608, 201546) ]%N.

(** The code points with the property XID_Continue and without XID_Start. *)
Definition xid_continue_only_ranges : list (N * N) :=
  [ (48, 57); (95, 95); (183, 183); (768, 879); (903, 903); (1155, 1159);
    (1425, 1469); (1471, 1471); (1473, 1474); (1476, 1477); (1479, 1479);
    (1552, 1562); (1611, 1641); (1648, 1648); (1750, 1756); (1759, 1764);
    (1767, 1768); (1770, 1773); (1776, 1785); (1809, 1809); (1840, 1866);
    (1958, 1968); (1984, 1993); (2027, 2035); (2045, 2045); (2070, 2073);
    (2075, 2083); (2085, 2087); (2089, 2093); (2137, 2139); (2200, 2207);
    (2250, 2273); (2275, 2307); (2362, 2364); (2366, 2383); (2385, 2391);
    (2402, 2403); (2406, 2415); (2433, 2435); (2492, 2492); (2494, 2500);
    (2503, 2504); (2507, 2509); (2519, 2519); (2530, 2531); (2534, 2543);
    (2558, 2558); (2561, 2563); (2620, 2620); (2622, 2626); (2631, 2632);
    (2635, 2637); (2641, 2641); (2662, 2673); (2677, 2677); (2689, 2691);
    (2748, 2748); (2750, 2757); (2759, 2761); (2763, 2765); (2786, 2787);
    (2790, 2799); (2810, 2815); (2817, 2819); (2876, 2876); (2878, 2884);
    (2887, 2888); (2891, 2893); (2901, 2903); (2914, 2915); (2918, 2927);
    (2946, 2946); (3006, 3010); (3014, 3016); (3018, 3021); (3031, 3031);
    (3046, 3055); (3072, 3076); (3132, 3132); (3134, 3140); (3142, 3144);
    (3146, 3149); (3157, 3158); (3170, 3171); (3174, 3183); (3201, 3203);
    (3260, 3260); (3262, 3268); (3270, 3272); (3274, 3277); (3285, 3286);
    (3298, 3299); (3302, 3311); (3328, 3331); (3387, 3388); (3390, 3396);
    (3398, 3400); (3402, 3405); (3415, 3415); (3426, 3427); (3430, 3439);
    (3457, 3459); (3530, 3530); (3535, 3540); (3542, 3542); (3544, 3551);
    (3558, 3567); (3570, 3571); (3633, 3633); (3635, 3642); (3655, 3662);
    (3664, 3673); (3761, 3761); (3763, 3772); (3784, 3789); (3792, 3801);
    (3864, 3865); (3872, 3881); (3893, 3893); (3895, 3895); (3897, 3897);
    (3902, 3903); (3953, 3972); (3974, 3975); (3981, 3991); (3993, 4028);
    (4038, 4038); (4139, 4158); (4160, 4169); (4182, 4185); (4190, 4192);
    (4194, 4196); (4199, 4205); (4209, 4212); (4226, 4237); (4239, 4253);
    (4957, 4959); (4969, 4977); (5906, 5909); (5938, 5940); (5970, 5971);
    (6002, 6003); (6068, 6099); (6109, 6109); (6112, 6121); (6155, 6157);
    (6159, 6169); (6313, 6313); (6432, 6443); (6448, 6459); (6470, 6479);
    (6608, 6618); (6679, 6683); (6741, 6750); (6752, 6780); (6783, 6793);
    (6800, 6809); (6832, 6845); (6847, 6862); (6912, 6916); (6964, 6980);
    (6992, 7001); (7019, 7027); (7040, 7042); (7073, 7085); (7088, 7097);
    (7142, 7155); (7204, 7223); (7232, 7241); (7248, 7257); (7376, 7378);
    (7380, 7400); (7405, 7405); (7412, 7412); (7415, 7417); (7616, 7679);
    (8255, 8256); (8276, 8276); (8400, 8412); (8417, 8417); (8421, 8432);
    (11503, 11505); (11647, 11647); (11744, 11775); (12330, 12335);
    (12441, 12442); (42528, 42537); (42607, 42607); (42612, 42621);
    (42654, 42655); (42736, 42737); (43010, 43010); (43014, 43014);
    (43019, 43019); (43043, 43047); (43052, 43052); (43136, 43137);
    (43188, 43205); (43216, 43225); (43232, 43249); (43263, 43273);
    (43302, 43309); (43335, 43347); (43392, 43395); (43443, 43456);
    (43472, 43481); (43493, 43493); (43504, 43513); (43561, 43574);
    (43587, 43587); (43596, 43597); (43600, 43609); (43643, 43645);
    (43696, 43696); (43698, 43700); (43703, 43704); (43710, 43711);
    (43713, 43713); (43755, 43759); (43765, 43766); (44003, 44010);
    (44012, 44013); (44016, 44025); (64286, 64286); (65024, 65039);
    (65056, 65071); (65075, 65076); (65101, 65103); (65296, 65305);
    (65343, 65343); (65438, 65439); (66045, 66045); (66272, 66272);
    (66422, 66426); (66720, 66729); (68097, 68099); (68101, 68102);
    (68108, 68111); (68152, 68154); (68159, 68159); (68325, 68326);
    (68900, 68903); (68912, 68921); (69291, 69292); (69446, 69456);
    (69506, 69509); (69632, 69634); (69688, 69702); (69734, 69744);
    (69747, 69748); (69759, 69762); (69808, 69818); (69826, 69826);
    (69872, 69881); (69888, 69890); (69927, 69940); (69942, 69951);
    (69957, 69958); (70003, 70003); (70016, 70018); (70067, 70080);
    (70089, 70092); (70094, 70105); (70188, 70199); (70206, 70206);
    (70367, 70378); (70384, 70393); (70400, 70403); (70459, 70460);
    (70462, 70468); (70471, 70472); (70475, 70477); (70487, 70487);
    (70498, 70499); (70502, 70508); (70512, 70516); (70709, 70726);
    (70736, 70745); (70750, 70750); (70832, 70851); (70864, 70873);
    (71087, 71093); (71096, 71104); (71132, 71133); (71216, 71232);
    (71248, 71257); (71339, 71351); (71360, 71369); (71453, 71467);
    (71472, 71481); (71724, 71738); (71904, 71913); (71984, 71989);
    (71991, 71992); (71995, 71998); (72000, 72000); (72002, 72003);
    (72016, 72025); (72145, 72151); (72154, 72160); (72164, 72164);
    (72193, 72202); (72243, 72249); (72251, 72254); (72263, 72263);
    (72273, 72283); (72330, 72345); (72751, 72758); (72760, 72767);
    (72784, 72793); (72850, 72871); (72873, 72886); (73009, 73014);
    (73018, 73018); (73020, 73021); (73023, 73029); (73031, 73031);
    (73040, 73049); (73098, 73102); (73104, 73105); (73107, 73111);
    (73120, 73129); (73459, 73462); (92768, 92777); (92864, 92873);
    (92912, 92916); (92976, 92982); (93008, 93017); (94031, 94031);
    (94033, 94087); (94095, 94098); (94180, 94180); (94192, 94193);
    (113821, 113822); (118528, 118573); (118576, 118598); (119141, 119145);
    (119149, 119154); (119163, 119170); (119173, 119179); (119210, 119213);
    (119362, 119364); (120782, 120831); (121344, 121398); (121403, 121452);
    (121461, 121461); (121476, 121476); (121499, 121503); (121505, 121519);
    (122880, 122886); (122888, 122904); (122907, 122913); (122915, 122916);
    (122918, 122922); (123184, 123190); (123200, 123209); (123566, 123566);
    (123628, 123641); (125136, 125142); (125252, 125258); (125264, 125273);
    (130032, 130041); (917760, 917999) ]%N.

(** The runs of decimal digits: in each the digit values count up from 0, modulo 10. *)
Definition decimal_ranges : list (N * N) :=
  [ (48, 57); (1632, 1641); (1776, 1785); (1984, 1993); (2406, 2415);
    (2534, 2543); (2662, 2671); (2790, 2799); (2918, 2927); (3046, 3055);
    (3174, 3183); (3302, 3311); (3430, 3439); (3558, 3567); (3664, 3673);
    (3792, 3801); (3872, 3881); (4160, 4169); (4240, 4249); (6112, 6121);
    (6160, 6169); (6470, 6479); (6608, 6617); (6784, 6793); (6800, 6809);
    (6992, 7001); (7088, 7097); (7232, 7241); (7248, 7257); (42528, 42537);
    (43216, 43225); (43264, 43273); (43472, 43481); (43504, 43513);
    (43600, 43609); (44016, 44025); (65296, 65305); (66720, 66729);
    (68912, 68921); (69734, 69743); (69872, 69881); (69942, 69951);
    (70096, 70105); (70384, 70393); (70736, 70745); (70864, 70873);
    (71248, 71257); (71360, 71369); (71472, 71481); (71904, 71913);
    (72016, 72025); (72784, 72793); (73040, 73049); (73120, 73129);
    (92768, 92777); (92864, 92873); (93008, 93017); (120782, 120831);
    (123200, 123209); (123632, 123641); (125264, 125273); (130032, 130041) ]%N.

(** The whitespace code points from 127 on. *)
Definition unicode_space_ranges : list (N * N) :=
  [ (133, 133); (160, 160); (5760, 5760); (8192, 8202); (8232, 8233);
    (8239, 8239); (8287, 8287); (12288, 12288) ]%N.

(** [name.isidentifier()] *)
Definition xid_start (c : char) : bool := in_ranges xid_start_ranges c.

Definition xid_continue (c : char) : bool :=
  xid_start c || in_ranges xid_continue_only_ranges c.

Definition isidentifier (name : pystr) : bool :=
  match name with
  | [] => false
  | c :: rest => (xid_start c || N.eqb c 95) && forallb xid_continue rest
  end.

(** The whitespace that [int] skips: the ASCII whitespace of C and
    the Unicode whitespace behind ASCII. *)
Definition int_space (c : char) : bool :=
  ((9 <=? c) && (c <=? 13) || (c =? 32)
   || (127 <=? c) && in_ranges unicode_space_ranges c)%N.

(** The decimal value of a digit of any script. *)
Definition decimal_value (c : char) : option N :=
  match find (fun r => (fst r <=? c) && (c <=? snd r))%N decimal_ranges with
  | Some r => Some ((c - fst r) mod 10)%N
  | None => None
  end.

Fixpoint skip_spaces (s : pystr) : pystr :=
  match s with
  | c :: rest => if int_space c then skip_spaces rest else s
  | [] => []
  end.

(** The digits after the first one, with single underscores between
    digits, and the text behind them. *)
Fixpoint more_digits (acc : N) (s : pystr) : option (N * pystr) :=
  match s with
  | [] => Some (acc, [])
  | c :: rest =>
      match decimal_value c with
      | Some d => more_digits (acc * 10 + d) rest
      | None =>
          if N.eqb c 95 then
            match rest with
            | c2 :: rest2 =>
                match decimal_value c2 with
                | Some d => more_digits (acc * 10 + d) rest2
                | None => None
                end
            | [] => None
            end
          else Some (acc, s)
      end
  end.

Definition unsigned_int (s : pystr) : option N :=
  match s with
  | c :: rest =>
      match decimal_value c with
      | Some d =>
          match more_digits d rest with
          | Some (n, behind) =>
              match skip_spaces behind with
              | [] => Some n
              | _ :: _ => None
              end
          | None => None
          end
      | None => None
      end
  | [] => None
  end.

(** [int(name)]; [None] is [ValueError]. *)
Definition int (name : pystr) : option Z :=
  match skip_spaces name with
  | c :: rest =>
      if N.eqb c 43 then option_map Z.of_N (unsigned_int rest)
      else if N.eqb c 45
           then option_map (fun n => Z.opp (Z.of_N n)) (unsigned_int rest)
           else option_map Z.of_N (unsigned_int (c :: rest))
  | [] => None
  end.

(** *** The parser *)

Definition addgroup (groups : nat) (index : N) (k : result exn (list titem))
  : result exn (list titem) :=
  if (N.to_nat index <=? groups)%nat
  then (t <- k ;; Ok (TGroup (N.to_nat index) :: t))
  else Raise TemplateError.

Definition lappend (c : char) (k : result exn (list titem))
  : result exn (list titem) :=
  t <- k ;; Ok (TLit c :: t).

(** [\g<name>]: the pattern has no named group, so a name that is an
    identifier is unknown; any other name is a group number. *)
Definition named_group (groups : nat) (name : pystr)
  (k : result exn (list titem)) : result exn (list titem) :=
  match name with
  | [] => Raise TemplateError
  | _ :: _ =>
      if isidentifier name then Raise IndexError
      else match int name with
           | Some index =>
               if (index <? 0)%Z then Raise TemplateError
               else addgroup groups (Z.to_N index) k
           | None => Raise TemplateError
           end
  end.

Fixpoint parse_template_from (fuel : nat) (groups : nat) (ts : list token)
  : result exn (list titem) :=
  match fuel with
  | 0 => Ok []
  | S fuel' =>
      let continue := parse_template_from fuel' groups in
      match ts with
      | [] => Ok []
      | Dangling :: _ => Raise TemplateError
      | Plain this :: rest0 =>
          rest <- read_ahead rest0 ;;
          lappend this (continue rest)
      | Escaped c :: rest0 =>
          rest <- read_ahead rest0 ;;
          if (c =? 103)%N then
            match rest with
            | Plain 60%N :: rest1 =>
                rest2 <- read_ahead rest1 ;;
                r <- getuntil 62%N rest2 ;;
                named_group groups (fst r) (continue (snd r))
            | _ => Raise TemplateError
            end
          else if (c =? 48)%N then
            match rest with
            | Plain d1 :: rest1 =>
                if is_octdigit d1 then
                  rest2 <- read_ahead rest1 ;;
                  match rest2 with
                  | Plain d2 :: rest3 =>
                      if is_octdigit d2 then
                        rest4 <- read_ahead rest3 ;;
                        lappend (N.land (number 8 [d1; d2]) 255)
                                (continue rest4)
                      else lappend (number 8 [d1]) (continue rest2)
                  | _ => lappend (number 8 [d1]) (continue rest2)
                  end
                else lappend 0%N (continue rest)
            | _ => lappend 0%N (continue rest)
            end
          else if is_digit c then
            match rest with
            | Plain d1 :: rest1 =>
                if is_digit d1 then
                  rest2 <- read_ahead rest1 ;;
                  match rest2 with
                  | Plain d2 :: rest3 =>
                      if is_octdigit c && is_octdigit d1 && is_octdigit d2
                      then
                        rest4 <- read_ahead rest3 ;;
                        let code := number 8 [c; d1; d2] in
                        if (255 <? code)%N then Raise TemplateError
                        else lappend code (continue rest4)
                      else addgroup groups (number 10 [c; d1])
                                    (continue rest2)
                  | _ => addgroup groups (number 10 [c; d1]) (continue rest2)
                  end
                else addgroup groups (number 10 [c]) (continue rest)
            | _ => addgroup groups (number 10 [c]) (continue rest)
            end
          else
            match escape c with
            | Some e => lappend e (continue rest)
            | None =>
                if is_ascii_letter c then Raise TemplateError
                else lappend backslash (lappend c (continue rest))
            end
      end
  end.

Definition parse_template (source : pystr) (groups : nat)
  : result exn (list titem) :=
  parse_template_from (length source) groups (tokenize source).

Definition expand (t : list titem) (m : Match) (s : pystr) : pystr :=
  flat_map (fun it => match it with
                      | TLit c => [c]
                      | TGroup n => group m s n
                      end) t.

(** [pattern.sub(repl, content, count=1)] for the compiled pattern,
    which has the two groups of the script. *)
Definition sub_once (starting_rx ending_rx : pattern) (repl content : pystr)
  : result exn pystr :=
  t <- parse_template repl 2 ;;
  match search starting_rx ending_rx content with
  | None => Ok content
  | Some m =>
      Ok (firstn (m_start m) content ++ expand t m content
            ++ skipn (m_end m) content)
  end.

(** ** The section replacer *)

Definition replace_content_between (content : pystr)
  (starting_rx ending_rx : pattern) (replacement_block : pystr)
  : result exn pystr :=
  match search starting_rx ending_rx content with
  | None => Raise (ValueError starting_rx)
  | Some m =>
      let heading := group m content 1 in
      let replacement :=
        match replacement_block with
        | _ :: _ => heading ++ replacement_block
        | [] => heading
        end in
      sub_once starting_rx ending_rx replacement content
  end.

(** ** The patterns and the table of the script *)

Definition lits (s : pystr) : regex :=
  fold_right (fun c r => Seq (Chr (CLit c)) r) Eps s.

(** [####\s*Community image] *)
Definition COMMUNITY_HEADING_PATTERN : pattern :=
  [ Seq (lits (py "####"))
        (Seq (Star true CSpace) (lits (py "Community image"))) ].

(** [\n####\s*Pro image] *)
Definition PRO_HEADING_PATTERN : pattern :=
  [ Seq (Chr (CLit nl))
        (Seq (lits (py "####"))
             (Seq (Star true CSpace) (lits (py "Pro image")))) ].

(** [^\s*##\s|$\Z] *)
Definition API_COVERAGE_HEADING_PATTERN : pattern :=
  [ Seq Bol (Seq (Star true CSpace) (Seq (lits (py "##")) (Chr CSpace)));
    Seq Eol EndZ ].

Definition table_config : TableConfig :=
  {| columns :=
       [ {| header := py "Resource"; key := py "resource";
            alignment := py "left"; formatter := None |};
         {| header := py "Create"; key := py "create";
            alignment := py "right"; formatter := Some bool_formatter |};
         {| header := py "Delete"; key := py "delete";
            alignment := py "right"; formatter := Some bool_formatter |};
         {| header := py "Update"; key := py "update";
            alignment := py "right"; formatter := Some bool_formatter |} ];
     sort_by := None |}.

(** ** The document file

    The file is the sequence of its bytes.  [Path.read_text] with
    [encoding="utf-8"] decodes them strictly and, as every text-mode
    read, turns each [\r\n] and each other [\r] into [\n].
    [Path.write_text] without an encoding turns each [\n] into the line
    separator of the platform and encodes the text with the encoding of
    the locale. *)

Definition cr : char := 13%N.

Definition byte_of (n : N) : Byte.byte :=
  match Byte.of_N n with
  | Some b => b
  | None => Byte.x00
  end.

(** The UTF-8 bytes of a code point; no bytes for a surrogate. *)
Definition utf_8_encode_char (c : char) : option (list Byte.byte) :=
  (if c <? 128 then Some [byte_of c]
   else if c <? 2048 then
     Some [byte_of (192 + c / 64); byte_of (128 + c mod 64)]
   else if c <? 65536 then
     if (55296 <=? c) && (c <=? 57343) then None
     else Some [byte_of (224 + c / 4096); byte_of (128 + (c / 64) mod 64);
                byte_of (128 + c mod 64)]
   else if c <? 1114112 then
     Some [byte_of (240 + c / 262144); byte_of (128 + (c / 4096) mod 64);
           byte_of (128 + (c / 64) mod 64); byte_of (128 + c mod 64)]
   else None)%N.

(** [text.encode("utf-8")]; [None] is [UnicodeEncodeError]. *)
Fixpoint utf_8_encode (text : pystr) : option (list Byte.byte) :=
  match text with
  | [] => Some []
  | c :: rest =>
      match utf_8_encode_char c, utf_8_encode rest with
      | Some b, Some bs => Some (b ++ bs)
      | _, _ => None
      end
  end.

(** The six bits of a continuation byte. *)
Definition continuation (b : Byte.byte) : option N :=
  let n := Byte.to_N b in
  if ((128 <=? n) && (n <? 192))%N then Some (n - 128)%N else None.

(** [data.decode("utf-8")]; [None] is [UnicodeDecodeError]: a byte
    that starts no sequence, a sequence cut short, a code point
    written longer than needed, a surrogate, a code point behind
    U+10FFFF. *)
Fixpoint utf_8_decode (data : list Byte.byte) : option pystr :=
  match data with
  | [] => Some []
  | b0 :: rest =>
      let n := Byte.to_N b0 in
      if (n <? 128)%N then option_map (cons n) (utf_8_decode rest)
      else if (n <? 192)%N then None
      else if (n <? 224)%N then
        match rest with
        | b1 :: rest1 =>
            match continuation b1 with
            | Some x1 =>
                let c := ((n - 192) * 64 + x1)%N in
                if (c <? 128)%N then None
                else option_map (cons c) (utf_8_decode rest1)
            | None => None
            end
        | _ => None
        end
      else if (n <? 240)%N then
        match rest with
        | b1 :: b2 :: rest2 =>
            match continuation b1, continuation b2 with
            | Some x1, Some x2 =>
                let c := ((n - 224) * 4096 + x1 * 64 + x2)%N in
                if ((c <? 2048) || (55296 <=? c) && (c <=? 57343))%N then None
                else option_map (cons c) (utf_8_decode rest2)
            | _, _ => None
            end
        | _ => None
        end
      else if (n <? 248)%N then
        match rest with
        | b1 :: b2 :: b3 :: rest3 =>
            match continuation b1, continuation b2, continuation b3 with
            | Some x1, Some x2, Some x3 =>
                let c := ((n - 240) * 262144 + x1 * 4096 + x2 * 64 + x3)%N in
                if ((c <? 65536) || (1114112 <=? c))%N then None
                else option_map (cons c) (utf_8_decode rest3)
            | _, _, _ => None
            end
        | _ => None
        end
      else None
  end.

(** Universal newlines, on reading. *)
Fixpoint universal_newlines (text : pystr) : pystr :=
  match text with
  | [] => []
  | c :: rest =>
      if N.eqb c cr then
        match rest with
        | d :: rest' =>
            if N.eqb d nl then nl :: universal_newlines rest'
            else nl :: universal_newlines rest
        | [] => [nl]
        end
      else c :: universal_newlines rest
  end.

(** The translation of newlines on writing. *)
Definition write_newlines (linesep : pystr) (text : pystr) : pystr :=
  flat_map (fun c => if N.eqb c nl then linesep else [c]) text.

(** ** The driver

    A run of [main] meets the command line, the catalog file and the
    document file.  What [parse_args] and [json.load] do with the first
    two is given with the world: the exit code of the argument parser,
    if it exits, and the catalog that the file holds, if it can be
    opened, decoded and parsed.  A JSON text that is no object of
    sections, and one path given for both files, are outside this
    model. *)

Inductive json_file :=
| Unreadable
| Undecodable
| Malformed
| Catalog (cfn_catalog : dict section).

(** What [main] does to the outside: the calls of the section
    replacer it starts and the text it hands to [write_text]. *)
Inductive event :=
| Replacing (starting_rx : pattern)
| Written (text : pystr).

Record world := {
  exit_code : option N;
  cfn_json : json_file;
  md_file : option (list Byte.byte);
  md_read_only : bool;
  trace : list event
}.

(** The line separator and the encoding of the locale. *)
Record platform := {
  linesep : pystr;
  locale : pystr -> option (list Byte.byte)
}.

Definition log (ev : event) (w : world) : world :=
  {| exit_code := exit_code w; cfn_json := cfn_json w;
     md_file := md_file w; md_read_only := md_read_only w;
     trace := trace w ++ [ev] |}.

Definition parse_args (w : world) : result exn unit :=
  match exit_code w with
  | Some code => Raise (SystemExit code)
  | None => Ok tt
  end.

Definition _load_cfn_file (w : world) : result exn (dict section) :=
  match cfn_json w with
  | Unreadable => Raise OSError
  | Undecodable => Raise UnicodeDecodeError
  | Malformed => Raise InvalidJSON
  | Catalog cfn_catalog => Ok cfn_catalog
  end.

(** [args.md_file.read_text(encoding="utf-8")]; a file that cannot be
    opened has no bytes. *)
Definition read_text (w : world) : result exn pystr :=
  match md_file w with
  | None => Raise OSError
  | Some data =>
      match utf_8_decode data with
      | Some text => Ok (universal_newlines text)
      | None => Raise UnicodeDecodeError
      end
  end.

(** [args.md_file.write_text(data)]: the file is opened for writing,
    which empties it, before the text is encoded. *)
Definition write_text (p : platform) (data : pystr) (w : world)
  : result exn unit * world :=
  if md_read_only w then (Raise OSError, w)
  else
    match locale p (write_newlines (linesep p) data) with
    | Some encoded =>
        (Ok tt,
         {| exit_code := exit_code w; cfn_json := cfn_json w;
            md_file := Some encoded; md_read_only := md_read_only w;
            trace := trace w ++ [Written data] |})
    | None =>
        (Raise UnicodeEncodeError,
         {| exit_code := exit_code w; cfn_json := cfn_json w;
            md_file := Some []; md_read_only := md_read_only w;
            trace := trace w |})
    end.

Definition tables (cfn_catalog : dict section) : result exn (pystr * pystr) :=
  let community_data := transform (dict_find cfn_catalog (py "community")) in
  let pro_data := transform (dict_find cfn_catalog (py "pro")) in
  community_table <- generate_table table_config (Some community_data) ;;
  pro_table <- generate_table table_config (Some pro_data) ;;
  Ok (community_table, pro_table).

Definition main (p : platform) (w : world) : result exn unit * world :=
  match parse_args w with
  | Raise e => (Raise e, w)
  | Ok _ =>
  match _load_cfn_file w with
  | Raise e => (Raise e, w)
  | Ok cfn_catalog =>
  match tables cfn_catalog with
  | Raise e => (Raise e, w)
  | Ok (community_table, pro_table) =>
  match read_text w with
  | Raise e => (Raise e, w)
  | Ok original_doc =>
      let w := log (Replacing COMMUNITY_HEADING_PATTERN) w in
      match replace_content_between original_doc COMMUNITY_HEADING_PATTERN
              PRO_HEADING_PATTERN community_table with
      | Raise e => (Raise e, w)
      | Ok updated_doc =>
          let w := log (Replacing PRO_HEADING_PATTERN) w in
          match replace_content_between updated_doc PRO_HEADING_PATTERN
                  API_COVERAGE_HEADING_PATTERN pro_table with
          | Raise e => (Raise e, w)
          | Ok updated_doc =>
              if negb (pystr_eqb updated_doc original_doc)
              then write_text p updated_doc w
              else (Ok tt, w)
          end
      end
  end end end end.

(** ** The vocabulary of the statements *)

(** The text of the cell of row [r] in column [col], before padding. *)
Definition cell_text (col : ColumnConfig) (r : row) : pystr :=
  format_value col (dict_get r (key col) (VStr [])).

Definition header_cells (self : TableConfig) (widths : list nat) : list pystr :=
  map (fun '(col, w) => _format_cell (header col) w (alignment col))
      (combine (columns self) widths).

Definition row_cells (self : TableConfig) (widths : list nat) (r : row)
  : list pystr :=
  map (fun '(col, w) => _format_cell (cell_text col r) w (alignment col))
      (combine (columns self) widths).

Definition separator_cells (self : TableConfig) (widths : list nat)
  : list pystr :=
  map (fun '(col, w) => _get_alignment_separator (alignment col) w)
      (combine (columns self) widths).

(** A header or data line without its newline. *)
Definition line (cells : list pystr) : pystr :=
  py "| " ++ join (py " | ") cells ++ py " |".

Definition separator_line (cells : list pystr) : pystr :=
  py "|" ++ join (py "|") cells ++ py "|".

Definition table_text (self : TableConfig) (widths : list nat)
  (data : list row) : pystr :=
  line (header_cells self widths) ++ [nl]
    ++ separator_line (separator_cells self widths) ++ [nl]
    ++ concat (map (fun r => line (row_cells self widths r) ++ [nl]) data).

(** Uniform line length: the header line and the line of every row
    have [n] characters. *)
Definition lines_have_length (self : TableConfig) (data : list row) (n : nat)
  : Prop :=
  let widths := _calculate_column_widths self data in
  length (line (header_cells self widths)) = n
  /\ Forall (fun r => length (line (row_cells self widths r)) = n) data.

Definition line_length (self : TableConfig) (data : list row) : nat :=
  list_sum (_calculate_column_widths self data)
  + 3 * length (columns self) + 1.

(** The separator cell of a column: [dashes] dashes and the colons of
    the alignment. *)
Definition separator_encoding (alignment : pystr) (dashes : nat) : pystr :=
  if pystr_eqb alignment (py "right") then times dash dashes ++ [colon]
  else if pystr_eqb alignment (py "center")
       then [colon] ++ times dash dashes ++ [colon]
       else times dash dashes.

Definition entries (section_data : option section) : section :=
  match section_data with
  | Some d => d
  | None => []
  end.

Definition resource_of (r : row) : option value := dict_find r (py "resource").

(** Row [r] is a row of the resource [k]. *)
Definition has_resource (k : pystr) (r : row) : bool :=
  match resource_of r with
  | Some (VStr k') => pystr_eqb k' k
  | _ => false
  end.

(** A section and a row of the examples. *)
Definition bucket_section : section :=
  [ (py "AWS::S3::Bucket", [ (py "methods", [py "Create"; py "Delete"]) ]) ].

Definition bucket_row : row :=
  [ (py "resource", VStr (py "AWS::S3::Bucket"));
    (py "create", VBool true);
    (py "delete", VBool true);
    (py "update", VBool false) ].

Definition plain_column : ColumnConfig :=
  {| header := py "Resource"; key := py "resource";
     alignment := py "left"; formatter := None |}.

(** The methods set of a resource. *)
Definition methods_of (md : metadata) : list pystr :=
  set (dict_get md (py "methods") []).

(** Row [r] is the row of the resource [k] with metadata [md]. *)
Definition row_of (entry : pystr * metadata) (r : row) : Prop :=
  let '(k, md) := entry in
  dict_find r (py "resource") = Some (VStr k)
  /\ (exists b, dict_find r (py "create") = Some (VBool b)
                /\ (b = true <-> In (py "Create") (methods_of md)))
  /\ (exists b, dict_find r (py "delete") = Some (VBool b)
                /\ (b = true <-> In (py "Delete") (methods_of md)))
  /\ (exists b, dict_find r (py "update") = Some (VBool b)
                /\ (b = true <-> In (py "Update") (methods_of md))).

(** What the template parser raises: [re.error], or [IndexError] for
    a group name. *)
Definition template_exn (e : exn) : Prop := e = TemplateError \/ e = IndexError.

(** [^{starting_rx}\s*\n] matches somewhere in the document. *)
Definition start_matches (starting_rx : pattern) (content : pystr) : Prop :=
  exists i, i <= length content /\ ends (group1 starting_rx) content i <> [].

(** No match of [r] contains the character [c]. *)
Fixpoint avoids (c : char) (r : regex) : bool :=
  match r with
  | Chr k | Star _ k => negb (in_class k c)
  | Seq a b | Alt a b => avoids c a && avoids c b
  | Eps | Bol | Eol | EndZ | Look _ => true
  end.

(** The section replacer returns the document with the span of the
    section replaced by the block. *)
Definition replaces_section (content : pystr) (starting_rx ending_rx : pattern)
  (block : pystr) : Prop :=
  exists pre heading span post,
    content = pre ++ heading ++ span ++ post
    /\ replace_content_between content starting_rx ending_rx block
       = Ok (pre ++ heading ++ block ++ post).

(** The example of the specification: [^### A], [^### B] and the
    document with the two headings. *)
Definition heading_A : pattern := [Seq Bol (lits (py "### A"))].
Definition boundary_B : pattern := [Seq Bol (lits (py "### B"))].

Definition document_AB : pystr :=
  py "### A" ++ [nl] ++ py "old" ++ [nl] ++ py "### B" ++ [nl].

(** A page with the community heading and no heading after it. *)
Definition community_only : pystr :=
  py "#### Community image" ++ [nl] ++ py "| old |" ++ [nl].

(** A page with both headings of the script. *)
Definition page : pystr :=
  py "#### Community image" ++ [nl] ++ py "| old |" ++ [nl] ++ [nl]
    ++ py "#### Pro image" ++ [nl] ++ py "| old |" ++ [nl].

(** A catalog with one community resource and no pro section. *)
Definition bucket_catalog : dict section := [(py "community", bucket_section)].

Definition written (w : world) : list pystr :=
  flat_map (fun ev => match ev with Written t => [t] | Replacing _ => [] end)
           (trace w).

Definition attempts (w : world) : list pattern :=
  flat_map (fun ev => match ev with Replacing p => [p] | Written _ => [] end)
           (trace w).

(** ** The vocabulary of the further properties *)

Definition value_eqb (a b : value) : bool :=
  match a, b with
  | VNone, VNone => true
  | VBool x, VBool y => Bool.eqb x y
  | VStr x, VStr y => pystr_eqb x y
  | _, _ => false
  end.

Definition is_str (v : value) : Prop := exists s, v = VStr s.
Definition is_bool (v : value) : Prop := exists b, v = VBool b.

(** [a] may stand before [b] in ascending order of the keys. *)
Definition not_after {A} (keyf : A -> value) (a b : A) : Prop :=
  value_lt (keyf b) (keyf a) = Ok false.

(** The key function of [_write_data_rows] for the sort key [k]. *)
Definition sort_key (k : pystr) (x : row) : value := dict_get x k (VStr []).

(** All keys are strings, or all keys are booleans. *)
Definition uniform_keys {A} (keyf : A -> value) (l : list A) : Prop :=
  Forall (fun x => is_str (keyf x)) l \/ Forall (fun x => is_bool (keyf x)) l.

(** The table of the script, sorted by resource. *)
Definition sorted_config : TableConfig :=
  {| columns := columns table_config; sort_by := Some (py "resource") |}.

Definition queue_row : row := make_row (py "AWS::SQS::Queue", []).

(** The text of a cell of an operation column of the script: the
    mark of the source, or the placeholder, behind the spaces that
    fill the six characters of the column. *)
Definition operation_cell (supported : bool) : pystr :=
  if supported then [space; space; space; 226; 339; 8230]%N
  else [space; space; space; space; space; dash].

(** The cells of the line of an entry in the table of the script:
    the identifier padded on the right, and the marks of the three
    operations padded on the left to the width 6 of their columns. *)
Definition script_cells (widths : list nat) (entry : pystr * metadata)
  (cells : list pystr) : Prop :=
  let '(k, md) := entry in
  exists c d u,
    cells = [ ljust k (hd 0 widths);
              operation_cell c; operation_cell d; operation_cell u ]
    /\ (c = true <-> In (py "Create") (methods_of md))
    /\ (d = true <-> In (py "Delete") (methods_of md))
    /\ (u = true <-> In (py "Update") (methods_of md)).

(** No resource identifier of the section holds a backslash. *)
Definition plain_ids (section_data : option section) : Prop :=
  Forall (fun k => ~ In backslash k) (keys (entries section_data)).

(** [^\s*##\s], the first alternative of the end pattern of the pro
    section. *)
Definition next_heading : regex :=
  Seq Bol (Seq (Star true CSpace) (Seq (lits (py "##")) (Chr CSpace))).

(** A pattern that reads nothing behind the end of its match: no
    lookahead and no end anchor. *)
Fixpoint prefix_local (r : regex) : bool :=
  match r with
  | Eps | Chr _ | Bol | Star _ _ => true
  | Eol | EndZ | Look _ => false
  | Seq a b | Alt a b => prefix_local a && prefix_local b
  end.

Definition upto (L j : nat) : bool := Nat.leb j L.

(** The document after the replacement of the span of [m] by the
    block. *)
Definition replaced (content : pystr) (m : Match) (block : pystr) : pystr :=
  firstn (m_start m) content ++ group m content 1 ++ block
    ++ skipn (m_end m) content.

(** A pattern without [^]: it reads nothing before its start. *)
Fixpoint bol_free (r : regex) : bool :=
  match r with
  | Bol => false
  | Seq a b | Alt a b => bol_free a && bol_free b
  | Look a => bol_free a
  | Eps | Chr _ | Eol | EndZ | Star _ _ => true
  end.

(** Every newline of the block is its last character or is followed
    by [|]. *)
Definition pipe_lines (block : pystr) : Prop :=
  forall q, nth_error block q = Some nl ->
            nth_error block (S q) = Some pipe \/ nth_error block (S q) = None.

(** A block as [generate_table] writes it: lines that begin with [|],
    a newline at the end, no backslash. *)
Definition table_block (block : pystr) : Prop :=
  (exists rest, block = pipe :: rest)
  /\ (exists x, block = x ++ [nl])
  /\ pipe_lines block
  /\ ~ In backslash block.

(** No resource identifier of the section holds a newline. *)
Definition one_line_ids (section_data : option section) : Prop :=
  Forall (fun k => ~ In nl k) (keys (entries section_data)).

(** A catalog with one resource in each of the two sections. *)
Definition two_section_catalog : dict section :=
  [(py "community", bucket_section); (py "pro", bucket_section)].

(** No resource identifier of the section holds a carriage return. *)
Definition return_free_ids (section_data : option section) : Prop :=
  Forall (fun k => ~ In cr k) (keys (entries section_data)).

(** The headings [### C:\dir] and [### a\\b], each with the pattern
    that matches it and a document that holds it. *)
Definition heading_dir : pattern := [lits (py "### C:\dir")].

Definition document_dir : pystr :=
  py "### C:\dir" ++ [nl] ++ py "old" ++ [nl] ++ py "### B" ++ [nl].

Definition heading_share : pattern := [lits (py "### a\\b")].

Definition document_share : pystr :=
  py "### a\\b" ++ [nl] ++ py "old" ++ [nl] ++ py "### B" ++ [nl].

(** [^### A(?=\nold)]: the heading of the example, when [old] stands
    behind it. *)
Definition heading_A_before_old : pattern :=
  [Seq Bol (Seq (lits (py "### A"))
                (Look (Seq (Chr (CLit nl)) (lits (py "old")))))].

(** A platform with the line separator [\n] and a UTF-8 locale. *)
Definition posix : platform := {| linesep := [nl]; locale := utf_8_encode |}.

(** A platform whose locale encodes ASCII only. *)
Definition ascii_platform : platform :=
  {| linesep := [nl];
     locale := fun text =>
       if forallb (fun c => c <? 128)%N text then utf_8_encode text
       else None |}.

(** The world of a run that gets its arguments, finds the catalog in
    its file and the text, encoded in UTF-8, in the document file. *)
Definition world_of (cfn_catalog : dict section) (text : pystr) : world :=
  {| exit_code := None; cfn_json := Catalog cfn_catalog;
     md_file := utf_8_encode text; md_read_only := false; trace := [] |}.

(** * Properties *)

(** ** Strings and the error monad *)

Lemma pystr_eqb_eq (a b : pystr) : pystr_eqb a b = true <-> a = b.
Proof.
  revert b; induction a as [|x a IH]; intros [|y b]; simpl;
    try (split; [discriminate | discriminate]); try tauto.
  rewrite andb_true_iff, N.eqb_eq, IH.
  split; [intros [-> ->]; reflexivity | intros [= -> ->]; auto].
Qed.

Lemma pystr_eqb_refl (a : pystr) : pystr_eqb a a = true.
Proof. apply pystr_eqb_eq; reflexivity. Qed.

Lemma pystr_eqb_neq (a b : pystr) : pystr_eqb a b = false <-> a <> b.
Proof.
  rewrite <- pystr_eqb_eq. destruct (pystr_eqb a b); split; congruence.
Qed.

Lemma length_times (c : char) (n : nat) : length (times c n) = n.
Proof. apply repeat_length. Qed.

Lemma length_ljust (v : pystr) (w : nat) :
  length (ljust v w) = Nat.max (length v) w.
Proof. unfold ljust. rewrite length_app, length_times. lia. Qed.

Lemma length_rjust (v : pystr) (w : nat) :
  length (rjust v w) = Nat.max (length v) w.
Proof. unfold rjust. rewrite length_app, length_times. lia. Qed.

Lemma length_center (v : pystr) (w : nat) :
  length (center v w) = Nat.max (length v) w.
Proof.
  unfold center. rewrite !length_app, !length_times.
  set (marg := w - length v).
  assert (H : marg / 2 + (if Nat.odd marg && Nat.odd w then 1 else 0) <= marg).
  { destruct marg as [|m].
    - simpl. lia.
    - assert (S m / 2 < S m) by (apply Nat.div_lt; lia).
      destruct (Nat.odd (S m) && Nat.odd w); lia. }
  subst marg. lia.
Qed.

Lemma length_format_cell (v : pystr) (w : nat) (a : pystr) :
  length (_format_cell v w a) = Nat.max (length v) w.
Proof.
  unfold _format_cell.
  destruct (pystr_eqb a (py "right")); [apply length_rjust|].
  destruct (pystr_eqb a (py "center")); [apply length_center|].
  apply length_ljust.
Qed.

Lemma length_join (sep : pystr) (parts : list pystr) :
  length (join sep parts)
  = list_sum (map (@length char) parts) + length sep * (length parts - 1).
Proof.
  induction parts as [|p [|q rest] IH].
  - simpl. lia.
  - simpl. lia.
  - change (join sep (p :: q :: rest)) with (p ++ sep ++ join sep (q :: rest)).
    rewrite !length_app, IH. simpl. lia.
Qed.

Lemma rstrip_after_pipe (s : pystr) :
  rstrip_char nl (s ++ [pipe; nl]) = s ++ [pipe].
Proof.
  unfold rstrip_char. rewrite rev_app_distr.
  change (rev [pipe; nl] ++ rev s) with (nl :: pipe :: rev s).
  change (lstrip_char nl (nl :: pipe :: rev s)) with (pipe :: rev s).
  change (rev (pipe :: rev s)) with (rev (rev s) ++ [pipe]).
  rewrite rev_involutive. reflexivity.
Qed.

Lemma bind_ok {E A B} (m : result E A) (k : A -> result E B) (b : B) :
  (x <- m ;; k x) = Ok b -> exists a, m = Ok a /\ k a = Ok b.
Proof. destruct m; simpl; [eauto | discriminate]. Qed.

(** ** Column widths *)

Lemma fold_max_list_max (f : row -> nat) (data : list row) (init : nat) :
  fold_left (fun m r => Nat.max m (f r)) data init
  = list_max (init :: map f data).
Proof.
  revert init; induction data as [|r data IH]; intros init; simpl.
  - lia.
  - rewrite IH. simpl. lia.
Qed.

Lemma calculate_column_widths_max (self : TableConfig) (data : list row) :
  _calculate_column_widths self data
  = map (fun col =>
           list_max (length (header col)
                       :: map (fun r => length (cell_text col r)) data))
        (columns self).
Proof.
  unfold _calculate_column_widths. apply map_ext. intros col.
  apply (fold_max_list_max (fun r => length (cell_text col r))).
Qed.

Lemma length_calculate_column_widths (self : TableConfig) (data : list row) :
  length (_calculate_column_widths self data) = length (columns self).
Proof. unfold _calculate_column_widths. apply length_map. Qed.

Lemma list_max_ge (l : list nat) (n : nat) : In n l -> n <= list_max l.
Proof.
  induction l as [|x l IH]; simpl; [tauto|].
  intros [->|H]; [lia | specialize (IH H); lia].
Qed.

(** ** Indexing by [enumerate] *)

Lemma skipn_cons_nth {A} (l : list A) (n : nat) (a : A) (t : list A) :
  skipn n l = a :: t -> nth_error l n = Some a /\ skipn (S n) l = t.
Proof.
  revert l; induction n as [|n IH]; intros [|x l]; simpl; try discriminate.
  - intros [= -> ->]. auto.
  - intros H. apply IH in H. exact H.
Qed.

Lemma mapM_enumerate_item {A B} (g : A -> nat -> B) (xs : list A)
  (W : list nat) (n : nat) :
  length (skipn n W) = length xs ->
  mapM (fun '(i, x) => w <- item W i ;; Ok (g x w)) (enumerate_from n xs)
  = Ok (map (fun '(x, w) => g x w) (combine xs (skipn n W))).
Proof.
  revert n; induction xs as [|x xs IH]; intros n Hlen; simpl.
  - reflexivity.
  - destruct (skipn n W) as [|w t] eqn:E; [discriminate|].
    apply skipn_cons_nth in E as [Hn Ht].
    cbn [enumerate_from mapM combine map]. unfold item at 1. rewrite Hn.
    cbn [bind]. rewrite IH by (rewrite Ht; simpl in Hlen; lia).
    rewrite Ht. reflexivity.
Qed.

Lemma mapM_enumerate_headers (cols xs : list ColumnConfig) (W : list nat)
  (n : nat) :
  skipn n cols = xs ->
  length (skipn n W) = length xs ->
  mapM (fun '(i, h) =>
          col <- item cols i ;;
          w <- item W i ;;
          Ok (_format_cell h w (alignment col)))
       (enumerate_from n (map header xs))
  = Ok (map (fun '(col, w) => _format_cell (header col) w (alignment col))
            (combine xs (skipn n W))).
Proof.
  revert n; induction xs as [|x xs IH]; intros n Hc Hlen; simpl.
  - reflexivity.
  - destruct (skipn n W) as [|w t] eqn:E; [discriminate|].
    apply skipn_cons_nth in E as [Hn Ht].
    apply skipn_cons_nth in Hc as [Hcn Hct].
    cbn [enumerate_from mapM combine map]. unfold item at 1 2.
    rewrite Hcn, Hn. cbn [bind].
    rewrite IH by (rewrite ?Ht; simpl in Hlen; auto).
    rewrite Ht. reflexivity.
Qed.

Section Renderer.

Variable self : TableConfig.
Variable widths : list nat.
Hypothesis widths_columns : length widths = length (columns self).

Lemma write_header_row_text (writer : pystr) :
  _write_header_row self writer widths
  = Ok (writer ++ line (header_cells self widths) ++ [nl]).
Proof.
  unfold _write_header_row, enumerate, get_headers.
  rewrite (@mapM_enumerate_headers (columns self) (columns self) widths 0)
    by (simpl; auto).
  simpl bind. unfold line, header_cells. simpl skipn.
  rewrite <- !app_assoc. reflexivity.
Qed.

Lemma write_separator_row_text (writer : pystr) :
  _write_separator_row self writer widths
  = Ok (writer ++ separator_line (separator_cells self widths) ++ [nl]).
Proof.
  unfold _write_separator_row, enumerate.
  rewrite (mapM_enumerate_item
             (fun col w => _get_alignment_separator (alignment col) w)
             (columns self) widths 0) by (simpl; auto).
  simpl bind. unfold separator_line, separator_cells. simpl skipn.
  rewrite <- !app_assoc. reflexivity.
Qed.

Lemma format_row_cells (r : row) :
  format_row self widths r = Ok (row_cells self widths r).
Proof.
  exact (mapM_enumerate_item
           (fun col w => _format_cell (cell_text col r) w (alignment col))
           (columns self) widths 0 widths_columns).
Qed.

Lemma write_rows_text (data : list row) (writer : pystr) :
  write_rows self writer data widths
  = Ok (writer
          ++ concat (map (fun r => line (row_cells self widths r) ++ [nl])
                         data)).
Proof.
  revert writer; induction data as [|r data IH]; intros writer;
    cbn [write_rows map concat].
  - rewrite app_nil_r. reflexivity.
  - rewrite format_row_cells. cbn [bind]. rewrite IH.
    unfold line. f_equal. repeat rewrite <- app_assoc. reflexivity.
Qed.

End Renderer.

(** ** The text of a table *)

Lemma line_ends_with_pipe (cells : list pystr) :
  exists x, line cells ++ [nl] = x ++ [pipe; nl].
Proof.
  exists (py "| " ++ join (py " | ") cells ++ [space]).
  unfold line. repeat rewrite <- app_assoc. reflexivity.
Qed.

Lemma separator_line_ends_with_pipe (cells : list pystr) :
  exists x, separator_line cells ++ [nl] = x ++ [pipe; nl].
Proof.
  exists (py "|" ++ join (py "|") cells).
  unfold separator_line. repeat rewrite <- app_assoc. reflexivity.
Qed.

Lemma rows_end_with_pipe (f : row -> pystr) (data : list row) :
  (forall r, exists x, f r = x ++ [pipe; nl]) ->
  forall pre, (exists x, pre = x ++ [pipe; nl]) ->
  exists x, pre ++ concat (map f data) = x ++ [pipe; nl].
Proof.
  intros Hf. induction data as [|r data IH]; intros pre [x Hx]; cbn [map concat].
  - exists x. rewrite app_nil_r. exact Hx.
  - rewrite app_assoc. apply IH.
    destruct (Hf r) as [y Hy]. exists (pre ++ y).
    rewrite Hy, app_assoc. reflexivity.
Qed.

Lemma table_text_ends_with_pipe (self : TableConfig) (widths : list nat)
  (data : list row) :
  exists x, table_text self widths data = x ++ [pipe; nl].
Proof.
  unfold table_text.
  set (h := line (header_cells self widths)).
  set (sp := separator_line (separator_cells self widths)).
  replace (h ++ [nl] ++ sp ++ [nl] ++
             concat (map (fun r => line (row_cells self widths r) ++ [nl]) data))
    with ((h ++ [nl] ++ sp ++ [nl]) ++
            concat (map (fun r => line (row_cells self widths r) ++ [nl]) data))
    by (repeat rewrite <- app_assoc; reflexivity).
  apply rows_end_with_pipe.
  - intros r. apply line_ends_with_pipe.
  - destruct (separator_line_ends_with_pipe (separator_cells self widths))
      as [x Hx].
    exists (h ++ [nl] ++ x). fold sp in Hx.
    repeat rewrite <- app_assoc. rewrite <- Hx. reflexivity.
Qed.

(** What [generate_table] returns for rows that are not empty. *)
Lemma generate_table_text (self : TableConfig) (r : row) (rest : list row) :
  generate_table self (Some (r :: rest))
  = (data <- sort_rows self (r :: rest) ;;
     Ok (table_text self (_calculate_column_widths self (r :: rest)) data)).
Proof.
  unfold generate_table.
  set (widths := _calculate_column_widths self (r :: rest)).
  assert (Hw : length widths = length (columns self))
    by apply length_calculate_column_widths.
  rewrite (write_header_row_text self widths Hw). cbn [bind].
  rewrite (write_separator_row_text self widths Hw). cbn [bind].
  unfold _write_data_rows.
  destruct (sort_rows self (r :: rest)) as [data|e]; cbn [bind]; [|reflexivity].
  rewrite (write_rows_text self widths Hw). cbn [bind].
  replace (([] ++ line (header_cells self widths) ++ [nl]) ++
             separator_line (separator_cells self widths) ++ [nl])
    with (line (header_cells self widths) ++ [nl]
            ++ separator_line (separator_cells self widths) ++ [nl])
    by (cbn [app]; repeat rewrite <- app_assoc; reflexivity).
  replace ((line (header_cells self widths) ++ [nl]
              ++ separator_line (separator_cells self widths) ++ [nl])
             ++ concat (map (fun r0 => line (row_cells self widths r0) ++ [nl])
                            data))
    with (table_text self widths data)
    by (unfold table_text; repeat rewrite <- app_assoc; reflexivity).
  destruct (table_text_ends_with_pipe self widths data) as [x Hx].
  rewrite Hx, rstrip_after_pipe, <- app_assoc. reflexivity.
Qed.

(** ** Sorting keeps the rows *)

Lemma insert_sorted_permutation {A} (keyf : A -> value) (x : A)
  (l l' : list A) :
  insert_sorted keyf x l = Ok l' -> Permutation (x :: l) l'.
Proof.
  revert l'; induction l as [|y l IH]; intros l'; cbn [insert_sorted].
  - intros [= <-]. apply Permutation_refl.
  - intros H. apply bind_ok in H as [b [_ H]].
    destruct b.
    + injection H as <-. apply Permutation_refl.
    + apply bind_ok in H as [t [Ht H]]. injection H as <-.
      apply perm_trans with (y :: x :: l); [apply perm_swap|].
      apply perm_skip. apply IH. exact Ht.
Qed.

Lemma sorted_from_permutation {A} (keyf : A -> value) (l acc l' : list A) :
  sorted_from keyf acc l = Ok l' -> Permutation (acc ++ l) l'.
Proof.
  revert acc l'; induction l as [|x l IH]; intros acc l'; cbn [sorted_from].
  - intros [= <-]. rewrite app_nil_r. apply Permutation_refl.
  - intros H. apply bind_ok in H as [acc' [Hi H]].
    apply IH in H. apply insert_sorted_permutation in Hi.
    apply perm_trans with (acc' ++ l); [|exact H].
    apply perm_trans with ((x :: acc) ++ l).
    + apply Permutation_sym. apply Permutation_middle.
    + apply Permutation_app_tail. exact Hi.
Qed.

Lemma sort_rows_permutation (self : TableConfig) (data data' : list row) :
  sort_rows self data = Ok data' -> Permutation data data'.
Proof.
  unfold sort_rows, sorted.
  destruct (sort_by self) as [[|c k]|].
  - intros [= <-]. apply Permutation_refl.
  - intros H. apply sorted_from_permutation in H. exact H.
  - intros [= <-]. apply Permutation_refl.
Qed.

Lemma sort_rows_unsorted (self : TableConfig) (data : list row) :
  sort_by self = None -> sort_rows self data = Ok data.
Proof. unfold sort_rows. intros ->. reflexivity. Qed.

(** ** The cells of a column have the width of the column *)

Lemma combine_map_r {A B} (f : A -> B) (l : list A) :
  combine l (map f l) = map (fun x => (x, f x)) l.
Proof. induction l as [|x l IH]; simpl; [|rewrite IH]; reflexivity. Qed.

Lemma length_header_cells (self : TableConfig) (data : list row) :
  map (@length char) (header_cells self (_calculate_column_widths self data))
  = _calculate_column_widths self data.
Proof.
  unfold header_cells. rewrite calculate_column_widths_max.
  rewrite combine_map_r, !map_map. apply map_ext. intros col.
  rewrite length_format_cell.
  assert (length (header col)
          <= list_max (length (header col)
                         :: map (fun r => length (cell_text col r)) data))
    by (apply list_max_ge; left; reflexivity).
  lia.
Qed.

Lemma length_row_cells (self : TableConfig) (data : list row) (r : row) :
  In r data ->
  map (@length char) (row_cells self (_calculate_column_widths self data) r)
  = _calculate_column_widths self data.
Proof.
  intros Hr. unfold row_cells. rewrite calculate_column_widths_max.
  rewrite combine_map_r, !map_map. apply map_ext. intros col.
  rewrite length_format_cell.
  assert (length (cell_text col r)
          <= list_max (length (header col)
                         :: map (fun r => length (cell_text col r)) data)).
  { apply list_max_ge. right.
    apply (in_map (fun r => length (cell_text col r))). exact Hr. }
  lia.
Qed.

Lemma length_line (cells : list pystr) :
  cells <> [] ->
  length (line cells)
  = list_sum (map (@length char) cells) + 3 * length cells + 1.
Proof.
  intros Hne. unfold line. rewrite !length_app, length_join.
  change (length (py "| ")) with 2. change (length (py " | ")) with 3.
  change (length (py " |")) with 2.
  destruct cells as [|c cells]; [congruence|]. simpl length. lia.
Qed.

(** ** The table renderer: widths, lines and separators *)

(** C5.  The computed width of a column is the maximum of the length
    of its header and of the lengths of the formatted values of all
    rows, and every padded cell of the rendered table, in the header
    row and in every data row, is exactly as long as the width of its
    column. *)
Theorem column_width_correct (self : TableConfig) (r : row) (rest : list row) :
  let data := r :: rest in
  let widths := _calculate_column_widths self data in
  widths
  = map (fun col =>
           list_max
             (length (header col)
                :: map (fun r =>
                          length (format_value col
                                    (dict_get r (key col) (VStr []))))
                       data))
        (columns self)
  /\ map (@length char) (header_cells self widths) = widths
  /\ match sort_rows self data with
     | Ok rows =>
         generate_table self (Some data) = Ok (table_text self widths rows)
         /\ Forall (fun r =>
                      format_row self widths r = Ok (row_cells self widths r)
                      /\ map (@length char) (row_cells self widths r) = widths)
                   rows
     | Raise e => generate_table self (Some data) = Raise e
     end.
Proof.
  intros data widths. split; [|split].
  - apply calculate_column_widths_max.
  - apply length_header_cells.
  - pose proof (generate_table_text self r rest) as Hg.
    fold data in Hg. fold widths in Hg. rewrite Hg.
    destruct (sort_rows self data) as [rows|e] eqn:Hs; cbn [bind]; [|reflexivity].
    split; [reflexivity|].
    apply Forall_forall. intros x Hx. split.
    + apply format_row_cells. apply length_calculate_column_widths.
    + apply length_row_cells.
      apply sort_rows_permutation in Hs.
      apply Permutation_in with rows; [apply Permutation_sym; exact Hs | exact Hx].
Qed.

(** C10, as the claim states it, fails for a table without columns:
    its lines are the four characters [|  |], not one character. *)
Lemma no_columns_line_length :
  let self := {| columns := []; sort_by := None |} in
  generate_table self (Some [[]])
  = Ok (py "|  |" ++ [nl] ++ py "||" ++ [nl] ++ py "|  |" ++ [nl])
  /\ ~ lines_have_length self [[]] (line_length self [[]]).
Proof.
  split; [reflexivity|].
  intros [H _]. vm_compute in H. discriminate.
Qed.

(** C10, amended.  For a table with at least one column and rows that
    are not empty, the header line and every data line of the output
    of [generate_table] have the same length: the sum of the column
    widths plus three times the number of columns plus one. *)
Theorem uniform_line_length (self : TableConfig) (r : row) (rest : list row) :
  columns self <> [] ->
  let data := r :: rest in
  let widths := _calculate_column_widths self data in
  lines_have_length self data (line_length self data)
  /\ match sort_rows self data with
     | Ok rows =>
         generate_table self (Some data) = Ok (table_text self widths rows)
         /\ Forall (fun r => length (line (row_cells self widths r))
                             = line_length self data) rows
     | Raise e => generate_table self (Some data) = Raise e
     end.
Proof.
  intros Hcols data widths.
  assert (Hlen : length widths = length (columns self))
    by apply length_calculate_column_widths.
  assert (Hrow : forall x, In x data ->
            length (line (row_cells self widths x)) = line_length self data).
  { intros x Hx. rewrite length_line.
    - unfold widths. rewrite (length_row_cells self data x Hx).
      unfold row_cells. rewrite length_map, length_combine.
      fold widths. rewrite Hlen, Nat.min_id. reflexivity.
    - unfold row_cells. intros E. apply (f_equal (@length pystr)) in E.
      rewrite length_map, length_combine, Hlen, Nat.min_id in E.
      destruct (columns self); [congruence | discriminate]. }
  split.
  - split.
    + rewrite length_line.
      * rewrite length_header_cells.
        unfold header_cells. rewrite length_map, length_combine.
        fold data. fold widths. rewrite Hlen, Nat.min_id. reflexivity.
      * unfold header_cells. intros E. apply (f_equal (@length pystr)) in E.
        rewrite length_map, length_combine in E. fold data in E.
        fold widths in E. rewrite Hlen, Nat.min_id in E.
        destruct (columns self); [congruence | discriminate].
    + apply Forall_forall. exact Hrow.
  - pose proof (generate_table_text self r rest) as Hg.
    fold data in Hg. fold widths in Hg. rewrite Hg.
    destruct (sort_rows self data) as [rows|e] eqn:Hs; cbn [bind]; [|reflexivity].
    split; [reflexivity|].
    apply Forall_forall. intros x Hx. apply Hrow.
    apply sort_rows_permutation in Hs.
    apply Permutation_in with rows; [apply Permutation_sym; exact Hs | exact Hx].
Qed.

Lemma uniform_line_length_witness :
  columns table_config <> []
  /\ lines_have_length table_config [bucket_row]
       (line_length table_config [bucket_row]).
Proof.
  assert (H : columns table_config <> []) by (vm_compute; discriminate).
  split; [exact H|].
  exact (proj1 (uniform_line_length table_config bucket_row [] H)).
Defined.

(** C7, as the claim states it, fails for a right-aligned column: the
    [Create] column of the script's table has width 6 and its
    separator cell has seven dashes. *)
Lemma right_separator_has_one_more_dash :
  let widths := _calculate_column_widths table_config [bucket_row] in
  widths = [15; 6; 6; 6]
  /\ nth 1 (separator_cells table_config widths) [] = times dash 7 ++ [colon]
  /\ separator_cells table_config widths
     <> map (fun '(col, w) => separator_encoding (alignment col) w)
            (combine (columns table_config) widths).
Proof.
  split; [reflexivity|]. split; [reflexivity|].
  vm_compute. discriminate.
Qed.

(** C7, amended.  The separator row of a rendered table has one cell
    per column, between [|] without spaces.  The cell of a
    right-aligned column is a run of width + 1 dashes and a trailing
    colon, the cell of a centred column is a run of width dashes
    between two colons, and the cell of any other column is a run of
    width dashes without a colon. *)
Theorem separator_row_encoding (self : TableConfig) (data : list row)
  (writer : pystr) :
  let widths := _calculate_column_widths self data in
  _write_separator_row self writer widths
  = Ok (writer ++ separator_line (separator_cells self widths) ++ [nl])
  /\ separator_cells self widths
     = map (fun '(col, w) =>
              separator_encoding (alignment col)
                (if pystr_eqb (alignment col) (py "right") then w + 1 else w))
           (combine (columns self) widths).
Proof.
  intros widths. split.
  - apply write_separator_row_text. apply length_calculate_column_widths.
  - unfold separator_cells. apply map_ext. intros [col w].
    unfold _get_alignment_separator, separator_encoding.
    destruct (pystr_eqb (alignment col) (py "right")); reflexivity.
Qed.

(** ** Cell values *)

Lemma dict_get_find {V} (d : dict V) (k : pystr) (default : V) :
  dict_get d k default
  = match dict_find d k with Some v => v | None => default end.
Proof.
  induction d as [|[k' v] d IH]; simpl; [reflexivity|].
  destruct (pystr_eqb k' k); [reflexivity | exact IH].
Qed.

(** C8, as the claim states it, fails for a row that lacks the key of
    a column without formatter: the cell text is empty, not the
    placeholder. *)
Lemma missing_key_is_empty_text :
  formatter plain_column = None
  /\ dict_find ([] : row) (key plain_column) = None
  /\ format_value plain_column (dict_get [] (key plain_column) (VStr [])) = []
  /\ row_cells {| columns := [plain_column]; sort_by := None |} [8] []
     = [times space 8].
Proof. repeat split. Qed.

(** C8, amended.  The cell text of a row in a column is what the
    formatter of the column returns, if it has one; otherwise it is
    [str(value)] for a value other than [None], and the placeholder
    [-] for the value [None].  A row that lacks the key of the column
    is read as holding the empty string there, so that its cell text
    without a formatter is empty. *)
Theorem cell_text_cases (col : ColumnConfig) (r : row) :
  format_value col (dict_get r (key col) (VStr []))
  = match formatter col, dict_find r (key col) with
    | Some f, Some v => f v
    | Some f, None => f (VStr [])
    | None, Some VNone => py "-"
    | None, Some v => str v
    | None, None => []
    end.
Proof.
  rewrite dict_get_find. unfold format_value.
  destruct (formatter col) as [f|], (dict_find r (key col)) as [[|b|s]|];
    reflexivity.
Qed.

(** ** The row transformer *)

Lemma transform_map (sd : option section) :
  transform sd = map make_row (entries sd).
Proof. destruct sd as [[|e d]|]; reflexivity. Qed.

Lemma set_in_In (x : pystr) (l : list pystr) :
  set_in x (set l) = true <-> In x (set l).
Proof.
  unfold set_in. rewrite existsb_exists. split.
  - intros [y [Hy E]]. apply pystr_eqb_eq in E. subst y. exact Hy.
  - intros H. exists x. split; [exact H | apply pystr_eqb_refl].
Qed.

Lemma make_row_row_of (entry : pystr * metadata) : row_of entry (make_row entry).
Proof.
  destruct entry as [k md]. unfold row_of, make_row, methods_of.
  split; [reflexivity|].
  repeat split; eexists; (split; [reflexivity | apply set_in_In]).
Qed.

Lemma resource_of_make_row (entry : pystr * metadata) :
  resource_of (make_row entry) = Some (VStr (fst entry)).
Proof. destruct entry as [k md]. reflexivity. Qed.

Lemma resources_of_transform (sd : option section) :
  map resource_of (transform sd)
  = map (fun k => Some (VStr k)) (keys (entries sd)).
Proof.
  rewrite transform_map. unfold keys. rewrite !map_map.
  apply map_ext. intros e. apply resource_of_make_row.
Qed.

Lemma one_entry_per_key (d : section) (k : pystr) :
  NoDup (keys d) -> In k (keys d) ->
  length (filter (fun e => pystr_eqb (fst e) k) d) = 1.
Proof.
  unfold keys. induction d as [|[k' md] d IH]; simpl; [tauto|].
  intros Hnd Hin. inversion Hnd as [|? ? Hnotin Hnd']; subst.
  destruct (pystr_eqb k' k) eqn:E.
  - apply pystr_eqb_eq in E. subst k'. simpl. f_equal.
    apply length_zero_iff_nil.
    destruct (filter (fun e => pystr_eqb (fst e) k) d) as [|x l] eqn:F;
      [reflexivity|].
    exfalso. apply Hnotin.
    assert (Hx : In x (filter (fun e => pystr_eqb (fst e) k) d))
      by (rewrite F; left; reflexivity).
    apply filter_In in Hx as [Hx Hk]. apply pystr_eqb_eq in Hk. subst k.
    apply in_map. exact Hx.
  - apply IH; [exact Hnd'|].
    destruct Hin as [->|Hin]; [|exact Hin].
    rewrite pystr_eqb_refl in E. discriminate.
Qed.

(** C1.  [transform] returns one row per resource identifier of the
    section: the rows with a given identifier are exactly one, the
    identifiers of the rows are the keys of the section, an absent or
    empty section gives no row, and the [create], [delete] and
    [update] fields of a row are true exactly when [Create], [Delete]
    and [Update] belong to the methods of its resource. *)
Theorem transform_one_row_per_resource (sd : option section) :
  well_formed (entries sd) ->
  (entries sd = [] -> transform sd = [])
  /\ (forall k, In k (keys (entries sd)) ->
        length (filter (has_resource k) (transform sd)) = 1)
  /\ (forall k, In k (keys (entries sd))
                <-> In (Some (VStr k)) (map resource_of (transform sd)))
  /\ Forall2 row_of (entries sd) (transform sd).
Proof.
  intros Hwf. split; [|split; [|split]].
  - rewrite transform_map. intros ->. reflexivity.
  - intros k Hk. rewrite transform_map.
    rewrite <- (one_entry_per_key (entries sd) k Hwf Hk).
    generalize (entries sd). intros d.
    induction d as [|e d IH]; simpl; [reflexivity|].
    unfold has_resource at 1. rewrite resource_of_make_row.
    destruct (pystr_eqb (fst e) k); simpl; rewrite IH; reflexivity.
  - intros k. rewrite resources_of_transform, in_map_iff. split.
    + intros H. exists k. auto.
    + intros [k' [[= ->] H]]. exact H.
  - rewrite transform_map. generalize (entries sd). intros d.
    induction d as [|e d IH]; simpl; constructor;
      [apply make_row_row_of | exact IH].
Qed.

Lemma transform_one_row_per_resource_witness :
  well_formed (entries (Some bucket_section))
  /\ transform (Some bucket_section) = [bucket_row]
  /\ length (filter (has_resource (py "AWS::S3::Bucket"))
                    (transform (Some bucket_section))) = 1.
Proof.
  assert (Hwf : well_formed (entries (Some bucket_section))).
  { repeat constructor. simpl. tauto. }
  split; [exact Hwf|]. split; [reflexivity|].
  apply (proj1 (proj2 (transform_one_row_per_resource (Some bucket_section) Hwf))).
  left. reflexivity.
Defined.

(** C9.  The i-th row of [transform] is the row of the i-th key of
    the section, in the order of the mapping.  The table of the
    script has no sort key, and [generate_table] writes the data lines
    of the rows in that order, each beginning with its resource
    identifier. *)
Theorem rows_keep_key_order (sd : option section) :
  let rows := transform sd in
  let widths := _calculate_column_widths table_config rows in
  map resource_of rows = map (fun k => Some (VStr k)) (keys (entries sd))
  /\ sort_by table_config = None
  /\ generate_table table_config (Some rows)
     = Ok (match rows with
           | [] => []
           | _ :: _ => table_text table_config widths rows
           end)
  /\ map (fun r => hd [] (row_cells table_config widths r)) rows
     = map (fun k => ljust k (hd 0 widths)) (keys (entries sd)).
Proof.
  intros rows widths. split; [|split; [|split]].
  - apply resources_of_transform.
  - reflexivity.
  - destruct rows as [|r rest] eqn:E; [reflexivity|].
    rewrite generate_table_text, sort_rows_unsorted by reflexivity.
    reflexivity.
  - unfold rows. rewrite transform_map. unfold keys. rewrite !map_map.
    apply map_ext. intros [k md].
    destruct widths as [|w0 ws] eqn:E.
    + apply (f_equal (@length nat)) in E. unfold widths in E.
      rewrite length_calculate_column_widths in E. discriminate.
    + reflexivity.
Qed.

(** ** Searching *)

Lemma first_some_found {A B} (f : A -> option B) (l : list A) (a : A) (b : B) :
  first_some f l = Some (a, b) ->
  f a = Some b
  /\ exists l1 l2, l = l1 ++ a :: l2 /\ Forall (fun x => f x = None) l1.
Proof.
  induction l as [|x l IH]; simpl; [discriminate|].
  destruct (f x) as [y|] eqn:E.
  - intros [= -> ->]. split; [exact E|]. exists [], l. auto.
  - intros H. destruct (IH H) as [Hf [l1 [l2 [-> Hall]]]].
    split; [exact Hf|]. exists (x :: l1), l2. auto.
Qed.

Lemma first_some_none {A B} (f : A -> option B) (l : list A) :
  first_some f l = None <-> Forall (fun x => f x = None) l.
Proof.
  induction l as [|x l IH]; simpl.
  - split; auto.
  - destruct (f x) as [y|] eqn:E.
    + split; [discriminate|]. intros H. inversion H; congruence.
    + rewrite IH. split; [auto|]. intros H. inversion H; auto.
Qed.

Lemma seq_split (l1 l2 : list nat) (i a n : nat) :
  seq a n = l1 ++ i :: l2 -> a <= i < a + n /\ l1 = seq a (i - a).
Proof.
  revert a n; induction l1 as [|x l1 IH]; intros a n; destruct n as [|n];
    simpl; try discriminate.
  - intros [= -> _]. rewrite Nat.sub_diag. simpl. split; [lia | reflexivity].
  - intros [= <- H]. apply IH in H as [Hi ->].
    split; [lia|].
    replace (i - a) with (S (i - S a)) by lia. reflexivity.
Qed.

Lemma first_boundary_found (e : regex) (s : pystr) (fuel j k : nat) :
  first_boundary e s j fuel = Some k ->
  j <= k <= j + fuel
  /\ ends e s k <> []
  /\ forall p, j <= p < k -> ends e s p = [].
Proof.
  revert j; induction fuel as [|fuel IH]; intros j; simpl;
    destruct (ends e s j) as [|x l] eqn:E; try discriminate.
  - intros [= <-]. rewrite E. split; [lia|]. split; [discriminate|].
    intros p Hp; lia.
  - intros H. apply IH in H as [Hk [Hne Hmin]].
    split; [lia|]. split; [exact Hne|].
    intros p Hp. destruct (Nat.eq_dec p j) as [->|Hn]; [exact E|].
    apply Hmin. lia.
  - intros [= <-]. rewrite E. split; [lia|]. split; [discriminate|].
    intros p Hp; lia.
Qed.

Lemma first_boundary_none (e : regex) (s : pystr) (fuel j : nat) :
  first_boundary e s j fuel = None ->
  forall p, j <= p <= j + fuel -> ends e s p = [].
Proof.
  revert j; induction fuel as [|fuel IH]; intros j; simpl;
    destruct (ends e s j) as [|x l] eqn:E; try discriminate.
  - intros _ p Hp. replace p with j by lia. exact E.
  - intros H p Hp. destruct (Nat.eq_dec p j) as [->|Hn]; [exact E|].
    apply (IH (S j) H). lia.
Qed.

Lemma first_boundary_some (e : regex) (s : pystr) (fuel j p : nat) :
  j <= p <= j + fuel -> ends e s p <> [] ->
  exists k, first_boundary e s j fuel = Some k.
Proof.
  intros Hp Hne.
  destruct (first_boundary e s j fuel) as [k|] eqn:E; [eauto|].
  exfalso. apply Hne. eapply first_boundary_none; eauto.
Qed.

(** *** Matches stay inside the text *)

Lemma run_length_le (k : cclass) (t : pystr) : run_length k t <= length t.
Proof.
  induction t as [|c t IH]; simpl; [lia|].
  destruct (in_class k c); lia.
Qed.

Lemma in_flat_map_ends (a b : regex) (s : pystr) (i j : nat) :
  In j (ends (Seq a b) s i) <->
  exists m, In m (ends a s i) /\ In j (ends b s m).
Proof. simpl. apply in_flat_map. Qed.

Lemma in_star_ends (g : bool) (k : cclass) (s : pystr) (i j : nat) :
  In j (ends (Star g k) s i) <->
  i <= j <= i + run_length k (skipn i s).
Proof.
  assert (H : In j (map (fun d => i + d) (seq 0 (S (run_length k (skipn i s)))))
              <-> i <= j <= i + run_length k (skipn i s)).
  { rewrite in_map_iff. split.
    - intros [d [<- Hd]]. apply in_seq in Hd. lia.
    - intros Hj. exists (j - i). split; [lia|]. apply in_seq. lia. }
  destruct g; cbn [ends]; [|exact H].
  rewrite <- H, !in_map_iff.
  split; intros [d [Hd Hin]]; exists d; (split; [exact Hd|]).
  - rewrite in_rev. exact Hin.
  - rewrite <- in_rev. exact Hin.
Qed.

Lemma ends_bounds (r : regex) (s : pystr) (i j : nat) :
  i <= length s -> In j (ends r s i) -> i <= j <= length s.
Proof.
  revert i j; induction r as [| k | | | | g k | a IHa b IHb | a IHa b IHb | a IHa];
    intros i j Hi Hj.
  - simpl in Hj. destruct Hj as [<-|[]]. lia.
  - simpl in Hj. destruct (nth_error s i) as [c|] eqn:E; [|destruct Hj].
    assert (i < length s) by (apply nth_error_Some; congruence).
    destruct (in_class k c); [|destruct Hj].
    destruct Hj as [<-|[]]. lia.
  - simpl in Hj. destruct (at_bol s i); [|destruct Hj].
    destruct Hj as [<-|[]]. lia.
  - simpl in Hj. destruct (at_eol s i); [|destruct Hj].
    destruct Hj as [<-|[]]. lia.
  - simpl in Hj. destruct (Nat.eqb i (length s)); [|destruct Hj].
    destruct Hj as [<-|[]]. lia.
  - apply in_star_ends in Hj.
    pose proof (run_length_le k (skipn i s)) as Hr.
    rewrite length_skipn in Hr. lia.
  - apply in_flat_map_ends in Hj as [m [Hm Hj]].
    apply IHa in Hm; [|exact Hi]. apply IHb in Hj; lia.
  - simpl in Hj. apply in_app_or in Hj as [Hj|Hj]; [apply IHa | apply IHb]; auto.
  - simpl in Hj. destruct (ends a s i); [destruct Hj|].
    destruct Hj as [<-|[]]. lia.
Qed.

(** *** What [search] finds *)

Lemma match_at_found (starting_rx ending_rx : pattern) (s : pystr) (i : nat)
  (m : Match) :
  i <= length s ->
  match_at starting_rx ending_rx s i = Some m ->
  m_start m = i
  /\ m_start m <= g1_end m <= m_end m /\ m_end m <= length s
  /\ In (g1_end m) (ends (group1 starting_rx) s (m_start m))
  /\ ends (alts ending_rx) s (m_end m) <> []
  /\ forall p, g1_end m <= p < m_end m -> ends (alts ending_rx) s p = [].
Proof.
  intros Hi. unfold match_at.
  destruct (first_some _ _) as [[j k]|] eqn:E; [|discriminate].
  intros [= <-]. simpl.
  apply first_some_found in E as [Hb [l1 [l2 [Hl _]]]].
  assert (Hj : In j (ends (group1 starting_rx) s i))
    by (rewrite Hl; apply in_elt).
  pose proof (@ends_bounds _ _ _ _ Hi Hj) as Hjb.
  apply first_boundary_found in Hb as [Hk [Hne Hmin]].
  repeat split; try lia; auto.
Qed.

Lemma search_found (starting_rx ending_rx : pattern) (s : pystr) (m : Match) :
  search starting_rx ending_rx s = Some m ->
  m_start m <= g1_end m <= m_end m /\ m_end m <= length s
  /\ In (g1_end m) (ends (group1 starting_rx) s (m_start m))
  /\ ends (alts ending_rx) s (m_end m) <> []
  /\ (forall p, g1_end m <= p < m_end m -> ends (alts ending_rx) s p = [])
  /\ (forall i, i < m_start m -> match_at starting_rx ending_rx s i = None)
  /\ match_at starting_rx ending_rx s (m_start m) = Some m.
Proof.
  unfold search.
  destruct (first_some _ _) as [[i m']|] eqn:E; [|discriminate].
  intros [= ->].
  apply first_some_found in E as [Hm [l1 [l2 [Hl Hnone]]]].
  apply seq_split in Hl as [Hi ->].
  assert (Hi' : i <= length s) by lia.
  destruct (@match_at_found _ _ _ _ _ Hi' Hm) as [Hs [H1 [H2 [H3 [H4 H5]]]]].
  repeat split; try lia; auto.
  - intros p Hp. rewrite Forall_forall in Hnone. apply Hnone.
    apply in_seq. lia.
  - rewrite Hs. exact Hm.
Qed.

Lemma search_none (starting_rx ending_rx : pattern) (s : pystr) :
  search starting_rx ending_rx s = None <->
  forall i, i <= length s -> match_at starting_rx ending_rx s i = None.
Proof.
  unfold search. split.
  - destruct (first_some _ _) as [[i m]|] eqn:E; [discriminate|].
    intros _ i Hi. apply first_some_none in E.
    rewrite Forall_forall in E. apply E. apply in_seq. lia.
  - intros H.
    destruct (first_some _ _) as [[i m]|] eqn:E; [|reflexivity].
    apply first_some_found in E as [Hm [l1 [l2 [Hl _]]]].
    apply seq_split in Hl as [Hi _].
    rewrite H in Hm by lia. discriminate.
Qed.

Unset Implicit Arguments.

(** ** Templates without a backslash are literal *)

Lemma tokenize_plain (source : pystr) :
  ~ In backslash source -> tokenize source = map Plain source.
Proof.
  induction source as [|c rest IH]; intros Hno; [reflexivity|].
  cbn [tokenize map].
  assert (Hc : N.eqb c backslash = false).
  { apply N.eqb_neq. intros ->. apply Hno. left. reflexivity. }
  rewrite Hc, IH; [reflexivity|].
  intros H. apply Hno. right. exact H.
Qed.

Lemma read_ahead_plain (source : pystr) :
  read_ahead (map Plain source) = Ok (map Plain source).
Proof. destruct source; reflexivity. Qed.

Lemma parse_template_from_literal (fuel groups : nat) (source : pystr) :
  length source <= fuel ->
  parse_template_from fuel groups (map Plain source) = Ok (map TLit source).
Proof.
  revert source; induction fuel as [|fuel IH]; intros [|c rest] Hlen;
    simpl in Hlen; try lia; try reflexivity.
  cbn [parse_template_from map]. rewrite read_ahead_plain. cbn [bind].
  unfold lappend. rewrite IH by lia. reflexivity.
Qed.

Lemma parse_template_literal (source : pystr) (groups : nat) :
  ~ In backslash source -> parse_template source groups = Ok (map TLit source).
Proof.
  intros H. unfold parse_template. rewrite (tokenize_plain source H).
  apply parse_template_from_literal. lia.
Qed.

Lemma expand_literal (text : pystr) (m : Match) (s : pystr) :
  expand (map TLit text) m s = text.
Proof.
  unfold expand. induction text as [|c text IH]; simpl; [|rewrite IH];
    reflexivity.
Qed.

(** ** Slices *)

Lemma slice_skipn (s : pystr) (i j : nat) :
  i <= j -> skipn i s = slice s i j ++ skipn j s.
Proof.
  intros Hij. unfold slice.
  rewrite <- (firstn_skipn (j - i) (skipn i s)) at 1.
  rewrite skipn_skipn. replace (j - i + i) with j by lia. reflexivity.
Qed.

Lemma slice_app (s : pystr) (i j k : nat) :
  i <= j <= k -> slice s i k = slice s i j ++ slice s j k.
Proof.
  intros H. apply (app_inv_tail (skipn k s)).
  rewrite <- app_assoc, <- !slice_skipn by lia. reflexivity.
Qed.

Lemma slice_frame (s : pystr) (i j k : nat) :
  i <= j <= k ->
  s = firstn i s ++ slice s i j ++ slice s j k ++ skipn k s.
Proof.
  intros H.
  rewrite <- (slice_skipn s j k) by lia.
  rewrite <- (slice_skipn s i j) by lia.
  symmetry. apply firstn_skipn.
Qed.

Lemma slice_empty (s : pystr) (i : nat) : slice s i i = [].
Proof. unfold slice. rewrite Nat.sub_diag. reflexivity. Qed.

Lemma slice_one (s : pystr) (i : nat) (c : char) :
  nth_error s i = Some c -> slice s i (S i) = [c].
Proof.
  unfold slice. replace (S i - i) with 1 by lia.
  revert s; induction i as [|i IH]; intros [|x s]; simpl; try discriminate.
  - intros [= ->]. reflexivity.
  - apply IH.
Qed.

(** ** The section replacer *)

Lemma replace_not_found (content : pystr) (starting_rx ending_rx : pattern)
  (block : pystr) :
  search starting_rx ending_rx content = None ->
  replace_content_between content starting_rx ending_rx block
  = Raise (ValueError starting_rx).
Proof. unfold replace_content_between. intros ->. reflexivity. Qed.

Lemma lappend_raises (c : char) (k : result exn (list titem)) (e : exn) :
  (forall e', k = Raise e' -> template_exn e') ->
  lappend c k = Raise e -> template_exn e.
Proof.
  intros Hk. unfold lappend. destruct k; cbn [bind]; [discriminate|].
  intros [= <-]. apply Hk. reflexivity.
Qed.

Lemma addgroup_raises (groups : nat) (n : N) (k : result exn (list titem))
  (e : exn) :
  (forall e', k = Raise e' -> template_exn e') ->
  addgroup groups n k = Raise e -> template_exn e.
Proof.
  intros Hk. unfold addgroup.
  destruct (N.to_nat n <=? groups); [|intros [= <-]; left; reflexivity].
  destruct k; cbn [bind]; [discriminate|].
  intros [= <-]. apply Hk. reflexivity.
Qed.

Lemma read_ahead_ok (rest r : list token) : read_ahead rest = Ok r -> r = rest.
Proof. destruct rest as [|[]]; cbn; congruence. Qed.

Lemma read_ahead_raises (rest : list token) (e : exn) :
  read_ahead rest = Raise e -> e = TemplateError.
Proof. destruct rest as [|[]]; cbn; congruence. Qed.

Lemma getuntil_raises (terminator : char) (ts : list token) (e : exn) :
  getuntil terminator ts = Raise e -> e = TemplateError.
Proof.
  induction ts as [|c rest IH]; cbn [getuntil]; [congruence|].
  destruct (read_ahead rest) eqn:R; cbn [bind];
    [|intros [= <-]; apply (read_ahead_raises _ _ R)].
  destruct c as [x|x|]; [| |congruence].
  - destruct (N.eqb x terminator); [discriminate|].
    destruct (getuntil terminator rest); cbn [bind]; [discriminate|].
    intros [= <-]. apply IH. reflexivity.
  - destruct (getuntil terminator rest); cbn [bind]; [discriminate|].
    intros [= <-]. apply IH. reflexivity.
Qed.

Lemma getuntil_shorter (terminator : char) (ts : list token)
  (r : pystr * list token) :
  getuntil terminator ts = Ok r -> length (snd r) < length ts.
Proof.
  revert r; induction ts as [|c rest IH]; intros r; cbn [getuntil];
    [discriminate|].
  destruct (read_ahead rest) eqn:R; cbn [bind]; [|discriminate].
  destruct c as [x|x|]; [| |discriminate].
  - destruct (N.eqb x terminator).
    + intros [= <-]. cbn [snd length]. lia.
    + destruct (getuntil terminator rest) as [r'|] eqn:G; cbn [bind];
        [|discriminate].
      intros [= <-]. cbn [snd length]. specialize (IH r' eq_refl). lia.
  - destruct (getuntil terminator rest) as [r'|] eqn:G; cbn [bind];
      [|discriminate].
    intros [= <-]. cbn [snd length]. specialize (IH r' eq_refl). lia.
Qed.

Lemma named_group_raises (groups : nat) (name : pystr)
  (k : result exn (list titem)) (e : exn) :
  (forall e', k = Raise e' -> template_exn e') ->
  named_group groups name k = Raise e -> template_exn e.
Proof.
  intros Hk. unfold named_group.
  destruct name as [|c name]; [intros [= <-]; left; reflexivity|].
  destruct (isidentifier (c :: name)); [intros [= <-]; right; reflexivity|].
  destruct (int (c :: name)) as [index|]; [|intros [= <-]; left; reflexivity].
  destruct (index <? 0)%Z; [intros [= <-]; left; reflexivity|].
  apply addgroup_raises. exact Hk.
Qed.

Lemma parse_template_raises (fuel groups : nat) (ts : list token) (e : exn) :
  parse_template_from fuel groups ts = Raise e -> template_exn e.
Proof.
  revert ts e; induction fuel as [|fuel IH]; intros ts e; [discriminate|].
  cbn [parse_template_from].
  repeat match goal with
         | |- Raise TemplateError = Raise _ -> _ =>
             intros [= <-]; left; reflexivity
         | |- Ok _ = Raise _ -> _ => discriminate
         | |- lappend _ _ = Raise _ -> _ => apply lappend_raises; intros ?
         | |- addgroup _ _ _ = Raise _ -> _ => apply addgroup_raises; intros ?
         | |- named_group _ _ _ = Raise _ -> _ =>
             apply named_group_raises; intros ?
         | |- parse_template_from fuel groups _ = Raise _ -> _ => apply IH
         | |- bind (read_ahead ?r) _ = Raise _ -> _ =>
             let R := fresh "R" in
             destruct (read_ahead r) eqn:R; cbn [bind];
               [|intros [= <-]; left; apply (read_ahead_raises _ _ R)]
         | |- bind (getuntil ?c ?r) _ = Raise _ -> _ =>
             let G := fresh "G" in
             destruct (getuntil c r) eqn:G; cbn [bind];
               [|intros [= <-]; left; apply (getuntil_raises _ _ _ G)]
         | |- context [match ?x with _ => _ end] => destruct x
         end.
Qed.

(** The loop of the parser takes at least one token in each round, so
    the length of the template is fuel enough: more fuel gives the
    same result. *)
Lemma parse_template_fuel (groups : nat) (f1 f2 : nat) (ts : list token) :
  length ts <= f1 -> length ts <= f2 ->
  parse_template_from f1 groups ts = parse_template_from f2 groups ts.
Proof.
  revert f2 ts; induction f1 as [|f1 IH]; intros f2 ts H1 H2.
  { destruct ts; [|simpl in H1; lia]. destruct f2; reflexivity. }
  destruct f2 as [|f2].
  { destruct ts; [|simpl in H2; lia]. reflexivity. }
  destruct ts as [|t rest0]; [reflexivity|].
  cbn [length] in H1, H2. cbn [parse_template_from].
  assert (Hgo : forall r, length r <= length rest0 ->
            parse_template_from f1 groups r = parse_template_from f2 groups r)
    by (intros r Hr; apply IH; lia).
  destruct t as [c|c|]; [| |reflexivity].
  - destruct (read_ahead rest0) as [rest|] eqn:R; cbn [bind]; [|reflexivity].
    apply read_ahead_ok in R. subst rest. rewrite (Hgo rest0) by lia.
    reflexivity.
  - destruct (read_ahead rest0) as [rest|] eqn:R; cbn [bind]; [|reflexivity].
    apply read_ahead_ok in R. subst rest.
    repeat match goal with
           | |- ?x = ?x => reflexivity
           | |- context [read_ahead ?r] =>
               let R := fresh "R" in
               let x := fresh "rest" in
               destruct (read_ahead r) as [x|] eqn:R; cbn [bind];
                 [apply read_ahead_ok in R; subst x|]
           | |- context [getuntil ?c ?r] =>
               let G := fresh "G" in
               destruct (getuntil c r) as [?|] eqn:G; cbn [bind];
                 [apply getuntil_shorter in G; cbn [length] in G|]
           | |- context [parse_template_from f1 groups ?r] =>
               rewrite (Hgo r) by (cbn [length] in *; lia)
           | |- context [match ?x with _ => _ end] =>
               lazymatch x with
               | parse_template_from _ _ _ => fail
               | _ => destruct x
               end
           end.
Qed.

Lemma length_tokenize (source : pystr) :
  length (tokenize source) <= length source.
Proof.
  assert (H : forall n source, length source <= n ->
            length (tokenize source) <= length source).
  { clear source. induction n as [|n IH]; intros [|c rest] Hlen;
      simpl in Hlen; try lia; cbn [tokenize length]; try lia.
    destruct (N.eqb c backslash).
    - destruct rest as [|d rest']; cbn [length]; [lia|].
      specialize (IH rest'). simpl in Hlen. lia.
    - cbn [length]. specialize (IH rest). lia. }
  apply (H (length source)). lia.
Qed.

Lemma parse_template_enough (source : pystr) (groups fuel : nat) :
  length source <= fuel ->
  parse_template_from fuel groups (tokenize source)
  = parse_template source groups.
Proof.
  intros H. unfold parse_template.
  pose proof (length_tokenize source) as Hl.
  apply parse_template_fuel; lia.
Qed.

(** The replacer raises [ValueError] when the compiled pattern has no
    match, and otherwise only what [re] raises for the template. *)
Lemma replace_raises (content : pystr) (starting_rx ending_rx : pattern)
  (block : pystr) (e : exn) :
  replace_content_between content starting_rx ending_rx block = Raise e ->
  (e = ValueError starting_rx /\ search starting_rx ending_rx content = None)
  \/ (template_exn e /\ search starting_rx ending_rx content <> None).
Proof.
  unfold replace_content_between, sub_once.
  destruct (search starting_rx ending_rx content) as [m|] eqn:E.
  - intros H. right. split; [|discriminate].
    match type of H with
    | context [parse_template ?r 2] =>
        destruct (parse_template r 2) as [t|e'] eqn:P
    end; cbn [bind] in H; [discriminate|].
    injection H as <-.
    apply parse_template_raises in P. exact P.
  - intros [= <-]. left. auto.
Qed.

Lemma replace_found (content : pystr) (starting_rx ending_rx : pattern)
  (block : pystr) (m : Match) :
  search starting_rx ending_rx content = Some m ->
  ~ In backslash (group m content 1) -> ~ In backslash block ->
  replace_content_between content starting_rx ending_rx block
  = Ok (firstn (m_start m) content ++ group m content 1 ++ block
          ++ skipn (m_end m) content).
Proof.
  intros Hs Hh Hb. unfold replace_content_between, sub_once. rewrite Hs.
  assert (Hrepl : match block with
                  | [] => group m content 1
                  | _ :: _ => group m content 1 ++ block
                  end = group m content 1 ++ block).
  { destruct block; [rewrite app_nil_r|]; reflexivity. }
  rewrite Hrepl, parse_template_literal.
  - cbn [bind]. rewrite expand_literal, <- app_assoc. reflexivity.
  - intros H. apply in_app_or in H. tauto.
Qed.

(** ** Characters a pattern cannot match *)

Lemma in_slice (s : pystr) (i j : nat) (c : char) :
  In c (slice s i j) -> In c s.
Proof.
  intros H. destruct (le_lt_dec i j) as [Hij|Hij].
  - rewrite <- (firstn_skipn i s), (slice_skipn s i j Hij).
    apply in_or_app. right. apply in_or_app. left. exact H.
  - unfold slice in H. replace (j - i) with 0 in H by lia. destruct H.
Qed.

Lemma run_in_class (k : cclass) (t : pystr) (d : nat) (c : char) :
  d <= run_length k t -> In c (firstn d t) -> in_class k c = true.
Proof.
  revert d; induction t as [|x t IH]; intros [|d]; simpl; try tauto.
  destruct (in_class k x) eqn:E; [|lia].
  intros Hd [<-|H]; [exact E|]. apply (IH d); [lia | exact H].
Qed.

Lemma avoided_char_not_matched (c : char) (r : regex) (s : pystr) (i j : nat) :
  avoids c r = true -> i <= length s -> In j (ends r s i) ->
  ~ In c (slice s i j).
Proof.
  revert i j;
    induction r as [| k | | | | g k | a IHa b IHb | a IHa b IHb | a IHa];
    intros i j Hav Hi Hj; simpl in Hav.
  - simpl in Hj. destruct Hj as [<-|[]]. rewrite slice_empty. auto.
  - simpl in Hj. destruct (nth_error s i) as [x|] eqn:E; [|destruct Hj].
    destruct (in_class k x) eqn:K; [|destruct Hj].
    destruct Hj as [<-|[]]. rewrite (slice_one s i x E).
    intros [->|[]]. rewrite K in Hav. discriminate.
  - simpl in Hj. destruct (at_bol s i); [|destruct Hj].
    destruct Hj as [<-|[]]. rewrite slice_empty. auto.
  - simpl in Hj. destruct (at_eol s i); [|destruct Hj].
    destruct Hj as [<-|[]]. rewrite slice_empty. auto.
  - simpl in Hj. destruct (Nat.eqb i (length s)); [|destruct Hj].
    destruct Hj as [<-|[]]. rewrite slice_empty. auto.
  - apply in_star_ends in Hj. unfold slice. intros H.
    apply (run_in_class k (skipn i s) (j - i) c) in H; [|lia].
    rewrite H in Hav. discriminate.
  - apply andb_true_iff in Hav as [Ha Hb].
    apply in_flat_map_ends in Hj as [m [Hm Hj]].
    pose proof (@ends_bounds a s i m Hi Hm) as Hmb.
    assert (Hml : m <= length s) by lia.
    pose proof (@ends_bounds b s m j Hml Hj) as Hjb.
    rewrite (slice_app s i m j) by lia.
    intros H. apply in_app_or in H as [H|H].
    + apply (IHa i m Ha Hi Hm H).
    + apply (IHb m j Hb Hml Hj H).
  - apply andb_true_iff in Hav as [Ha Hb].
    simpl in Hj. apply in_app_or in Hj as [Hj|Hj]; [apply IHa | apply IHb]; auto.
  - simpl in Hj. destruct (ends a s i); [destruct Hj|].
    destruct Hj as [<-|[]]. rewrite slice_empty. auto.
Qed.

Lemma script_headings_avoid_backslash :
  avoids backslash (group1 COMMUNITY_HEADING_PATTERN) = true
  /\ avoids backslash (group1 PRO_HEADING_PATTERN) = true.
Proof. split; reflexivity. Qed.

(** The heading of a pattern without alternatives ends with the
    newline of [\s*\n]. *)
Lemma heading_ends_with_newline (b : regex) (s : pystr) (i j : nat) :
  i <= length s -> In j (ends (group1 [b]) s i) ->
  exists h, slice s i j = h ++ [nl].
Proof.
  intros Hi Hj. unfold group1, heading_tail in Hj.
  apply in_flat_map_ends in Hj as [i0 [H0 Hj]].
  apply in_flat_map_ends in Hj as [m [Hm Hj]].
  apply in_flat_map_ends in Hj as [m' [Hm' Hj]].
  pose proof (@ends_bounds Bol s i i0 Hi H0) as B0.
  assert (L0 : i0 <= length s) by lia.
  pose proof (@ends_bounds b s i0 m L0 Hm) as B1.
  assert (L1 : m <= length s) by lia.
  pose proof (@ends_bounds (Star true CSpace) s m m' L1 Hm') as B2.
  simpl in Hj. destruct (nth_error s m') as [x|] eqn:E; [|destruct Hj].
  destruct (N.eqb x nl) eqn:X; [|destruct Hj].
  destruct Hj as [<-|[]]. apply N.eqb_eq in X. subst x.
  exists (slice s i m').
  rewrite (slice_app s i m' (S m')) by lia.
  rewrite (slice_one s m' nl E). reflexivity.
Qed.

(** ** [search] is the first success of the backtracking matcher *)

Lemma hd_flat_map {A} (F : A -> list nat) (l : list A) :
  hd_error (flat_map F l)
  = option_map snd (first_some (fun a => hd_error (F a)) l).
Proof.
  induction l as [|a l IH]; simpl; [reflexivity|].
  destruct (F a) as [|x t]; simpl; [exact IH | reflexivity].
Qed.

Lemma first_some_ext {A B} (f g : A -> option B) (l : list A) :
  (forall a, In a l -> f a = g a) -> first_some f l = first_some g l.
Proof.
  induction l as [|a l IH]; intros H; simpl; [reflexivity|].
  rewrite (H a) by (left; reflexivity).
  destruct (g a); [reflexivity|]. apply IH. intros x Hx. apply H. right. exact Hx.
Qed.

Lemma map_add_seq (j n : nat) : map (fun d => j + d) (seq 0 n) = seq j n.
Proof.
  revert j; induction n as [|n IH]; intros j; [reflexivity|].
  cbn [seq map]. rewrite Nat.add_0_r. f_equal.
  rewrite <- seq_shift, map_map, <- (IH (S j)).
  apply map_ext. intros d. lia.
Qed.

Lemma lazy_scan_first_boundary (e : regex) (s : pystr) (n j : nat) :
  hd_error (flat_map (ends (Look e) s) (seq j (S n)))
  = first_boundary e s j n.
Proof.
  revert j; induction n as [|n IH]; intros j.
  - cbn [seq flat_map first_boundary ends].
    destruct (ends e s j); reflexivity.
  - change (seq j (S (S n))) with (j :: seq (S j) (S n)).
    cbn [flat_map first_boundary]. cbn [ends].
    destruct (ends e s j); [|reflexivity].
    cbn [app]. apply IH.
Qed.

Lemma run_length_any (t : pystr) : run_length CAny t = length t.
Proof. induction t as [|c t IH]; simpl; [|rewrite IH]; reflexivity. Qed.

Lemma compile_first_match (starting_rx ending_rx : pattern) (s : pystr)
  (i : nat) :
  i <= length s ->
  hd_error (ends (compile starting_rx ending_rx) s i)
  = option_map m_end (match_at starting_rx ending_rx s i).
Proof.
  intros Hi. unfold compile, match_at.
  change (ends (Seq (group1 starting_rx)
                    (Seq (Star false CAny) (Look (alts ending_rx)))) s i)
    with (flat_map (fun j => flat_map (ends (Look (alts ending_rx)) s)
                                (ends (Star false CAny) s j))
                   (ends (group1 starting_rx) s i)).
  rewrite hd_flat_map.
  rewrite (first_some_ext
             (fun j => hd_error (flat_map (ends (Look (alts ending_rx)) s)
                                          (ends (Star false CAny) s j)))
             (fun j => first_boundary (alts ending_rx) s j (length s - j))).
  - destruct (first_some _ _) as [[j k]|]; reflexivity.
  - intros j Hj. cbn [ends].
    rewrite map_add_seq, run_length_any, length_skipn.
    apply lazy_scan_first_boundary.
Qed.

(** ** The section replacer: frame, errors and the empty block *)

(** The frame of a replacement whose heading and block hold no
    backslash: the text before the heading, the heading and the text
    from the end boundary on are those of the document, and the block
    stands between the heading and the boundary. *)
Lemma replace_frame (content : pystr) (starting_rx ending_rx : pattern)
  (block : pystr) (m : Match) :
  search starting_rx ending_rx content = Some m ->
  ~ In backslash (group m content 1) -> ~ In backslash block ->
  content = firstn (m_start m) content ++ group m content 1
              ++ group m content 2 ++ skipn (m_end m) content
  /\ replace_content_between content starting_rx ending_rx block
     = Ok (firstn (m_start m) content ++ group m content 1 ++ block
             ++ skipn (m_end m) content)
  /\ In (g1_end m) (ends (group1 starting_rx) content (m_start m))
  /\ ends (alts ending_rx) content (m_end m) <> []
  /\ (forall p, g1_end m <= p < m_end m ->
                ends (alts ending_rx) content p = [])
  /\ (forall i, i < m_start m ->
                match_at starting_rx ending_rx content i = None).
Proof.
  intros Hs Hh Hb.
  destruct (search_found _ _ _ Hs) as [H1 [H2 [H3 [H4 [H5 [H6 _]]]]]].
  split; [|split; [|repeat split; assumption]].
  - apply slice_frame. exact H1.
  - apply replace_found; assumption.
Qed.

(** C2.  The block is not inserted verbatim when it holds a
    backslash: the replacement is read as a template of [re], so that
    two backslashes of the block become one in the document, and a
    backslash before a letter that is no escape is rejected. *)
Theorem template_escapes_change_block :
  let block := py "a\\b" ++ [nl] in
  replace_content_between document_AB heading_A boundary_B block
  = Ok (py "### A" ++ [nl] ++ py "a\b" ++ [nl] ++ py "### B" ++ [nl])
  /\ ~ replaces_section document_AB heading_A boundary_B block
  /\ replace_content_between document_AB heading_A boundary_B (py "\d")
     = Raise TemplateError.
Proof.
  intros block.
  assert (Hr : replace_content_between document_AB heading_A boundary_B block
               = Ok (py "### A" ++ [nl] ++ py "a\b" ++ [nl] ++ py "### B"
                       ++ [nl])) by reflexivity.
  split; [exact Hr|]. split; [|reflexivity].
  intros [pre [h [span [post [_ H]]]]]. rewrite Hr in H.
  injection H as H.
  apply (f_equal (fun t => count_occ N.eq_dec t backslash)) in H.
  cbv beta in H.
  match type of H with
  | ?l = _ => assert (C : l = 1) by reflexivity; rewrite C in H
  end.
  change (97%N :: 92%N :: 92%N :: 98%N :: nl :: post) with (block ++ post)
    in H.
  rewrite !count_occ_app in H.
  change (count_occ N.eq_dec block backslash) with 2 in H. lia.
Qed.

Lemma written_log (ev : pattern) (w : world) :
  written (log (Replacing ev) w) = written w.
Proof.
  unfold written, log. cbn [trace]. rewrite flat_map_app. apply app_nil_r.
Qed.

(** The table of the script is rendered for all rows. *)
Lemma generate_table_script (rows : list row) :
  generate_table table_config (Some rows)
  = Ok (match rows with
        | [] => []
        | _ :: _ =>
            table_text table_config
              (_calculate_column_widths table_config rows) rows
        end).
Proof.
  destruct rows as [|r rest]; [reflexivity|].
  rewrite generate_table_text, sort_rows_unsorted by reflexivity.
  reflexivity.
Qed.

Lemma tables_ok (cfn_catalog : dict section) :
  exists community_table pro_table,
    tables cfn_catalog = Ok (community_table, pro_table).
Proof.
  unfold tables. rewrite !generate_table_script. cbn [bind]. eauto.
Qed.


Lemma no_backslash_in_group (content : pystr) (m : Match) (n : nat) :
  ~ In backslash content -> ~ In backslash (group m content n).
Proof.
  intros H Hin. apply H.
  destruct n as [|[|n]]; simpl in Hin; apply in_slice in Hin; exact Hin.
Qed.

(** [generate_table] returns the empty string for absent and for
    empty rows.  Replacing a section with the empty block leaves the
    heading, which ends with its newline, directly followed by the
    end boundary, for every heading pattern that matches no backslash,
    as the two heading patterns of the script. *)
Lemma empty_section_policy (self : TableConfig) (content : pystr)
  (starting_rx ending_rx : pattern) (m : Match) :
  avoids backslash (group1 starting_rx) = true ->
  search starting_rx ending_rx content = Some m ->
  generate_table self None = Ok []
  /\ generate_table self (Some []) = Ok []
  /\ content = firstn (m_start m) content ++ group m content 1
                 ++ group m content 2 ++ skipn (m_end m) content
  /\ replace_content_between content starting_rx ending_rx []
     = Ok (firstn (m_start m) content ++ group m content 1
             ++ skipn (m_end m) content)
  /\ ends (alts ending_rx) content (m_end m) <> []
  /\ (forall b, starting_rx = [b] -> exists h, group m content 1 = h ++ [nl]).
Proof.
  intros Hav Hs.
  destruct (search_found _ _ _ Hs) as [H1 [H2 [H3 [H4 _]]]].
  assert (Hi : m_start m <= length content) by lia.
  assert (Hh : ~ In backslash (group m content 1)).
  { apply (avoided_char_not_matched backslash (group1 starting_rx) content
             (m_start m) (g1_end m) Hav Hi H3). }
  destruct (replace_frame content starting_rx ending_rx [] m Hs Hh)
    as [Hc [Hr _]]; [simpl; tauto|].
  repeat split; try reflexivity; try assumption.
  intros b ->. apply (heading_ends_with_newline b content _ _ Hi H3).
Qed.

Lemma empty_section_on_page :
  replace_content_between page COMMUNITY_HEADING_PATTERN PRO_HEADING_PATTERN []
  = Ok (py "#### Community image" ++ [nl] ++ [nl]
          ++ py "#### Pro image" ++ [nl] ++ py "| old |" ++ [nl]).
Proof.
  assert (Hs : search COMMUNITY_HEADING_PATTERN PRO_HEADING_PATTERN page
               = Some {| m_start := 0; g1_end := 21; m_end := 29 |})
    by reflexivity.
  destruct (empty_section_policy table_config page COMMUNITY_HEADING_PATTERN
              PRO_HEADING_PATTERN _ (proj1 script_headings_avoid_backslash) Hs)
    as [_ [_ [_ [Hr _]]]].
  exact Hr.
Defined.

(** C6.  [generate_table] returns the empty string for absent and for
    empty rows, but replacing a section with the empty block does not
    always leave the heading line: the heading is handed to [sub] as
    a template.  The heading [### C:\dir] makes the replacer raise the
    error of [re], and the heading [### a\\b] comes back with one of
    its two backslashes. *)
Theorem empty_block_heading_is_template :
  generate_table table_config None = Ok []
  /\ generate_table table_config (Some []) = Ok []
  /\ search heading_dir boundary_B document_dir
     = Some {| m_start := 0; g1_end := 11; m_end := 15 |}
  /\ replace_content_between document_dir heading_dir boundary_B []
     = Raise TemplateError
  /\ search heading_share boundary_B document_share
     = Some {| m_start := 0; g1_end := 9; m_end := 13 |}
  /\ replace_content_between document_share heading_share boundary_B []
     = Ok (py "### a\b" ++ [nl] ++ py "### B" ++ [nl]).
Proof. repeat split; reflexivity. Qed.


(** The conditions of the amended C3 are needed.  A block that begins
    with a newline is taken into the heading by the second
    application, which then adds the block once more; a heading
    pattern that looks at the old text behind it finds no heading in
    the updated document; a block that holds a match of the end
    pattern is cut there and grows as well. *)
Lemma block_with_leading_newline_grows :
  let block := [nl] ++ py "new" ++ [nl] in
  replace_content_between document_AB heading_A boundary_B block
  = Ok (py "### A" ++ [nl] ++ block ++ py "### B" ++ [nl])
  /\ replace_content_between
       (py "### A" ++ [nl] ++ block ++ py "### B" ++ [nl])
       heading_A boundary_B block
     = Ok (py "### A" ++ [nl] ++ [nl] ++ block ++ py "### B" ++ [nl]).
Proof. split; reflexivity. Qed.

Lemma heading_with_lookahead_raises :
  let block := py "new" ++ [nl] in
  replace_content_between document_AB heading_A_before_old boundary_B block
  = Ok (py "### A" ++ [nl] ++ block ++ py "### B" ++ [nl])
  /\ replace_content_between
       (py "### A" ++ [nl] ++ block ++ py "### B" ++ [nl])
       heading_A_before_old boundary_B block
     = Raise (ValueError heading_A_before_old).
Proof. split; reflexivity. Qed.

Lemma block_with_boundary_grows :
  let block := py "### B" ++ [nl] ++ py "new" ++ [nl] in
  replace_content_between document_AB heading_A boundary_B block
  = Ok (py "### A" ++ [nl] ++ block ++ py "### B" ++ [nl])
  /\ replace_content_between
       (py "### A" ++ [nl] ++ block ++ py "### B" ++ [nl])
       heading_A boundary_B block
     = Ok (py "### A" ++ [nl] ++ block ++ block ++ py "### B" ++ [nl]).
Proof. split; reflexivity. Qed.

(** * Further properties *)

(** ** Sorting by a key *)

Lemma str_lt_asym (a b : pystr) : str_lt a b = true -> str_lt b a = false.
Proof.
  revert b; induction a as [|x a IH]; intros [|y b]; simpl; try congruence.
  destruct (N.ltb_spec x y), (N.ltb_spec y x), (N.eqb_spec x y),
    (N.eqb_spec y x); simpl; try lia; try congruence.
  apply IH.
Qed.

Lemma str_le_trans (a b c : pystr) :
  str_lt b a = false -> str_lt c b = false -> str_lt c a = false.
Proof.
  revert b c; induction a as [|x a IH]; intros [|y b] [|z c]; simpl;
    try congruence.
  destruct (N.ltb_spec y x), (N.ltb_spec z y), (N.ltb_spec z x),
    (N.eqb_spec y x), (N.eqb_spec z y), (N.eqb_spec z x);
    simpl; try lia; try congruence.
  apply IH.
Qed.

Lemma value_lt_asym (a b : value) :
  value_lt a b = Ok true -> value_lt b a = Ok false.
Proof.
  destruct a as [|x|x], b as [|y|y]; simpl; try discriminate.
  - destruct x, y; simpl; congruence.
  - intros [= H]. rewrite (str_lt_asym _ _ H). reflexivity.
Qed.

Lemma value_le_trans (a b c : value) :
  value_lt b a = Ok false -> value_lt c b = Ok false ->
  value_lt c a = Ok false.
Proof.
  destruct a as [|x|x], b as [|y|y], c as [|z|z]; simpl; try discriminate.
  - destruct x, y, z; simpl; congruence.
  - intros [= H1] [= H2]. rewrite (str_le_trans _ _ _ H1 H2). reflexivity.
Qed.

Lemma value_lt_irrefl (a : value) : value_lt a a <> Ok true.
Proof.
  intros H. pose proof (value_lt_asym _ _ H). congruence.
Qed.

Lemma value_eqb_eq (a b : value) : value_eqb a b = true -> a = b.
Proof.
  destruct a as [|x|x], b as [|y|y]; simpl; try discriminate; auto.
  - intros H. apply Bool.eqb_prop in H. congruence.
  - intros H. apply pystr_eqb_eq in H. congruence.
Qed.

Lemma value_lt_raises (a b : value) (e : exn) :
  value_lt a b = Raise e -> e = TypeError.
Proof. destruct a, b; simpl; congruence. Qed.

Lemma value_lt_kinds (a b : value) (r : bool) :
  value_lt a b = Ok r -> (is_str a /\ is_str b) \/ (is_bool a /\ is_bool b).
Proof.
  destruct a as [|x|x], b as [|y|y]; simpl; try discriminate; intros _;
    [right | left]; split; eexists; reflexivity.
Qed.

Lemma filter_nothing {A} (p : A -> bool) (l : list A) :
  (forall x, In x l -> p x = false) -> filter p l = [].
Proof.
  induction l as [|x l IH]; intros H; simpl; [reflexivity|].
  rewrite (H x) by (left; reflexivity). apply IH.
  intros y Hy. apply H. right. exact Hy.
Qed.

Section Sorting.

Variable A : Type.
Variable keyf : A -> value.

Lemma insert_sorted_raises (x : A) (l : list A) (e : exn) :
  insert_sorted keyf x l = Raise e -> e = TypeError.
Proof.
  induction l as [|y l IH]; cbn [insert_sorted]; [discriminate|].
  destruct (value_lt (keyf x) (keyf y)) as [[|]|e'] eqn:E; cbn [bind].
  - discriminate.
  - destruct (insert_sorted keyf x l); cbn [bind]; [discriminate|].
    intros [= <-]. apply IH. reflexivity.
  - intros [= <-]. apply (value_lt_raises _ _ _ E).
Qed.

Lemma sorted_from_raises (l acc : list A) (e : exn) :
  sorted_from keyf acc l = Raise e -> e = TypeError.
Proof.
  revert acc; induction l as [|x l IH]; intros acc; cbn [sorted_from];
    [discriminate|].
  destruct (insert_sorted keyf x acc) as [acc'|e'] eqn:E; cbn [bind].
  - apply IH.
  - intros [= <-]. apply (insert_sorted_raises _ _ _ E).
Qed.

Lemma insert_sorted_ascending (x : A) (l l' : list A) :
  StronglySorted (not_after keyf) l ->
  insert_sorted keyf x l = Ok l' ->
  StronglySorted (not_after keyf) l'.
Proof.
  revert l'; induction l as [|y l IH]; intros l' Hs; cbn [insert_sorted].
  - intros [= <-]. repeat constructor.
  - apply StronglySorted_inv in Hs as [Hl Hy].
    destruct (value_lt (keyf x) (keyf y)) as [[|]|e'] eqn:E; cbn [bind];
      [| |discriminate].
    + intros [= <-]. apply value_lt_asym in E.
      constructor; [constructor; assumption|].
      constructor; [exact E|].
      rewrite Forall_forall in *. intros w Hw.
      apply (value_le_trans (keyf x) (keyf y) (keyf w) E (Hy w Hw)).
    + destruct (insert_sorted keyf x l) as [r|e'] eqn:R; cbn [bind];
        [|discriminate].
      intros [= <-]. constructor; [apply IH; auto|].
      apply insert_sorted_permutation in R.
      rewrite Forall_forall in *. intros w Hw.
      apply (Permutation_in _ (Permutation_sym R)) in Hw.
      destruct Hw as [<-|Hw]; [exact E | apply Hy; exact Hw].
Qed.

Lemma insert_sorted_stable (v : value) (x : A) (l l' : list A) :
  StronglySorted (not_after keyf) l ->
  insert_sorted keyf x l = Ok l' ->
  filter (fun a => value_eqb (keyf a) v) l'
  = filter (fun a => value_eqb (keyf a) v) l
      ++ filter (fun a => value_eqb (keyf a) v) [x].
Proof.
  revert l'; induction l as [|y l IH]; intros l' Hs; cbn [insert_sorted].
  - intros [= <-]. reflexivity.
  - apply StronglySorted_inv in Hs as [Hl Hy].
    destruct (value_lt (keyf x) (keyf y)) as [[|]|e'] eqn:E; cbn [bind];
      [| |discriminate].
    + intros [= <-]. cbn [filter].
      destruct (value_eqb (keyf x) v) eqn:Px.
      * apply value_eqb_eq in Px.
        assert (Hnone : filter (fun a => value_eqb (keyf a) v) (y :: l) = []).
        { apply filter_nothing. intros w Hw.
          destruct (value_eqb (keyf w) v) eqn:Pw; [|reflexivity].
          apply value_eqb_eq in Pw. exfalso.
          destruct Hw as [<-|Hw].
          - rewrite Px, <- Pw in E. apply (value_lt_irrefl _ E).
          - rewrite Forall_forall in Hy. specialize (Hy w Hw).
            unfold not_after in Hy. rewrite Pw, <- Px in Hy. congruence. }
        cbn [filter] in Hnone. rewrite Hnone. reflexivity.
      * rewrite app_nil_r. reflexivity.
    + destruct (insert_sorted keyf x l) as [r|e'] eqn:R; cbn [bind];
        [|discriminate].
      intros [= <-]. cbn [filter]. rewrite (IH r Hl eq_refl).
      destruct (value_eqb (keyf y) v); reflexivity.
Qed.

Lemma sorted_from_ascending (l acc l' : list A) :
  StronglySorted (not_after keyf) acc ->
  sorted_from keyf acc l = Ok l' ->
  StronglySorted (not_after keyf) l'
  /\ forall v, filter (fun a => value_eqb (keyf a) v) l'
               = filter (fun a => value_eqb (keyf a) v) acc
                   ++ filter (fun a => value_eqb (keyf a) v) l.
Proof.
  revert acc l'; induction l as [|x l IH]; intros acc l' Hs;
    cbn [sorted_from].
  - intros [= <-]. split; [exact Hs|]. intros v. rewrite app_nil_r.
    reflexivity.
  - destruct (insert_sorted keyf x acc) as [acc'|e] eqn:E; cbn [bind];
      [|discriminate].
    intros H.
    destruct (IH acc' l' (insert_sorted_ascending _ _ _ Hs E) H) as [H1 H2].
    split; [exact H1|]. intros v.
    rewrite H2, (insert_sorted_stable v _ _ _ Hs E). cbn [filter].
    destruct (value_eqb (keyf x) v); rewrite <- app_assoc; reflexivity.
Qed.

(** The comparisons of a sort succeed when every two keys compare. *)
Lemma insert_sorted_total (x : A) (l : list A) :
  (forall y, In y l -> exists r, value_lt (keyf x) (keyf y) = Ok r) ->
  exists l', insert_sorted keyf x l = Ok l'.
Proof.
  induction l as [|y l IH]; intros H; cbn [insert_sorted]; [eauto|].
  destruct (H y (or_introl eq_refl)) as [r ->]. cbn [bind].
  destruct r; [eauto|].
  destruct IH as [l' ->]; [intros z Hz; apply H; right; exact Hz|].
  cbn [bind]. eauto.
Qed.

Lemma sorted_from_total (l acc : list A) :
  (forall x y, In x (acc ++ l) -> In y (acc ++ l) ->
               exists r, value_lt (keyf x) (keyf y) = Ok r) ->
  exists l', sorted_from keyf acc l = Ok l'.
Proof.
  revert acc; induction l as [|x l IH]; intros acc H; cbn [sorted_from];
    [eauto|].
  destruct (insert_sorted_total x acc) as [acc' E].
  { intros y Hy. apply H; apply in_or_app; [right; left; reflexivity|].
    left. exact Hy. }
  rewrite E. cbn [bind]. apply IH.
  apply insert_sorted_permutation in E.
  assert (P : Permutation (acc ++ x :: l) (acc' ++ l)).
  { apply perm_trans with (x :: acc ++ l);
      [apply Permutation_sym, Permutation_middle|].
    apply (Permutation_app_tail l E). }
  intros a b Ha Hb. apply H; apply (Permutation_in _ (Permutation_sym P));
    assumption.
Qed.

Lemma uniform_keys_compare (l : list A) (x y : A) :
  uniform_keys keyf l -> In x l -> In y l ->
  exists r, value_lt (keyf x) (keyf y) = Ok r.
Proof.
  intros [H|H] Hx Hy; rewrite Forall_forall in H;
    destruct (H x Hx) as [a ->], (H y Hy) as [b ->]; simpl; eauto.
Qed.

Lemma ascending_uniform (a b : A) (l : list A) :
  StronglySorted (not_after keyf) (a :: b :: l) ->
  uniform_keys keyf (a :: b :: l).
Proof.
  intros Hs. apply StronglySorted_inv in Hs as [_ Ha].
  rewrite Forall_forall in Ha.
  pose proof (Ha b (or_introl eq_refl)) as Hb. unfold not_after in Hb.
  apply value_lt_kinds in Hb as [[_ Hk]|[_ Hk]]; [left | right];
    apply Forall_forall; intros w [<-|Hw]; try exact Hk;
    specialize (Ha w Hw); unfold not_after in Ha;
    apply value_lt_kinds in Ha as [[Hw1 Hw2]|[Hw1 Hw2]]; try exact Hw1;
    destruct Hk as [s Hs], Hw2 as [t Ht]; congruence.
Qed.

End Sorting.

(** X1.  With a sort key, the data lines of the table are the rows in
    ascending order of their keys, a row without the key counting as
    the empty string; the sort only reorders the rows, and rows with
    equal keys keep the order of the input. *)
Theorem sorted_rows_ascending (self : TableConfig) (c : char) (k : pystr)
  (r : row) (rest data' : list row) :
  sort_by self = Some (c :: k) ->
  sort_rows self (r :: rest) = Ok data' ->
  generate_table self (Some (r :: rest))
  = Ok (table_text self (_calculate_column_widths self (r :: rest)) data')
  /\ Permutation (r :: rest) data'
  /\ StronglySorted (not_after (sort_key (c :: k))) data'
  /\ forall v, filter (fun x => value_eqb (sort_key (c :: k) x) v) data'
               = filter (fun x => value_eqb (sort_key (c :: k) x) v)
                        (r :: rest).
Proof.
  intros Hk Hs. split; [|split].
  - rewrite generate_table_text, Hs. reflexivity.
  - apply (sort_rows_permutation _ _ Hs).
  - unfold sort_rows in Hs. rewrite Hk in Hs. unfold sorted in Hs.
    apply (sorted_from_ascending row (sort_key (c :: k)) (r :: rest) [] data')
      in Hs; [|constructor].
    exact Hs.
Qed.

Lemma sorted_rows_ascending_witness :
  sort_rows sorted_config [queue_row; bucket_row; queue_row]
  = Ok [bucket_row; queue_row; queue_row]
  /\ StronglySorted (not_after (sort_key (py "resource")))
       [bucket_row; queue_row; queue_row].
Proof.
  assert (Hs : sort_rows sorted_config [queue_row; bucket_row; queue_row]
               = Ok [bucket_row; queue_row; queue_row]) by reflexivity.
  split; [exact Hs|].
  exact (proj1 (proj2 (proj2
           (sorted_rows_ascending sorted_config 114%N (py "esource")
              queue_row [bucket_row; queue_row] _ eq_refl Hs)))).
Defined.

(** X2.  With a sort key, sorting raises nothing but [TypeError], and
    it succeeds exactly when there is at most one row or the keys of
    the rows are all strings or all booleans: a [None] key or keys of
    both kinds make [generate_table] raise. *)
Theorem sort_rows_type_error (self : TableConfig) (c : char) (k : pystr)
  (data : list row) :
  sort_by self = Some (c :: k) ->
  (forall e, sort_rows self data = Raise e ->
             e = TypeError
             /\ (data <> [] -> generate_table self (Some data) = Raise e))
  /\ ((exists data', sort_rows self data = Ok data')
      <-> length data <= 1 \/ uniform_keys (sort_key (c :: k)) data).
Proof.
  intros Hk. unfold sort_rows. rewrite Hk.
  fold (sort_key (c :: k)). unfold sorted. split.
  - intros e He. split.
    + apply (sorted_from_raises row (sort_key (c :: k)) data [] e He).
    + intros Hne. destruct data as [|r rest]; [congruence|].
      rewrite generate_table_text. unfold sort_rows. rewrite Hk.
      fold (sort_key (c :: k)). unfold sorted. rewrite He. reflexivity.
  - split.
    + intros [data' Hs].
      pose proof (sorted_from_permutation _ _ _ Hs) as P. cbn [app] in P.
      apply (sorted_from_ascending row (sort_key (c :: k)) data [] data')
        in Hs as [Hs _]; [|constructor].
      destruct data' as [|a [|b t]].
      * apply Permutation_length in P. left. simpl in P. lia.
      * apply Permutation_length in P. left. simpl in P. lia.
      * right. apply ascending_uniform in Hs.
        destruct Hs as [H|H]; [left | right];
          apply (Permutation_Forall (Permutation_sym P) H).
    + intros [Hlen|Hu].
      * destruct data as [|x [|y t]]; [eexists; reflexivity | | simpl in Hlen; lia].
        eexists. reflexivity.
      * apply sorted_from_total. cbn [app]. intros x y Hx Hy.
        apply (uniform_keys_compare row (sort_key (c :: k)) data x y Hu Hx Hy).
Qed.

Lemma sort_rows_type_error_witness :
  generate_table sorted_config
    (Some [bucket_row; [(py "resource", VBool true)]])
  = Raise TypeError.
Proof.
  destruct (sort_rows_type_error sorted_config 114%N (py "esource")
              [bucket_row; [(py "resource", VBool true)]] eq_refl)
    as [H _].
  apply (H TypeError); [reflexivity | discriminate].
Defined.

(** ** The characters of a table *)

Lemma in_times (c d : char) (n : nat) : In c (times d n) -> c = d.
Proof. unfold times. intros H. apply repeat_spec in H. exact H. Qed.

Lemma in_format_cell (c : char) (v : pystr) (w : nat) (a : pystr) :
  In c (_format_cell v w a) -> c = space \/ In c v.
Proof.
  unfold _format_cell, rjust, center, ljust.
  destruct (pystr_eqb a (py "right")); [|destruct (pystr_eqb a (py "center"))];
    intros H; repeat (apply in_app_or in H as [H|H]);
    try (left; apply (in_times _ _ _ H)); right; exact H.
Qed.

Lemma in_alignment_separator (c : char) (a : pystr) (w : nat) :
  In c (_get_alignment_separator a w) -> c = dash \/ c = colon.
Proof.
  unfold _get_alignment_separator.
  destruct (pystr_eqb a (py "right")); [|destruct (pystr_eqb a (py "center"))];
    intros H; repeat (apply in_app_or in H as [H|H]);
    try (left; apply (in_times _ _ _ H));
    try (destruct H as [<-|[]]; right; reflexivity).
Qed.

Lemma in_join (c : char) (sep : pystr) (parts : list pystr) :
  In c (join sep parts) -> In c sep \/ exists p, In p parts /\ In c p.
Proof.
  induction parts as [|p [|q rest] IH]; [intros [] | |].
  - intros H. right. exists p. split; [left; reflexivity | exact H].
  - change (join sep (p :: q :: rest)) with (p ++ sep ++ join sep (q :: rest)).
    intros H. apply in_app_or in H as [H|H];
      [right; exists p; split; [left; reflexivity | exact H]|].
    apply in_app_or in H as [H|H]; [left; exact H|].
    destruct (IH H) as [H'|[p' [Hp Hc]]]; [left; exact H'|].
    right. exists p'. split; [right; exact Hp | exact Hc].
Qed.

Lemma in_line (c : char) (cells : list pystr) :
  In c (line cells) ->
  c = pipe \/ c = space \/ exists p, In p cells /\ In c p.
Proof.
  unfold line. intros H. apply in_app_or in H as [H|H].
  - destruct H as [<-|[<-|[]]]; [left | right; left]; reflexivity.
  - apply in_app_or in H as [H|H].
    + apply in_join in H as [H|H]; [|right; right; exact H].
      destruct H as [<-|[<-|[<-|[]]]];
        [right; left | left | right; left]; reflexivity.
    + destruct H as [<-|[<-|[]]]; [right; left | left]; reflexivity.
Qed.

Lemma in_separator_line (c : char) (cells : list pystr) :
  In c (separator_line cells) ->
  c = pipe \/ exists p, In p cells /\ In c p.
Proof.
  unfold separator_line. intros H. apply in_app_or in H as [H|H].
  - destruct H as [<-|[]]. left. reflexivity.
  - apply in_app_or in H as [H|H].
    + apply in_join in H as [H|H]; [|right; exact H].
      destruct H as [<-|[]]. left. reflexivity.
    + destruct H as [<-|[]]. left. reflexivity.
Qed.

(** The characters of a table are those of its markup, of the headers
    and of the cell texts. *)
Lemma in_table_text (c : char) (self : TableConfig) (widths : list nat)
  (data : list row) :
  In c (table_text self widths data) ->
  In c [pipe; space; dash; colon; nl]
  \/ exists col, In col (columns self)
       /\ (In c (header col)
           \/ exists r, In r data /\ In c (cell_text col r)).
Proof.
  unfold table_text. intros H.
  apply in_app_or in H as [H|H].
  { apply in_line in H as [->|[->|[p [Hp Hc]]]]; [simpl; tauto | simpl; tauto |].
    unfold header_cells in Hp. apply in_map_iff in Hp as [[col w] [<- Hin]].
    apply in_combine_l in Hin.
    apply in_format_cell in Hc as [->|Hc]; [simpl; tauto|].
    right. exists col. split; [exact Hin | left; exact Hc]. }
  apply in_app_or in H as [H|H]; [destruct H as [<-|[]]; simpl; tauto|].
  apply in_app_or in H as [H|H].
  { apply in_separator_line in H as [->|[p [Hp Hc]]]; [simpl; tauto|].
    unfold separator_cells in Hp. apply in_map_iff in Hp as [[col w] [<- Hin]].
    apply in_alignment_separator in Hc as [->| ->]; simpl; tauto. }
  apply in_app_or in H as [H|H]; [destruct H as [<-|[]]; simpl; tauto|].
  apply in_concat in H as [l [Hl Hc]].
  apply in_map_iff in Hl as [r [<- Hr]].
  apply in_app_or in Hc as [Hc|Hc]; [|destruct Hc as [<-|[]]; simpl; tauto].
  apply in_line in Hc as [->|[->|[p [Hp Hc]]]]; [simpl; tauto | simpl; tauto |].
  unfold row_cells in Hp. apply in_map_iff in Hp as [[col w] [<- Hin]].
  apply in_combine_l in Hin.
  apply in_format_cell in Hc as [->|Hc]; [simpl; tauto|].
  right. exists col. split; [exact Hin|]. right. exists r. auto.
Qed.

(** X3.  A table holds no character but the markup characters, the
    characters of the headers and the characters of the cell texts of
    its rows. *)
Theorem table_characters (self : TableConfig) (data : list row) (t : pystr)
  (c : char) :
  generate_table self (Some data) = Ok t -> In c t ->
  In c [pipe; space; dash; colon; nl]
  \/ exists col, In col (columns self)
       /\ (In c (header col)
           \/ exists r, In r data /\ In c (cell_text col r)).
Proof.
  destruct data as [|r rest]; [intros [= <-] []|].
  rewrite generate_table_text.
  destruct (sort_rows self (r :: rest)) as [rows|e] eqn:Hs; cbn [bind];
    [|discriminate].
  intros [= <-] Hc. apply in_table_text in Hc as [Hc|[col [Hcol Hc]]];
    [left; exact Hc|].
  right. exists col. split; [exact Hcol|].
  destruct Hc as [Hc|[x [Hx Hc]]]; [left; exact Hc|].
  right. exists x. split; [|exact Hc].
  apply sort_rows_permutation in Hs.
  apply (Permutation_in _ (Permutation_sym Hs) Hx).
Qed.

Lemma table_characters_witness :
  ~ In backslash (table_text table_config [15; 6; 6; 6] [bucket_row]).
Proof.
  intros Hc.
  destruct (table_characters table_config [bucket_row] _ backslash eq_refl Hc)
    as [H|[col [Hcol H]]].
  - simpl in H. repeat (destruct H as [H|H]; [discriminate|]). exact H.
  - simpl in Hcol.
    repeat (destruct Hcol as [<-|Hcol];
            [destruct H as [H|[r [[<-|[]] H]]]; vm_compute in H;
             repeat (destruct H as [H|H]; [discriminate|]); exact H|]).
    exact Hcol.
Defined.

(** ** The end of a table and its lines *)

Lemma no_newline_in_line (cells : list pystr) :
  (forall p, In p cells -> ~ In nl p) -> ~ In nl (line cells).
Proof.
  intros H Hin. apply in_line in Hin as [E|[E|[p [Hp Hc]]]];
    [discriminate | discriminate | apply (H p Hp Hc)].
Qed.

Lemma no_newline_in_separator_line (self : TableConfig) (widths : list nat) :
  ~ In nl (separator_line (separator_cells self widths)).
Proof.
  intros Hin. apply in_separator_line in Hin as [E|[p [Hp Hc]]];
    [discriminate|].
  unfold separator_cells in Hp. apply in_map_iff in Hp as [[col w] [<- _]].
  apply in_alignment_separator in Hc as [E|E]; discriminate.
Qed.

Lemma no_newline_in_cell (v : pystr) (w : nat) (a : pystr) :
  ~ In nl v -> ~ In nl (_format_cell v w a).
Proof.
  intros H Hin. apply in_format_cell in Hin as [E|Hin];
    [discriminate | exact (H Hin)].
Qed.

Lemma count_newlines_lines (f : row -> pystr) (rows : list row) :
  (forall r, In r rows -> ~ In nl (f r)) ->
  count_occ N.eq_dec (concat (map (fun r => f r ++ [nl]) rows)) nl
  = length rows.
Proof.
  induction rows as [|r rows IH]; intros H; [reflexivity|].
  rewrite map_cons, concat_cons, !count_occ_app. unfold char in *.
  rewrite IH by (intros x Hx; apply H; right; exact Hx).
  assert (E : count_occ N.eq_dec (f r) nl = 0)
    by (apply count_occ_not_In, H; left; reflexivity).
  rewrite E. reflexivity.
Qed.

(** X4.  The table of rows that are not empty ends with [|] and one
    newline, so that stripping and appending the newline changes
    nothing; when no header and no cell text holds a newline, the
    table has one line per row and two more. *)
Theorem table_ends_with_one_newline (self : TableConfig) (r : row)
  (rest : list row) (t : pystr) :
  generate_table self (Some (r :: rest)) = Ok t ->
  (exists x, t = x ++ [pipe; nl])
  /\ ((forall col, In col (columns self) ->
         ~ In nl (header col)
         /\ forall x, In x (r :: rest) -> ~ In nl (cell_text col x)) ->
      count_occ N.eq_dec t nl = length (r :: rest) + 2).
Proof.
  rewrite generate_table_text.
  destruct (sort_rows self (r :: rest)) as [rows|e] eqn:Hs; cbn [bind];
    [|discriminate].
  intros [= <-]. split; [apply table_text_ends_with_pipe|].
  intros Hno. apply sort_rows_permutation in Hs.
  unfold table_text. rewrite !count_occ_app. unfold char in *.
  set (widths := _calculate_column_widths self (r :: rest)).
  assert (E1 : count_occ N.eq_dec (line (header_cells self widths)) nl = 0).
  { apply count_occ_not_In, no_newline_in_line. intros p Hp.
    unfold header_cells in Hp. apply in_map_iff in Hp as [[col w] [<- Hin]].
    apply in_combine_l in Hin. apply no_newline_in_cell.
    apply (proj1 (Hno col Hin)). }
  assert (E2 : count_occ N.eq_dec
                 (separator_line (separator_cells self widths)) nl = 0)
    by apply count_occ_not_In, no_newline_in_separator_line.
  rewrite E1, E2, count_newlines_lines.
  - rewrite <- (Permutation_length Hs). simpl. lia.
  - intros x Hx. apply no_newline_in_line. intros p Hp.
    unfold row_cells in Hp. apply in_map_iff in Hp as [[col w] [<- Hin]].
    apply in_combine_l in Hin. apply no_newline_in_cell.
    apply (proj2 (Hno col Hin)).
    apply (Permutation_in _ (Permutation_sym Hs) Hx).
Qed.

Lemma table_ends_with_one_newline_witness :
  exists t, generate_table table_config (Some [bucket_row]) = Ok t
            /\ exists x, t = x ++ [pipe; nl].
Proof.
  eexists. split; [reflexivity|].
  apply (table_ends_with_one_newline table_config bucket_row [] _ eq_refl).
Defined.

(** ** The table of the script *)

Lemma list_max_bounded (n : nat) (l : list nat) :
  Forall (fun k => k <= n) l -> list_max (n :: l) = n.
Proof.
  intros H. apply list_max_le in H. simpl. lia.
Qed.

Lemma length_bool_formatter (v : value) : length (bool_formatter v) <= 6.
Proof. unfold bool_formatter. destruct (truthy v); simpl; lia. Qed.

(** X5.  In the table of the script the resource column is as wide as
    the longest identifier and at least the 8 characters of its
    header, the three operation columns are 6 wide, and the line of a
    resource shows its identifier, padded on the right, and in each
    operation column three spaces and the three characters of the
    mark of the source exactly when the operation is among its
    methods, and five spaces and [-] otherwise. *)
Theorem script_table_layout (sd : option section) :
  let rows := transform sd in
  let widths := _calculate_column_widths table_config rows in
  widths = [list_max (8 :: map (@length char) (keys (entries sd))); 6; 6; 6]
  /\ Forall2 (fun entry r =>
                script_cells widths entry (row_cells table_config widths r))
             (entries sd) rows.
Proof.
  intros rows widths.
  assert (Hw : widths
               = [list_max (8 :: map (@length char) (keys (entries sd)));
                  6; 6; 6]).
  { unfold widths, rows. rewrite calculate_column_widths_max, transform_map.
    cbn [columns table_config map].
    f_equal; [|f_equal; [|f_equal; [|f_equal]]].
    - f_equal. f_equal. unfold keys. rewrite !map_map.
      apply map_ext. intros [k md]. reflexivity.
    - apply list_max_bounded. apply Forall_forall. intros n Hn.
      apply in_map_iff in Hn as [r [<- _]]. apply length_bool_formatter.
    - apply list_max_bounded. apply Forall_forall. intros n Hn.
      apply in_map_iff in Hn as [r [<- _]]. apply length_bool_formatter.
    - apply list_max_bounded. apply Forall_forall. intros n Hn.
      apply in_map_iff in Hn as [r [<- _]]. apply length_bool_formatter. }
  split; [exact Hw|].
  rewrite Hw. unfold rows. rewrite transform_map.
  generalize (list_max (8 :: map (@length char) (keys (entries sd)))).
  intros w0. generalize (entries sd). intros d.
  induction d as [|[k md] d IH]; cbn [map]; constructor; [|exact IH].
  exists (set_in (py "Create") (methods_of md)),
    (set_in (py "Delete") (methods_of md)),
    (set_in (py "Update") (methods_of md)).
  split; [|repeat split; apply set_in_In].
  assert (E : forall b, operation_cell b = rjust (bool_formatter (VBool b)) 6)
    by (intros []; reflexivity).
  rewrite !E. reflexivity.
Qed.

Lemma script_table_layout_witness :
  row_cells table_config [15; 6; 6; 6] bucket_row
  = [ py "AWS::S3::Bucket"; py "   " ++ [226; 339; 8230]%N;
      py "   " ++ [226; 339; 8230]%N; py "     -" ].
Proof.
  pose proof (script_table_layout (Some bucket_section)) as [Hw Hrows].
  cbv zeta in Hrows. rewrite Hw in Hrows.
  inversion Hrows as [|entry r ? ? Hcells _ Eentry Erows]; subst.
  destruct Hcells as [c [d [u [Hc [[Hc1 Hc2] [[Hd1 Hd2] [Hu1 Hu2]]]]]]].
  assert (Ec : c = true)
    by (apply Hc2; vm_compute; auto).
  assert (Ed : d = true)
    by (apply Hd2; vm_compute; auto).
  assert (Eu : u = false).
  { destruct u; [|reflexivity]. specialize (Hu1 eq_refl). vm_compute in Hu1.
    repeat (destruct Hu1 as [Hu1|Hu1]; [discriminate|]). destruct Hu1. }
  subst c d u. exact Hc.
Defined.

(** ** Padding *)

(** X6.  A cell is its text between spaces and never a part of it:
    the missing width is filled on the right for the default
    alignment, on the left for [right] and on both sides, within one
    space of each other, for [center]; a text as long as the width or
    longer is the cell. *)
Theorem format_cell_pads (v : pystr) (w : nat) (a : pystr) :
  exists l r,
    _format_cell v w a = times space l ++ v ++ times space r
    /\ l + r = w - length v
    /\ (a = py "right" -> r = 0)
    /\ (a = py "center" -> l <= r + 1 /\ r <= l + 1)
    /\ (a <> py "right" -> a <> py "center" -> l = 0).
Proof.
  unfold _format_cell.
  destruct (pystr_eqb a (py "right")) eqn:R.
  { apply pystr_eqb_eq in R. exists (w - length v), 0.
    unfold rjust. cbn [times repeat]. rewrite app_nil_r.
    repeat split; try lia; try congruence. subst a. discriminate. }
  destruct (pystr_eqb a (py "center")) eqn:C.
  { apply pystr_eqb_eq in C. unfold center.
    set (marg := w - length v).
    set (l := marg / 2 + (if Nat.odd marg && Nat.odd w then 1 else 0)).
    exists l, (marg - l).
    assert (H : l <= marg /\ l <= marg - l + 1 /\ marg - l <= l + 1).
    { subst l. pose proof (Nat.div_mod_eq marg 2) as D.
      pose proof (Nat.mod_upper_bound marg 2) as U.
      destruct (Nat.odd marg) eqn:O; cbn [andb].
      - apply Nat.odd_spec in O as [q Hq].
        destruct (Nat.odd w); lia.
      - lia. }
    repeat split; try lia; try congruence. subst a. discriminate. }
  exists 0, (w - length v). unfold ljust. cbn [times repeat app].
  apply pystr_eqb_neq in R. apply pystr_eqb_neq in C.
  repeat split; try lia; congruence.
Qed.

(** ** What the rows depend on *)

Lemma set_in_set (x : pystr) (l : list pystr) :
  set_in x (set l) = true <-> In x l.
Proof. rewrite set_in_In. unfold set. apply nodup_In. Qed.

Lemma set_in_ext (x : pystr) (l1 l2 : list pystr) :
  (In x l1 <-> In x l2) -> set_in x (set l1) = set_in x (set l2).
Proof.
  intros H. apply eq_true_iff_eq. rewrite !set_in_set. exact H.
Qed.

(** X7.  The row of a resource depends only on whether [Create],
    [Delete] and [Update] occur among its methods: their order, their
    repetitions and every other operation name are without effect,
    and a resource without the [methods] field has the three fields
    false. *)
Theorem row_depends_on_membership (k : pystr) (md1 md2 : metadata) :
  ((forall op, In op [py "Create"; py "Delete"; py "Update"] ->
      (In op (dict_get md1 (py "methods") [])
       <-> In op (dict_get md2 (py "methods") []))) ->
   make_row (k, md1) = make_row (k, md2))
  /\ (dict_find md1 (py "methods") = None ->
      make_row (k, md1)
      = [ (py "resource", VStr k); (py "create", VBool false);
          (py "delete", VBool false); (py "update", VBool false) ]).
Proof.
  split.
  - intros H. unfold make_row.
    rewrite (set_in_ext (py "Create") _ _ (H _ (or_introl eq_refl))).
    rewrite (set_in_ext (py "Delete") _ _
               (H _ (or_intror (or_introl eq_refl)))).
    rewrite (set_in_ext (py "Update") _ _
               (H _ (or_intror (or_intror (or_introl eq_refl))))).
    reflexivity.
  - intros H. unfold make_row. rewrite dict_get_find, H. reflexivity.
Qed.

Lemma row_depends_on_membership_witness :
  make_row (py "AWS::S3::Bucket",
            [(py "methods", [py "Delete"; py "Read"; py "Create"; py "Delete"])])
  = bucket_row.
Proof.
  apply (proj1 (row_depends_on_membership (py "AWS::S3::Bucket")
                  [(py "methods",
                    [py "Delete"; py "Read"; py "Create"; py "Delete"])]
                  [(py "methods", [py "Create"; py "Delete"])])).
  intros op Hop. simpl in Hop.
  destruct Hop as [<-|[<-|[<-|[]]]]; vm_compute; split; intros H;
    repeat (destruct H as [H|H]; [try discriminate; tauto|]); tauto.
Defined.

(** ** The section replacer without backslashes *)

(** X8.  For a document and a block without backslash the replacer
    raises the section error when the pattern has no match, and
    otherwise returns the document with the span of the first match
    replaced by the block: the text before the heading, the heading
    and the text from the end boundary on are kept as they are, the
    boundary is the first position from the end of the heading on at
    which the end pattern matches, and no earlier position starts a
    match. *)
Theorem replace_without_backslash (content : pystr)
  (starting_rx ending_rx : pattern) (block : pystr) :
  ~ In backslash content -> ~ In backslash block ->
  match search starting_rx ending_rx content with
  | None =>
      replace_content_between content starting_rx ending_rx block
      = Raise (ValueError starting_rx)
  | Some m =>
      content = firstn (m_start m) content ++ group m content 1
                  ++ group m content 2 ++ skipn (m_end m) content
      /\ replace_content_between content starting_rx ending_rx block
         = Ok (firstn (m_start m) content ++ group m content 1 ++ block
                 ++ skipn (m_end m) content)
      /\ In (g1_end m) (ends (group1 starting_rx) content (m_start m))
      /\ ends (alts ending_rx) content (m_end m) <> []
      /\ (forall p, g1_end m <= p < m_end m ->
                    ends (alts ending_rx) content p = [])
      /\ (forall i, i < m_start m ->
                    match_at starting_rx ending_rx content i = None)
  end.
Proof.
  intros Hc Hb.
  destruct (search starting_rx ending_rx content) as [m|] eqn:Hs.
  - apply (replace_frame content starting_rx ending_rx block m Hs
             (no_backslash_in_group content m 1 Hc) Hb).
  - apply replace_not_found. exact Hs.
Qed.

Lemma replace_without_backslash_witness :
  replace_content_between document_AB heading_A boundary_B (py "new" ++ [nl])
  = Ok (py "### A" ++ [nl] ++ py "new" ++ [nl] ++ py "### B" ++ [nl]).
Proof.
  assert (Hc : ~ In backslash document_AB).
  { intros H. vm_compute in H. repeat (destruct H as [H|H]; [discriminate|]).
    exact H. }
  assert (Hb : ~ In backslash (py "new" ++ [nl])).
  { intros H. vm_compute in H. repeat (destruct H as [H|H]; [discriminate|]).
    exact H. }
  pose proof (replace_without_backslash document_AB heading_A boundary_B
                (py "new" ++ [nl]) Hc Hb) as H.
  change (search heading_A boundary_B document_AB)
    with (Some {| m_start := 0; g1_end := 6; m_end := 10 |}) in H.
  exact (proj1 (proj2 H)).
Defined.

(** ** When a section is found *)

(** X9.  A section is found exactly when, at some position of the
    document, the heading group matches and the end pattern matches
    at some position from the end of that heading on. *)
Theorem section_found_iff (starting_rx ending_rx : pattern) (content : pystr) :
  (exists m, search starting_rx ending_rx content = Some m)
  <-> exists i j k,
        i <= length content
        /\ In j (ends (group1 starting_rx) content i)
        /\ j <= k <= length content
        /\ ends (alts ending_rx) content k <> [].
Proof.
  split.
  - intros [m Hs].
    destruct (search_found _ _ _ Hs) as [H1 [H2 [H3 [H4 _]]]].
    exists (m_start m), (g1_end m), (m_end m). repeat split; try lia; auto.
  - intros [i [j [k [Hi [Hj [Hk Hne]]]]]].
    destruct (search starting_rx ending_rx content) as [m|] eqn:Hs; [eauto|].
    exfalso. apply Hne.
    pose proof (proj1 (search_none starting_rx ending_rx content) Hs i Hi)
      as Hm.
    unfold match_at in Hm.
    destruct (first_some _ _) as [[j' k']|] eqn:F; [discriminate|].
    apply first_some_none in F. rewrite Forall_forall in F.
    apply (@first_boundary_none _ _ _ _ (F j Hj)). lia.
Qed.

Lemma end_of_document_is_boundary (content : pystr) :
  ends (alts API_COVERAGE_HEADING_PATTERN) content (length content) <> [].
Proof.
  assert (H : In (length content)
                 (ends (alts API_COVERAGE_HEADING_PATTERN) content
                       (length content))).
  { cbn [alts API_COVERAGE_HEADING_PATTERN ends].
    apply in_or_app. right.
    unfold at_eol.
    rewrite (proj2 (nth_error_None content (length content)) (le_n _)).
    rewrite Nat.eqb_refl. cbn [flat_map]. rewrite Nat.eqb_refl.
    left. reflexivity. }
  intros E. rewrite E in H. destruct H.
Qed.

Lemma ends_end_pattern (content : pystr) (k : nat) :
  ends (alts API_COVERAGE_HEADING_PATTERN) content k
  = ends next_heading content k ++ ends (Seq Eol EndZ) content k.
Proof. reflexivity. Qed.

Lemma end_of_document_only (content : pystr) (k : nat) :
  ends (Seq Eol EndZ) content k <> [] -> k = length content.
Proof.
  intros H. cbn [ends] in H.
  destruct (at_eol content k); cbn [flat_map app] in H; [|congruence].
  destruct (Nat.eqb_spec k (length content)); [assumption|].
  cbn [app] in H. congruence.
Qed.

(** X10.  With the end pattern of the pro section, which falls back
    on the end of the document, a section is missing only when its
    heading is: the replacer raises the section error exactly when
    the heading group matches nowhere.  The section then ends at the
    first line that begins, after optional whitespace, with [##] and
    a whitespace, or at the end of the document. *)
Theorem end_of_document_fallback (starting_rx : pattern) (content block : pystr) :
  (replace_content_between content starting_rx API_COVERAGE_HEADING_PATTERN
     block = Raise (ValueError starting_rx)
   <-> ~ start_matches starting_rx content)
  /\ (forall m,
        search starting_rx API_COVERAGE_HEADING_PATTERN content = Some m ->
        (m_end m = length content \/ ends next_heading content (m_end m) <> [])
        /\ forall p, g1_end m <= p < m_end m ->
                     ends next_heading content p = []).
Proof.
  split.
  - split.
    + intros H [i [Hi Hne]].
      apply replace_raises in H as [[_ Hs]|[[H|H] _]]; [|discriminate..].
      pose proof (proj1 (search_none _ _ _) Hs i Hi) as Hm.
      unfold match_at in Hm.
      destruct (first_some _ _) as [[j' k']|] eqn:F; [discriminate|].
      apply first_some_none in F. rewrite Forall_forall in F.
      destruct (ends (group1 starting_rx) content i) as [|j l] eqn:E;
        [congruence|].
      assert (Hj : In j (ends (group1 starting_rx) content i))
        by (rewrite E; left; reflexivity).
      pose proof (@ends_bounds _ _ _ _ Hi Hj) as Hb.
      apply (end_of_document_is_boundary content).
      apply (@first_boundary_none _ _ _ _ (F j (or_introl eq_refl))). lia.
    + intros Hno. apply replace_not_found.
      apply search_none. intros i Hi. unfold match_at.
      destruct (ends (group1 starting_rx) content i) as [|x l] eqn:E;
        [reflexivity|].
      exfalso. apply Hno. exists i. split; [exact Hi|]. rewrite E.
      discriminate.
  - intros m Hs.
    destruct (search_found _ _ _ Hs) as [H1 [H2 [_ [H4 [H5 _]]]]].
    split.
    + rewrite ends_end_pattern in H4.
      destruct (ends next_heading content (m_end m)) as [|x l] eqn:E;
        [|right; discriminate].
      left. cbn [app] in H4. apply end_of_document_only. exact H4.
    + intros p Hp. specialize (H5 p Hp). rewrite ends_end_pattern in H5.
      apply app_eq_nil in H5 as [H5 _]. exact H5.
Qed.

(** ** Where a heading is found *)

(** X11.  The heading of a pattern without alternatives is found only
    at the start of a line.  The pattern of the pro heading begins
    with a newline, so that the pro section is found only where an
    empty line stands before its heading. *)
Theorem heading_at_line_start (b : regex) (ending_rx : pattern)
  (content : pystr) (m : Match) :
  search [b] ending_rx content = Some m ->
  at_bol content (m_start m) = true
  /\ ([b] = PRO_HEADING_PATTERN ->
      nth_error content (m_start m) = Some nl).
Proof.
  intros Hs.
  destruct (search_found _ _ _ Hs) as [_ [_ [H3 _]]].
  unfold group1 in H3.
  apply in_flat_map_ends in H3 as [i0 [H0 H3]].
  cbn [ends] in H0.
  destruct (at_bol content (m_start m)) eqn:B; [|destruct H0].
  destruct H0 as [<-|[]].
  split; [reflexivity|].
  intros [= ->].
  apply in_flat_map_ends in H3 as [m1 [H3 _]].
  apply in_flat_map_ends in H3 as [m2 [H3 _]].
  cbn [ends] in H3.
  destruct (nth_error content (m_start m)) as [c|]; [|destruct H3].
  cbn [in_class] in H3. destruct (N.eqb c nl) eqn:Q; [|destruct H3].
  apply N.eqb_eq in Q. rewrite Q. reflexivity.
Qed.

Lemma heading_at_line_start_witness :
  at_bol page 29 = true /\ nth_error page 29 = Some nl.
Proof.
  assert (Hs : search PRO_HEADING_PATTERN API_COVERAGE_HEADING_PATTERN page
               = Some {| m_start := 29; g1_end := 45; m_end := 53 |})
    by reflexivity.
  destruct (heading_at_line_start _ _ _ _ Hs) as [H1 H2].
  split; [exact H1 | exact (H2 eq_refl)].
Defined.

(** ** The outcomes of the driver *)

Lemma replace_plain (content : pystr) (starting_rx ending_rx : pattern)
  (block : pystr) :
  avoids backslash (group1 starting_rx) = true -> ~ In backslash block ->
  (exists updated,
     replace_content_between content starting_rx ending_rx block = Ok updated)
  \/ replace_content_between content starting_rx ending_rx block
     = Raise (ValueError starting_rx).
Proof.
  intros Hav Hb.
  destruct (search starting_rx ending_rx content) as [m|] eqn:Hs.
  - left. eexists. apply replace_found; [exact Hs | | exact Hb].
    destruct (search_found _ _ _ Hs) as [H1 [H2 [H3 _]]].
    apply (avoided_char_not_matched backslash (group1 starting_rx) content
             (m_start m) (g1_end m) Hav); [lia | exact H3].
  - right. apply replace_not_found. exact Hs.
Qed.

Lemma script_table_plain (sd : option section) (t : pystr) :
  plain_ids sd ->
  generate_table table_config (Some (transform sd)) = Ok t ->
  ~ In backslash t.
Proof.
  intros Hp Ht Hin.
  rewrite generate_table_script in Ht.
  assert (Hin' : In backslash
                   (table_text table_config
                      (_calculate_column_widths table_config (transform sd))
                      (transform sd))).
  { destruct (transform sd); injection Ht as <-; [destruct Hin | exact Hin]. }
  destruct (in_table_text backslash table_config _ (transform sd) Hin')
    as [H|[col [Hcol H]]].
  - simpl in H. repeat (destruct H as [H|H]; [discriminate|]). exact H.
  - assert (Hrow : forall r, In r (transform sd) ->
              exists k md, r = make_row (k, md) /\ ~ In backslash k).
    { intros r Hr. rewrite transform_map in Hr.
      apply in_map_iff in Hr as [[k md] [<- He]].
      exists k, md. split; [reflexivity|].
      unfold plain_ids in Hp. rewrite Forall_forall in Hp. apply Hp.
      unfold keys. apply (in_map fst _ _ He). }
    simpl in Hcol.
    destruct Hcol as [<-|[<-|[<-|[<-|[]]]]];
      (destruct H as [H|[r [Hr H]]];
       [vm_compute in H; repeat (destruct H as [H|H]; [discriminate|]);
        exact H|]);
      destruct (Hrow r Hr) as [k [md [-> Hk]]].
    + apply Hk. exact H.
    + unfold cell_text, format_value in H. cbn in H.
      destruct (set_in _ _); simpl in H;
        repeat (destruct H as [H|H]; [discriminate|]); exact H.
    + unfold cell_text, format_value in H. cbn in H.
      destruct (set_in _ _); simpl in H;
        repeat (destruct H as [H|H]; [discriminate|]); exact H.
    + unfold cell_text, format_value in H. cbn in H.
      destruct (set_in _ _); simpl in H;
        repeat (destruct H as [H|H]; [discriminate|]); exact H.
Qed.

(** ** Widths that do not cover the columns *)

Lemma skipn_nil_nth {B} (l : list B) (n : nat) :
  skipn n l = [] -> nth_error l n = None.
Proof.
  intros H. apply nth_error_None.
  apply (f_equal (@length B)) in H. rewrite length_skipn in H. simpl in H. lia.
Qed.

Lemma mapM_enumerate_item_enough {B C} (g : B -> nat -> C) (xs : list B)
  (W : list nat) (n : nat) :
  length xs <= length (skipn n W) ->
  mapM (fun '(i, x) => w <- item W i ;; Ok (g x w)) (enumerate_from n xs)
  = Ok (map (fun '(x, w) => g x w) (combine xs (skipn n W))).
Proof.
  revert n; induction xs as [|x xs IH]; intros n Hlen; [reflexivity|].
  destruct (skipn n W) as [|w t] eqn:E; [simpl in Hlen; lia|].
  apply skipn_cons_nth in E as [Hn Ht].
  cbn [enumerate_from mapM combine map]. unfold item at 1. rewrite Hn.
  cbn [bind]. rewrite IH by (rewrite Ht; simpl in Hlen; lia).
  rewrite Ht. reflexivity.
Qed.

Lemma mapM_enumerate_item_short {B C} (g : B -> nat -> C) (xs : list B)
  (W : list nat) (n : nat) :
  length (skipn n W) < length xs ->
  mapM (fun '(i, x) => w <- item W i ;; Ok (g x w)) (enumerate_from n xs)
  = Raise IndexError.
Proof.
  revert n; induction xs as [|x xs IH]; intros n Hlen; [simpl in Hlen; lia|].
  cbn [enumerate_from mapM]. unfold item at 1.
  destruct (skipn n W) as [|w t] eqn:E.
  - rewrite (skipn_nil_nth _ _ E). reflexivity.
  - apply skipn_cons_nth in E as [Hn Ht]. rewrite Hn. cbn [bind].
    rewrite IH by (rewrite Ht; simpl in Hlen; lia). reflexivity.
Qed.

Lemma mapM_enumerate_headers_enough (cols xs : list ColumnConfig)
  (W : list nat) (n : nat) :
  skipn n cols = xs ->
  length xs <= length (skipn n W) ->
  mapM (fun '(i, h) =>
          col <- item cols i ;;
          w <- item W i ;;
          Ok (_format_cell h w (alignment col)))
       (enumerate_from n (map header xs))
  = Ok (map (fun '(col, w) => _format_cell (header col) w (alignment col))
            (combine xs (skipn n W))).
Proof.
  revert n; induction xs as [|x xs IH]; intros n Hc Hlen; [reflexivity|].
  destruct (skipn n W) as [|w t] eqn:E; [simpl in Hlen; lia|].
  apply skipn_cons_nth in E as [Hn Ht].
  apply skipn_cons_nth in Hc as [Hcn Hct].
  cbn [enumerate_from mapM combine map]. unfold item at 1 2.
  rewrite Hcn, Hn. cbn [bind].
  rewrite IH by (rewrite ?Ht; simpl in Hlen; auto; lia).
  rewrite Ht. reflexivity.
Qed.

Lemma mapM_enumerate_headers_short (cols xs : list ColumnConfig)
  (W : list nat) (n : nat) :
  skipn n cols = xs ->
  length (skipn n W) < length xs ->
  mapM (fun '(i, h) =>
          col <- item cols i ;;
          w <- item W i ;;
          Ok (_format_cell h w (alignment col)))
       (enumerate_from n (map header xs))
  = Raise IndexError.
Proof.
  revert n; induction xs as [|x xs IH]; intros n Hc Hlen;
    [simpl in Hlen; lia|].
  apply skipn_cons_nth in Hc as [Hcn Hct].
  cbn [enumerate_from mapM map]. unfold item at 1 2. rewrite Hcn. cbn [bind].
  destruct (skipn n W) as [|w t] eqn:E.
  - rewrite (skipn_nil_nth _ _ E). reflexivity.
  - apply skipn_cons_nth in E as [Hn Ht]. rewrite Hn. cbn [bind].
    rewrite IH by (rewrite ?Ht; simpl in Hlen; auto; lia). reflexivity.
Qed.

(** X13.  The writers of the header row, of the separator row and of
    a data row read one width per column: with at least as many
    widths as columns they write the cells of the columns and ignore
    the widths beyond, and with fewer widths than columns they raise
    [IndexError]. *)
Theorem row_writers_need_widths (self : TableConfig) (widths : list nat)
  (writer : pystr) (r : row) :
  (length (columns self) <= length widths ->
   _write_header_row self writer widths
   = Ok (writer ++ line (header_cells self widths) ++ [nl])
   /\ _write_separator_row self writer widths
      = Ok (writer ++ separator_line (separator_cells self widths) ++ [nl])
   /\ format_row self widths r = Ok (row_cells self widths r))
  /\ (length widths < length (columns self) ->
      _write_header_row self writer widths = Raise IndexError
      /\ _write_separator_row self writer widths = Raise IndexError
      /\ format_row self widths r = Raise IndexError).
Proof.
  split; intros H.
  - split; [|split].
    + unfold _write_header_row, enumerate, get_headers.
      rewrite (mapM_enumerate_headers_enough (columns self) (columns self)
                 widths 0 eq_refl H).
      cbn [bind]. unfold line, header_cells. cbn [skipn].
      repeat rewrite <- app_assoc. reflexivity.
    + unfold _write_separator_row, enumerate.
      rewrite (mapM_enumerate_item_enough
                 (fun col w => _get_alignment_separator (alignment col) w)
                 (columns self) widths 0 H).
      cbn [bind]. unfold separator_line, separator_cells. cbn [skipn].
      repeat rewrite <- app_assoc. reflexivity.
    + exact (mapM_enumerate_item_enough
               (fun col w => _format_cell (cell_text col r) w (alignment col))
               (columns self) widths 0 H).
  - split; [|split].
    + unfold _write_header_row, enumerate, get_headers.
      rewrite (mapM_enumerate_headers_short (columns self) (columns self)
                 widths 0 eq_refl H).
      reflexivity.
    + unfold _write_separator_row, enumerate.
      rewrite (mapM_enumerate_item_short
                 (fun col w => _get_alignment_separator (alignment col) w)
                 (columns self) widths 0 H).
      reflexivity.
    + exact (mapM_enumerate_item_short
               (fun col w => _format_cell (cell_text col r) w (alignment col))
               (columns self) widths 0 H).
Qed.

Lemma row_writers_need_widths_witness :
  _write_header_row table_config [] [15; 6; 6] = Raise IndexError
  /\ format_row table_config [15; 6; 6; 6; 9] bucket_row
     = Ok (row_cells table_config [15; 6; 6; 6] bucket_row).
Proof.
  destruct (row_writers_need_widths table_config [15; 6; 6] [] bucket_row)
    as [_ H1].
  destruct (row_writers_need_widths table_config [15; 6; 6; 6; 9] []
              bucket_row) as [H2 _].
  split.
  - apply H1. vm_compute. lia.
  - apply H2. vm_compute. lia.
Defined.

(** ** Matches depend on the text up to their end *)

Lemma nth_error_prefix (s1 s2 : pystr) (L p : nat) :
  firstn L s1 = firstn L s2 -> p < L -> nth_error s1 p = nth_error s2 p.
Proof.
  intros H Hp.
  pose proof (nth_error_firstn L s1 p) as H1.
  pose proof (nth_error_firstn L s2 p) as H2.
  apply Nat.ltb_lt in Hp. rewrite Hp in H1, H2. congruence.
Qed.

Lemma run_prefix (k : cclass) (m : nat) (t1 t2 : pystr) :
  firstn m t1 = firstn m t2 ->
  Nat.min (run_length k t1) m = Nat.min (run_length k t2) m.
Proof.
  revert t1 t2; induction m as [|m IH]; intros t1 t2 H; [lia|].
  destruct t1 as [|x1 t1], t2 as [|x2 t2]; simpl in H; try discriminate;
    [reflexivity|].
  injection H as -> H. cbn [run_length].
  destruct (in_class k x2); [|reflexivity].
  specialize (IH t1 t2 H). lia.
Qed.

Lemma filter_upto_seq (i L n : nat) :
  i <= L ->
  filter (upto L) (map (fun d => i + d) (seq 0 (S n)))
  = map (fun d => i + d) (seq 0 (S (Nat.min n (L - i)))).
Proof.
  intros Hi. induction n as [|n IH].
  - cbn [seq map filter]. unfold upto.
    replace (Nat.leb (i + 0) L) with true by (symmetry; apply Nat.leb_le; lia).
    reflexivity.
  - rewrite (seq_S (S n) 0), map_app, filter_app, IH. cbn [map filter].
    unfold upto. destruct (Nat.leb_spec (i + (0 + S n)) L).
    + replace (Nat.min (S n) (L - i)) with (S n) by lia.
      replace (Nat.min n (L - i)) with n by lia.
      rewrite (seq_S (S n) 0), map_app. reflexivity.
    + replace (Nat.min (S n) (L - i)) with (Nat.min n (L - i)) by lia.
      rewrite app_nil_r. reflexivity.
Qed.

Lemma filter_flat_map {B} (p : nat -> bool) (f : B -> list nat) (l : list B) :
  filter p (flat_map f l) = flat_map (fun x => filter p (f x)) l.
Proof.
  induction l as [|x l IH]; [reflexivity|].
  cbn [flat_map]. rewrite filter_app, IH. reflexivity.
Qed.

Lemma flat_map_filter_skip (p : nat -> bool) (g : nat -> list nat)
  (l : list nat) :
  (forall x, In x l -> p x = false -> g x = []) ->
  flat_map g l = flat_map g (filter p l).
Proof.
  induction l as [|x l IH]; intros H; [reflexivity|].
  cbn [flat_map filter].
  rewrite IH by (intros y Hy; apply H; right; exact Hy).
  destruct (p x) eqn:P; [reflexivity|].
  rewrite (H x (or_introl eq_refl) P). reflexivity.
Qed.

Lemma flat_map_ext_in_nat (f g : nat -> list nat) (l : list nat) :
  (forall x, In x l -> f x = g x) -> flat_map f l = flat_map g l.
Proof.
  induction l as [|x l IH]; intros H; [reflexivity|].
  cbn [flat_map]. rewrite (H x (or_introl eq_refl)).
  rewrite IH by (intros y Hy; apply H; right; exact Hy). reflexivity.
Qed.

Lemma filter_upto_above (r : regex) (s : pystr) (L m : nat) :
  m <= length s -> upto L m = false -> filter (upto L) (ends r s m) = [].
Proof.
  intros Hm Hp. apply filter_nothing. intros j Hj.
  pose proof (@ends_bounds r s m j Hm Hj) as B.
  unfold upto in *. apply Nat.leb_gt in Hp. apply Nat.leb_gt. lia.
Qed.

(** The ends up to a position [L] of the matches that start at or
    before [L] are the same, in the same order, in two texts with the
    same first [L] characters. *)
Lemma prefix_locality (r : regex) (s1 s2 : pystr) (L : nat) :
  prefix_local r = true ->
  firstn L s1 = firstn L s2 -> L <= length s1 -> L <= length s2 ->
  forall i, i <= L ->
    filter (upto L) (ends r s1 i) = filter (upto L) (ends r s2 i).
Proof.
  intros Hloc Hpre H1 H2.
  induction r as [| k | | | | g k | a IHa b IHb | a IHa b IHb | a IHa];
    intros i Hi; simpl in Hloc; try discriminate.
  - reflexivity.
  - cbn [ends]. destruct (Nat.eq_dec i L) as [->|Hn].
    + assert (E : upto L (S L) = false) by (apply Nat.leb_gt; lia).
      destruct (nth_error s1 L) as [c1|], (nth_error s2 L) as [c2|];
        try destruct (in_class k c1); try destruct (in_class k c2);
        cbn [filter]; rewrite ?E; reflexivity.
    + rewrite (nth_error_prefix s1 s2 L i Hpre) by lia. reflexivity.
  - cbn [ends]. unfold at_bol. destruct i as [|p]; [reflexivity|].
    rewrite (nth_error_prefix s1 s2 L p Hpre) by lia. reflexivity.
  - assert (R : Nat.min (run_length k (skipn i s1)) (L - i)
                = Nat.min (run_length k (skipn i s2)) (L - i)).
    { apply run_prefix. rewrite !firstn_skipn_comm.
      replace (i + (L - i)) with L by lia. rewrite Hpre. reflexivity. }
    destruct g; cbn [ends].
    + rewrite !map_rev, !filter_rev, !filter_upto_seq, R by exact Hi.
      reflexivity.
    + rewrite !filter_upto_seq, R by exact Hi. reflexivity.
  - apply andb_true_iff in Hloc as [Ha Hb].
    specialize (IHa Ha). specialize (IHb Hb).
    cbn [ends]. rewrite !filter_flat_map.
    rewrite (flat_map_filter_skip (upto L)
               (fun x => filter (upto L) (ends b s1 x)) (ends a s1 i)).
    2:{ intros x Hx Hp. apply filter_upto_above; [|exact Hp].
        apply (@ends_bounds a s1 i x); [lia | exact Hx]. }
    rewrite (flat_map_filter_skip (upto L)
               (fun x => filter (upto L) (ends b s2 x)) (ends a s2 i)).
    2:{ intros x Hx Hp. apply filter_upto_above; [|exact Hp].
        apply (@ends_bounds a s2 i x); [lia | exact Hx]. }
    rewrite (IHa i Hi). apply flat_map_ext_in_nat.
    intros x Hx. apply filter_In in Hx as [_ Hx].
    apply IHb. apply Nat.leb_le. exact Hx.
  - apply andb_true_iff in Hloc as [Ha Hb].
    cbn [ends]. rewrite !filter_app, (IHa Ha i Hi), (IHb Hb i Hi).
    reflexivity.
Qed.

(** ** Replacing a section again *)

Lemma covered_char (s : pystr) (i p j : nat) (c : char) :
  i <= p < j -> nth_error s p = Some c -> In c (slice s i j).
Proof.
  intros H E.
  rewrite (slice_app s i p j) by lia.
  rewrite (slice_app s p (S p) j) by lia.
  rewrite (slice_one s p c E).
  apply in_or_app. right. left. reflexivity.
Qed.

Lemma first_some_skip {B C} (f : B -> option C) (l1 l2 : list B) :
  Forall (fun x => f x = None) l1 ->
  first_some f (l1 ++ l2) = first_some f l2.
Proof.
  induction l1 as [|x l1 IH]; intros H; [reflexivity|].
  inversion H as [|? ? Hx Hl]; subst. cbn [app first_some].
  rewrite Hx. apply IH. exact Hl.
Qed.

Lemma first_some_seq {C} (f : nat -> option C) (i n : nat) (m : C) :
  (forall i', i' < i -> f i' = None) -> f i = Some m -> i <= n ->
  first_some f (seq 0 (S n)) = Some (i, m).
Proof.
  intros Hb Hi Hn.
  replace (S n) with (i + S (n - i)) by lia.
  rewrite seq_app, first_some_skip.
  - cbn [seq first_some plus]. rewrite Hi. reflexivity.
  - apply Forall_forall. intros x Hx. apply in_seq in Hx. apply Hb. lia.
Qed.

Lemma firstn_heading (s : pystr) (i j : nat) :
  i <= j -> firstn i s ++ slice s i j = firstn j s.
Proof.
  intros H. apply (app_inv_tail (skipn j s)).
  rewrite <- app_assoc, <- (slice_skipn s i j H), !firstn_skipn. reflexivity.
Qed.

Section Again.

Variables (content : pystr) (starting_rx ending_rx : pattern).
Variables (m : Match) (block : pystr).

(** A document [U] that agrees with the document up to the end of
    the heading of [m] and continues with the block. *)
Variable U : pystr.

Hypothesis found : search starting_rx ending_rx content = Some m.
Hypothesis local : prefix_local (group1 starting_rx) = true.
Hypothesis next_char :
  forall c, nth_error U (g1_end m) = Some c ->
            avoids c (group1 starting_rx) = true.
Hypothesis same_start :
  firstn (g1_end m) U = firstn (g1_end m) content.
Hypothesis continues :
  g1_end m <= length U
  /\ firstn (length block) (skipn (g1_end m) U) = block.

(** A heading that starts at or before the end of the old heading
    ends there at the latest, and is a heading of the document. *)
Lemma headings_of_updated (i : nat) :
  i <= g1_end m ->
  ends (group1 starting_rx) U i
  = filter (upto (g1_end m)) (ends (group1 starting_rx) content i).
Proof.
  intros Hi.
  destruct continues as [Hj _].
  destruct (search_found _ _ _ found) as [H1 [H2 _]].
  assert (Hjc : g1_end m <= length content) by lia.
  rewrite <- (prefix_locality (group1 starting_rx) U content (g1_end m)
                local same_start Hj Hjc i Hi).
  symmetry. apply forallb_filter_id. apply forallb_forall. intros j Hin.
  apply Nat.leb_le.
  destruct (le_lt_dec j (g1_end m)) as [Hle|Hgt]; [exact Hle|].
  exfalso.
  assert (Hil : i <= length U) by lia.
  pose proof (@ends_bounds _ _ _ _ Hil Hin) as Hb.
  destruct (nth_error U (g1_end m)) as [c|] eqn:Hc;
    [|apply nth_error_None in Hc; lia].
  apply (avoided_char_not_matched c (group1 starting_rx) U i j
           (next_char c eq_refl) Hil Hin).
  apply (covered_char U i (g1_end m) j c); [lia | exact Hc].
Qed.

Lemma no_boundary_beyond (x : nat) :
  x <= m_end m ->
  first_boundary (alts ending_rx) content x (length content - x) <> None.
Proof.
  intros Hx Hnone.
  destruct (search_found _ _ _ found) as [H1 [H2 [_ [H4 _]]]].
  apply H4. apply (@first_boundary_none _ _ _ _ Hnone). lia.
Qed.

(** The section is found in [U] where it is in the document, with
    the block as its span, when the end pattern first matches
    directly after the block. *)
Lemma search_again :
  first_boundary (alts ending_rx) U (g1_end m) (length U - g1_end m)
  = Some (g1_end m + length block) ->
  search starting_rx ending_rx U
  = Some {| m_start := m_start m; g1_end := g1_end m;
            m_end := g1_end m + length block |}.
Proof.
  intros HE.
  destruct (search_found _ _ _ found) as [H1 [H2 [H3 [H4 [H5 [H6 H7]]]]]].
  destruct continues as [Hj _].
  unfold search.
  rewrite (first_some_seq (match_at starting_rx ending_rx U)
             (m_start m) (length U)
             {| m_start := m_start m; g1_end := g1_end m;
                m_end := g1_end m + length block |}); [reflexivity | | | lia].
  - intros i Hi. unfold match_at.
    rewrite headings_of_updated by lia.
    replace (first_some _ _) with (@None (nat * nat)); [reflexivity|].
    symmetry. apply first_some_none. apply Forall_forall. intros x Hx.
    exfalso. apply filter_In in Hx as [Hx Hle]. apply Nat.leb_le in Hle.
    specialize (H6 i Hi). unfold match_at in H6.
    destruct (first_some _ (ends (group1 starting_rx) content i))
      as [[j' k']|] eqn:F; [discriminate|].
    apply first_some_none in F. rewrite Forall_forall in F.
    apply (no_boundary_beyond x); [lia | exact (F x Hx)].
  - unfold match_at. rewrite headings_of_updated by lia.
    unfold match_at in H7.
    destruct (first_some _ (ends (group1 starting_rx) content (m_start m)))
      as [[j' k']|] eqn:F; [|discriminate].
    injection H7 as H7. apply first_some_found in F as [_ [l1 [l2 [Hl Hn]]]].
    assert (Ej : j' = g1_end m) by (rewrite <- H7; reflexivity).
    subst j'. rewrite Hl, filter_app.
    rewrite (filter_nothing (upto (g1_end m)) l1).
    + cbn [app filter]. unfold upto at 1. rewrite Nat.leb_refl.
      cbn [first_some]. rewrite HE. reflexivity.
    + intros x Hx. rewrite Forall_forall in Hn. specialize (Hn x Hx).
      apply Nat.leb_gt.
      destruct (le_lt_dec x (m_end m)) as [Hle|Hgt]; [|lia].
      exfalso. apply (no_boundary_beyond x Hle Hn).
Qed.

Lemma replace_unchanged :
  avoids backslash (group1 starting_rx) = true ->
  ~ In backslash block ->
  first_boundary (alts ending_rx) U (g1_end m) (length U - g1_end m)
  = Some (g1_end m + length block) ->
  replace_content_between U starting_rx ending_rx block = Ok U.
Proof.
  intros Hav Hb HE.
  pose proof (search_again HE) as Hs.
  set (m' := {| m_start := m_start m; g1_end := g1_end m;
                m_end := g1_end m + length block |}) in *.
  destruct (search_found _ _ _ Hs) as [G1 [G2 [G3 _]]].
  assert (Hh : ~ In backslash (group m' U 1)).
  { apply (avoided_char_not_matched backslash (group1 starting_rx) U
             (m_start m') (g1_end m') Hav); [lia | exact G3]. }
  destruct (replace_frame U starting_rx ending_rx block m' Hs Hh Hb)
    as [Hf [Hr _]].
  assert (E : group m' U 2 = block).
  { cbn [group m_end g1_end m']. unfold slice.
    replace (g1_end m + length block - g1_end m) with (length block) by lia.
    apply (proj2 continues). }
  rewrite Hr. f_equal.
  transitivity (firstn (m_start m') U ++ group m' U 1
                  ++ group m' U 2 ++ skipn (m_end m') U);
    [rewrite E; reflexivity | symmetry; exact Hf].
Qed.

End Again.

Lemma replaced_prefix (content : pystr) (starting_rx ending_rx : pattern)
  (m : Match) (block : pystr) :
  search starting_rx ending_rx content = Some m ->
  replaced content m block
  = firstn (g1_end m) content ++ block ++ skipn (m_end m) content
  /\ g1_end m <= length content
  /\ length (firstn (g1_end m) content) = g1_end m.
Proof.
  intros found.
  destruct (search_found _ _ _ found) as [H1 [H2 _]].
  split; [|split; [lia | rewrite length_firstn; lia]].
  unfold replaced. cbn [group].
  rewrite app_assoc, firstn_heading by lia. reflexivity.
Qed.

Lemma replaced_agrees (content : pystr) (starting_rx ending_rx : pattern)
  (m : Match) (block : pystr) :
  search starting_rx ending_rx content = Some m ->
  firstn (g1_end m) (replaced content m block) = firstn (g1_end m) content
  /\ g1_end m <= length (replaced content m block)
  /\ skipn (g1_end m) (replaced content m block)
     = block ++ skipn (m_end m) content.
Proof.
  intros found.
  destruct (replaced_prefix content starting_rx ending_rx m block found)
    as [E [Hj Hl]].
  rewrite E. split; [|split].
  - rewrite firstn_app, Hl, Nat.sub_diag. cbn [firstn].
    rewrite app_nil_r. apply firstn_all2. lia.
  - rewrite length_app. lia.
  - rewrite skipn_app, Hl, Nat.sub_diag. cbn [skipn].
    rewrite skipn_all2 by lia. reflexivity.
Qed.

Lemma replaced_continues (content : pystr) (starting_rx ending_rx : pattern)
  (m : Match) (block : pystr) :
  search starting_rx ending_rx content = Some m ->
  g1_end m <= length (replaced content m block)
  /\ firstn (length block) (skipn (g1_end m) (replaced content m block))
     = block.
Proof.
  intros found.
  destruct (replaced_agrees content starting_rx ending_rx m block found)
    as [_ [Hj Hsk]].
  split; [exact Hj|].
  rewrite Hsk, firstn_app, Nat.sub_diag, firstn_all. cbn [firstn].
  apply app_nil_r.
Qed.


Lemma updated_prefix (content : pystr) (starting_rx ending_rx : pattern)
  (m : Match) (c : char) (rest : pystr) :
  search starting_rx ending_rx content = Some m ->
  replaced content m (c :: rest)
  = firstn (g1_end m) content ++ (c :: rest) ++ skipn (m_end m) content
  /\ g1_end m <= length content
  /\ length (firstn (g1_end m) content) = g1_end m.
Proof. apply replaced_prefix. Qed.

Lemma updated_agrees (content : pystr) (starting_rx ending_rx : pattern)
  (m : Match) (c : char) (rest : pystr) :
  search starting_rx ending_rx content = Some m ->
  firstn (g1_end m) (replaced content m (c :: rest))
  = firstn (g1_end m) content
  /\ g1_end m <= length (replaced content m (c :: rest))
  /\ nth_error (replaced content m (c :: rest)) (g1_end m) = Some c
  /\ skipn (g1_end m) (replaced content m (c :: rest))
     = (c :: rest) ++ skipn (m_end m) content.
Proof.
  intros found.
  destruct (replaced_agrees content starting_rx ending_rx m (c :: rest) found)
    as [H1 [H2 H3]].
  split; [exact H1|]. split; [exact H2|]. split; [|exact H3].
  rewrite <- (Nat.add_0_r (g1_end m)), <- nth_error_skipn, H3. reflexivity.
Qed.

Lemma first_char_avoided (content : pystr) (starting_rx ending_rx : pattern)
  (m : Match) (c : char) (rest : pystr) :
  search starting_rx ending_rx content = Some m ->
  avoids c (group1 starting_rx) = true ->
  forall x, nth_error (replaced content m (c :: rest)) (g1_end m) = Some x ->
            avoids x (group1 starting_rx) = true.
Proof.
  intros found Hc x Hx.
  destruct (updated_agrees content starting_rx ending_rx m c rest found)
    as [_ [_ [H _]]].
  rewrite H in Hx. injection Hx as <-. exact Hc.
Qed.


Lemma replace_updated (content : pystr) (starting_rx ending_rx : pattern)
  (m : Match) (c : char) (rest : pystr) :
  search starting_rx ending_rx content = Some m ->
  prefix_local (group1 starting_rx) = true ->
  avoids c (group1 starting_rx) = true ->
  avoids backslash (group1 starting_rx) = true ->
  ~ In backslash (c :: rest) ->
  first_boundary (alts ending_rx) (replaced content m (c :: rest)) (g1_end m)
    (length (replaced content m (c :: rest)) - g1_end m)
  = Some (g1_end m + length (c :: rest)) ->
  replace_content_between content starting_rx ending_rx (c :: rest)
  = Ok (replaced content m (c :: rest))
  /\ replace_content_between (replaced content m (c :: rest)) starting_rx
       ending_rx (c :: rest)
     = Ok (replaced content m (c :: rest)).
Proof.
  intros found Hloc Hc Hav Hb HE.
  destruct (search_found _ _ _ found) as [H1 [H2 [H3 _]]].
  split.
  - apply replace_found; [exact found | | exact Hb].
    apply (avoided_char_not_matched backslash (group1 starting_rx) content
             (m_start m) (g1_end m) Hav); [lia | exact H3].
  - apply (replace_unchanged content starting_rx ending_rx m (c :: rest)
             (replaced content m (c :: rest)) found Hloc
             (first_char_avoided content starting_rx ending_rx m c rest found
                Hc)
             (proj1 (replaced_agrees content starting_rx ending_rx m
                       (c :: rest) found))
             (replaced_continues content starting_rx ending_rx m (c :: rest)
                found)
             Hav Hb HE).
Qed.



(** ** Matches of a pattern without [^] depend on the text from their
    start on *)

Lemma flat_map_map {B C D} (f : C -> list D) (g : B -> C) (l : list B) :
  flat_map f (map g l) = flat_map (fun x => f (g x)) l.
Proof.
  induction l as [|x l IH]; [reflexivity|].
  cbn [map flat_map]. rewrite IH. reflexivity.
Qed.

Lemma map_flat_map {B C D} (g : C -> D) (f : B -> list C) (l : list B) :
  map g (flat_map f l) = flat_map (fun x => map g (f x)) l.
Proof.
  induction l as [|x l IH]; [reflexivity|].
  cbn [flat_map]. rewrite map_app, IH. reflexivity.
Qed.

Lemma suffix_locality (r : regex) (s : pystr) (a : nat) :
  bol_free r = true -> a <= length s ->
  forall p, ends r s (a + p) = map (fun x => a + x) (ends r (skipn a s) p).
Proof.
  intros Hfree Ha.
  induction r as [| k | | | | g k | r1 IH1 r2 IH2 | r1 IH1 r2 IH2 | r1 IH1];
    intros p; simpl in Hfree; try discriminate.
  - reflexivity.
  - cbn [ends]. rewrite nth_error_skipn.
    destruct (nth_error s (a + p)) as [x|]; [|reflexivity].
    destruct (in_class k x); [|reflexivity].
    cbn [map]. rewrite Nat.add_succ_r. reflexivity.
  - cbn [ends]. unfold at_eol. rewrite nth_error_skipn, length_skipn.
    destruct (nth_error s (a + p)) as [x|].
    + destruct (N.eqb x nl); reflexivity.
    + destruct (Nat.eqb_spec (a + p) (length s)),
        (Nat.eqb_spec p (length s - a)); try reflexivity; lia.
  - cbn [ends]. rewrite length_skipn.
    destruct (Nat.eqb_spec (a + p) (length s)),
      (Nat.eqb_spec p (length s - a)); try reflexivity; lia.
  - assert (E : skipn (a + p) s = skipn p (skipn a s))
      by (rewrite skipn_skipn, (Nat.add_comm p a); reflexivity).
    destruct g; cbn [ends]; rewrite E, !map_map; apply map_ext; intros d; lia.
  - apply andb_true_iff in Hfree as [H1 H2].
    cbn [ends]. rewrite (IH1 H1 p), flat_map_map, map_flat_map.
    apply flat_map_ext. intros x. apply (IH2 H2 x).
  - apply andb_true_iff in Hfree as [H1 H2].
    cbn [ends]. rewrite (IH1 H1 p), (IH2 H2 p), map_app. reflexivity.
  - cbn [ends]. rewrite (IH1 Hfree p).
    destruct (ends r1 (skipn a s) p); reflexivity.
Qed.

(** A pattern without [^] that matches at the start of a suffix of
    one text matches where the same suffix starts in another text. *)
Lemma boundary_moves (r : regex) (s1 s2 : pystr) (a b : nat) :
  bol_free r = true -> a <= length s1 -> b <= length s2 ->
  skipn a s1 = skipn b s2 ->
  ends r s1 a <> [] -> ends r s2 b <> [].
Proof.
  intros Hfree Ha Hb Hsk H1 H2. apply H1.
  pose proof (suffix_locality r s1 a Hfree Ha 0) as E1.
  pose proof (suffix_locality r s2 b Hfree Hb 0) as E2.
  rewrite Nat.add_0_r in E1, E2. rewrite E1, Hsk.
  rewrite E2 in H2. apply map_eq_nil in H2. rewrite H2. reflexivity.
Qed.

Lemma first_boundary_at (e : regex) (s : pystr) (j q fuel : nat) :
  ends e s q <> [] ->
  (forall p, j <= p < q -> ends e s p = []) ->
  j <= q <= j + fuel ->
  first_boundary e s j fuel = Some q.
Proof.
  intros Hq Hmin Hb.
  destruct (@first_boundary_some e s fuel j q Hb Hq) as [k Hk].
  rewrite Hk. f_equal.
  apply first_boundary_found in Hk as [Hkb [Hne Hkm]].
  destruct (Nat.lt_trichotomy k q) as [Hlt|[Heq|Hgt]]; [|exact Heq|].
  - exfalso. apply Hne. apply Hmin. lia.
  - exfalso. apply Hq. apply Hkm. lia.
Qed.

(** ** The end patterns of the script *)

Lemma in_ends_literal (x : char) (s : pystr) (p j : nat) :
  In j (ends (Chr (CLit x)) s p) -> nth_error s p = Some x /\ j = S p.
Proof.
  cbn [ends in_class].
  destruct (nth_error s p) as [y|]; [|intros []].
  destruct (N.eqb_spec y x) as [->|]; [|intros []].
  intros [<-|[]]. auto.
Qed.

Lemma nonempty_in (l : list nat) : l <> [] -> exists j, In j l.
Proof. destruct l as [|j l]; [congruence|]. exists j. left. reflexivity. Qed.

Lemma pro_boundary_chars (s : pystr) (p : nat) :
  ends (alts PRO_HEADING_PATTERN) s p <> [] ->
  nth_error s p = Some nl /\ nth_error s (S p) = Some 35%N.
Proof.
  intros H. apply nonempty_in in H as [j Hj].
  cbn [alts PRO_HEADING_PATTERN] in Hj.
  apply in_flat_map_ends in Hj as [m1 [H1 Hj]].
  apply in_ends_literal in H1 as [H1 ->]. split; [exact H1|].
  apply in_flat_map_ends in Hj as [m2 [H2 _]].
  change (lits (py "####"))
    with (Seq (Chr (CLit 35%N)) (lits (py "###"))) in H2.
  apply in_flat_map_ends in H2 as [m3 [H3 _]].
  apply in_ends_literal in H3 as [H3 _]. exact H3.
Qed.

Lemma run_starts (k : cclass) (s : pystr) (p : nat) :
  0 < run_length k (skipn p s) ->
  exists x, nth_error s p = Some x /\ in_class k x = true.
Proof.
  destruct (skipn p s) as [|x t] eqn:E; cbn [run_length]; [lia|].
  apply skipn_cons_nth in E as [E _].
  destruct (in_class k x) eqn:K; [|lia].
  intros _. exists x. auto.
Qed.

Lemma next_heading_chars (s : pystr) (p : nat) :
  ends next_heading s p <> [] ->
  at_bol s p = true
  /\ exists x, nth_error s p = Some x /\ (is_space x = true \/ x = 35%N).
Proof.
  intros H. apply nonempty_in in H as [j Hj]. unfold next_heading in Hj.
  apply in_flat_map_ends in Hj as [m0 [H0 Hj]].
  cbn [ends] in H0. destruct (at_bol s p) eqn:B; [|destruct H0].
  destruct H0 as [<-|[]]. split; [reflexivity|].
  apply in_flat_map_ends in Hj as [m1 [H1 Hj]].
  apply in_star_ends in H1.
  apply in_flat_map_ends in Hj as [m2 [H2 _]].
  change (lits (py "##")) with (Seq (Chr (CLit 35%N)) (lits (py "#"))) in H2.
  apply in_flat_map_ends in H2 as [m3 [H3 _]].
  apply in_ends_literal in H3 as [H3 _].
  destruct (Nat.eq_dec m1 p) as [->|Hn].
  - exists 35%N. auto.
  - destruct (run_starts CSpace s p) as [x [Hx Hc]]; [lia|].
    exists x. split; [exact Hx | left; exact Hc].
Qed.

(** ** A table block between a heading and its end boundary *)

Lemma nth_error_after (T : pystr) (j q : nat) (block post : pystr) :
  skipn j T = block ++ post ->
  nth_error T (j + q) = nth_error (block ++ post) q.
Proof. intros H. rewrite <- H, nth_error_skipn. reflexivity. Qed.

Lemma length_after (T : pystr) (j : nat) (block post : pystr) :
  skipn j T = block ++ post -> j <= length T ->
  length T = j + length block + length post.
Proof.
  intros H Hj. apply (f_equal (@length char)) in H.
  rewrite length_skipn, length_app in H. lia.
Qed.

Lemma community_boundary_after_block (T : pystr) (j : nat)
  (block post : pystr) :
  skipn j T = block ++ post -> j <= length T -> pipe_lines block ->
  ends (alts PRO_HEADING_PATTERN) T (j + length block) <> [] ->
  first_boundary (alts PRO_HEADING_PATTERN) T j (length T - j)
  = Some (j + length block).
Proof.
  intros Hsk Hj Hlines Hk.
  pose proof (length_after T j block post Hsk Hj) as Hlen.
  apply first_boundary_at; [exact Hk | | lia].
  intros p Hp.
  destruct (ends (alts PRO_HEADING_PATTERN) T p) as [|x l] eqn:E;
    [reflexivity|].
  exfalso.
  assert (Hne : ends (alts PRO_HEADING_PATTERN) T p <> [])
    by (rewrite E; discriminate).
  apply pro_boundary_chars in Hne as [H1 H2].
  apply pro_boundary_chars in Hk as [Hk _].
  replace p with (j + (p - j)) in H1, H2 by lia.
  rewrite <- Nat.add_succ_r in H2.
  rewrite (nth_error_after T j _ block post Hsk) in H1.
  rewrite (nth_error_after T j _ block post Hsk) in H2.
  rewrite nth_error_app1 in H1 by lia.
  destruct (Hlines _ H1) as [Hq|Hq].
  - rewrite nth_error_app1 in H2
      by (apply nth_error_Some; rewrite Hq; discriminate).
    rewrite Hq in H2. discriminate.
  - apply nth_error_None in Hq.
    assert (Eq : S (p - j) = length block) by lia.
    rewrite Eq, <- (nth_error_after T j _ block post Hsk) in H2.
    rewrite Hk in H2. discriminate.
Qed.

Lemma api_boundary_after_block (T : pystr) (j : nat) (block post : pystr) :
  skipn j T = block ++ post -> j <= length T ->
  (exists rest, block = pipe :: rest) -> pipe_lines block ->
  ends (alts API_COVERAGE_HEADING_PATTERN) T (j + length block) <> [] ->
  first_boundary (alts API_COVERAGE_HEADING_PATTERN) T j (length T - j)
  = Some (j + length block).
Proof.
  intros Hsk Hj [rest Hb] Hlines Hk.
  pose proof (length_after T j block post Hsk Hj) as Hlen.
  apply first_boundary_at; [exact Hk | | lia].
  intros p Hp. rewrite ends_end_pattern.
  assert (E2 : ends (Seq Eol EndZ) T p = []).
  { destruct (ends (Seq Eol EndZ) T p) as [|x l] eqn:E; [reflexivity|].
    exfalso.
    assert (Hne : ends (Seq Eol EndZ) T p <> []) by (rewrite E; discriminate).
    apply end_of_document_only in Hne. lia. }
  rewrite E2, app_nil_r.
  destruct (ends next_heading T p) as [|x l] eqn:E; [reflexivity|].
  exfalso.
  assert (Hne : ends next_heading T p <> []) by (rewrite E; discriminate).
  apply next_heading_chars in Hne as [Hbol [y [Hy Hc]]].
  replace p with (j + (p - j)) in Hy by lia.
  rewrite (nth_error_after T j _ block post Hsk) in Hy.
  rewrite nth_error_app1 in Hy by lia.
  assert (Hpipe : y = pipe).
  { destruct (p - j) as [|q'] eqn:Q.
    - rewrite Hb in Hy. cbn [nth_error] in Hy. congruence.
    - replace p with (S (j + q')) in Hbol by lia.
      cbn [at_bol] in Hbol.
      rewrite (nth_error_after T j _ block post Hsk) in Hbol.
      rewrite nth_error_app1 in Hbol by lia.
      destruct (nth_error block q') as [z|] eqn:Z; [|discriminate].
      apply N.eqb_eq in Hbol. subst z.
      destruct (Hlines _ Z) as [Hq|Hq]; congruence. }
  subst y. destruct Hc as [Hc|Hc]; vm_compute in Hc; discriminate.
Qed.

Lemma ends_bol_seq (r : regex) (s : pystr) (p : nat) :
  ends (Seq Bol r) s p = if at_bol s p then ends r s p else [].
Proof.
  cbn [ends]. destruct (at_bol s p); cbn [flat_map]; [apply app_nil_r|].
  reflexivity.
Qed.

Lemma script_patterns_local :
  prefix_local (group1 COMMUNITY_HEADING_PATTERN) = true
  /\ prefix_local (group1 PRO_HEADING_PATTERN) = true
  /\ avoids pipe (group1 COMMUNITY_HEADING_PATTERN) = true
  /\ avoids pipe (group1 PRO_HEADING_PATTERN) = true
  /\ bol_free (alts PRO_HEADING_PATTERN) = true.
Proof. repeat split; reflexivity. Qed.

Lemma skipn_after_block (T : pystr) (j : nat) (block post : pystr) :
  skipn j T = block ++ post -> skipn (j + length block) T = post.
Proof.
  intros H. rewrite Nat.add_comm, <- skipn_skipn, H, skipn_app, Nat.sub_diag.
  rewrite skipn_all. reflexivity.
Qed.

(** After the replacement of a script section by a table block, the
    end pattern first matches directly after the block. *)
Lemma script_section_boundary (content : pystr)
  (starting_rx ending_rx : pattern) (m : Match) (rest : pystr) :
  (starting_rx = COMMUNITY_HEADING_PATTERN /\ ending_rx = PRO_HEADING_PATTERN)
  \/ (starting_rx = PRO_HEADING_PATTERN
      /\ ending_rx = API_COVERAGE_HEADING_PATTERN) ->
  table_block (pipe :: rest) ->
  search starting_rx ending_rx content = Some m ->
  first_boundary (alts ending_rx) (replaced content m (pipe :: rest))
    (g1_end m) (length (replaced content m (pipe :: rest)) - g1_end m)
  = Some (g1_end m + length (pipe :: rest)).
Proof.
  intros Hpat [Hfirst [[x Hlast] [Hlines Hplain]]] Hs.
  destruct (search_found _ _ _ Hs) as [H1 [H2 [_ [H4 _]]]].
  destruct (updated_agrees content starting_rx ending_rx m pipe rest Hs)
    as [_ [Hj [_ Hsk]]].
  set (block := pipe :: rest) in *.
  set (U := replaced content m block) in *.
  pose proof (length_after U (g1_end m) block _ Hsk Hj) as Hlen.
  pose proof (skipn_after_block U (g1_end m) block _ Hsk) as Hpost.
  destruct Hpat as [[-> ->]|[-> ->]].
  - apply (community_boundary_after_block U (g1_end m) block _ Hsk Hj Hlines).
    apply (boundary_moves (alts PRO_HEADING_PATTERN) content U (m_end m)
             (g1_end m + length block)); try reflexivity; try lia.
    + symmetry. exact Hpost.
    + exact H4.
  - apply (api_boundary_after_block U (g1_end m) block _ Hsk Hj Hfirst Hlines).
    rewrite ends_end_pattern in H4. rewrite ends_end_pattern.
    destruct (ends next_heading content (m_end m)) as [|y l] eqn:E.
    + cbn [app] in H4. apply end_of_document_only in H4.
      assert (Hnil : length (skipn (m_end m) content) = 0)
        by (rewrite length_skipn; lia).
      replace (g1_end m + length block) with (length U) by lia.
      pose proof (end_of_document_is_boundary U) as HU.
      rewrite ends_end_pattern in HU.
      intros Hn. apply HU. exact Hn.
    + intros Hn. apply app_eq_nil in Hn as [Hn _].
      assert (Hc : ends next_heading content (m_end m) <> [])
        by (rewrite E; discriminate).
      clear E. revert Hn.
      unfold next_heading in *. rewrite ends_bol_seq in Hc.
      rewrite ends_bol_seq.
      assert (Hbol : at_bol U (g1_end m + length block) = true).
      { replace (g1_end m + length block)
          with (S (g1_end m + length x))
          by (rewrite Hlast, length_app; simpl; lia).
        cbn [at_bol].
        rewrite (nth_error_after U (g1_end m) _ block _ Hsk).
        rewrite nth_error_app1 by (rewrite Hlast, length_app; simpl; lia).
        rewrite Hlast, nth_error_app2, Nat.sub_diag by lia. reflexivity. }
      rewrite Hbol. destruct (at_bol content (m_end m)); [|congruence].
      apply (boundary_moves
               (Seq (Star true CSpace) (Seq (lits (py "##")) (Chr CSpace)))
               content U (m_end m) (g1_end m + length block));
        try reflexivity; try lia.
      * symmetry. exact Hpost.
      * exact Hc.
Qed.

(** X15.  For the two sections of the script and a block of lines
    that begin with [|], with a newline at its end and without
    backslash, replacing the section and then replacing it again with
    the same block gives the same document. *)
Theorem script_section_stable (content block : pystr)
  (starting_rx ending_rx : pattern) (m : Match) :
  (starting_rx = COMMUNITY_HEADING_PATTERN /\ ending_rx = PRO_HEADING_PATTERN)
  \/ (starting_rx = PRO_HEADING_PATTERN
      /\ ending_rx = API_COVERAGE_HEADING_PATTERN) ->
  table_block block ->
  search starting_rx ending_rx content = Some m ->
  replace_content_between content starting_rx ending_rx block
  = Ok (replaced content m block)
  /\ replace_content_between (replaced content m block) starting_rx ending_rx
       block
     = Ok (replaced content m block).
Proof.
  intros Hpat Hblock Hs.
  destruct Hblock as [[rest ->] Hrest].
  assert (Hb : table_block (pipe :: rest))
    by (split; [exists rest; reflexivity | exact Hrest]).
  pose proof (script_section_boundary content starting_rx ending_rx m rest
                Hpat Hb Hs) as HE.
  destruct Hrest as [_ [_ Hplain]].
  destruct script_patterns_local as [L1 [L2 [A1 [A2 _]]]].
  destruct script_headings_avoid_backslash as [B1 B2].
  destruct Hpat as [[-> ->]|[-> ->]].
  - apply (replace_updated content _ _ m pipe rest Hs L1 A1 B1 Hplain HE).
  - apply (replace_updated content _ _ m pipe rest Hs L2 A2 B2 Hplain HE).
Qed.

Lemma script_section_stable_witness :
  let block := py "| new |" ++ [nl] in
  replace_content_between
    (replaced page {| m_start := 0; g1_end := 21; m_end := 29 |} block)
    COMMUNITY_HEADING_PATTERN PRO_HEADING_PATTERN block
  = Ok (replaced page {| m_start := 0; g1_end := 21; m_end := 29 |} block).
Proof.
  intros block.
  assert (Hb : table_block block).
  { split; [eexists; reflexivity|]. split; [exists (py "| new |"); reflexivity|].
    split.
    - intros q Hq.
      do 8 (destruct q as [|q];
            [first [discriminate | left; reflexivity | right; reflexivity]|]).
      destruct q; discriminate.
    - intros H. vm_compute in H.
      repeat (destruct H as [H|H]; [discriminate|]). exact H. }
  apply (script_section_stable page block COMMUNITY_HEADING_PATTERN
           PRO_HEADING_PATTERN _ (or_introl (conj eq_refl eq_refl)) Hb eq_refl).
Defined.

(** ** The lines of a table *)

Lemma pipe_lines_lines (ls : list pystr) :
  (forall l, In l ls -> (exists r, l = pipe :: r) /\ ~ In nl l) ->
  pipe_lines (concat (map (fun l => l ++ [nl]) ls)).
Proof.
  induction ls as [|l ls IH]; intros H q Hq.
  - destruct q; discriminate.
  - specialize (IH (fun x Hx => H x (or_intror Hx))).
    destruct (H l (or_introl eq_refl)) as [_ Hnl].
    cbn [map concat] in Hq |- *.
    set (t' := concat (map (fun l => l ++ [nl]) ls)) in *.
    assert (Hl : length (l ++ [nl]) = S (length l))
      by (rewrite length_app; simpl; lia).
    destruct (Nat.lt_trichotomy q (length l)) as [Hlt|[Heq|Hgt]].
    + exfalso. apply Hnl.
      rewrite nth_error_app1 in Hq by lia.
      rewrite nth_error_app1 in Hq by lia.
      apply (nth_error_In _ _ Hq).
    + subst q. rewrite nth_error_app2 by lia. rewrite Hl, Nat.sub_diag.
      destruct ls as [|l2 ls'].
      * right. reflexivity.
      * left. destruct (H l2 (or_intror (or_introl eq_refl))) as [[r ->] _].
        reflexivity.
    + rewrite nth_error_app2 in Hq by lia.
      rewrite nth_error_app2 by lia.
      replace (S q - length (l ++ [nl])) with (S (q - length (l ++ [nl])))
        by lia.
      apply IH. exact Hq.
Qed.

Lemma table_text_lines (self : TableConfig) (widths : list nat)
  (data : list row) :
  table_text self widths data
  = concat (map (fun l => l ++ [nl])
                (line (header_cells self widths)
                   :: separator_line (separator_cells self widths)
                   :: map (fun r => line (row_cells self widths r)) data)).
Proof.
  unfold table_text. cbn [map concat]. rewrite map_map.
  repeat rewrite <- app_assoc. reflexivity.
Qed.

Lemma script_header_chars (col : ColumnConfig) (c : char) :
  In col (columns table_config) -> In c (header col) ->
  c <> nl /\ c <> backslash.
Proof.
  intros Hcol Hc. simpl in Hcol.
  destruct Hcol as [<-|[<-|[<-|[<-|[]]]]]; vm_compute in Hc;
    repeat (destruct Hc as [<-|Hc]; [split; discriminate|]); destruct Hc.
Qed.

Lemma script_cell_chars (col : ColumnConfig) (k : pystr) (md : metadata)
  (c : char) :
  In col (columns table_config) ->
  In c (cell_text col (make_row (k, md))) ->
  In c k \/ (c <> nl /\ c <> backslash).
Proof.
  intros Hcol Hc. simpl in Hcol.
  destruct Hcol as [<-|[<-|[<-|[<-|[]]]]].
  - left. exact Hc.
  - right. unfold cell_text, format_value in Hc. cbn in Hc.
    destruct (set_in _ _); simpl in Hc;
      repeat (destruct Hc as [<-|Hc]; [split; discriminate|]); destruct Hc.
  - right. unfold cell_text, format_value in Hc. cbn in Hc.
    destruct (set_in _ _); simpl in Hc;
      repeat (destruct Hc as [<-|Hc]; [split; discriminate|]); destruct Hc.
  - right. unfold cell_text, format_value in Hc. cbn in Hc.
    destruct (set_in _ _); simpl in Hc;
      repeat (destruct Hc as [<-|Hc]; [split; discriminate|]); destruct Hc.
Qed.

Lemma line_starts_with_pipe (cells : list pystr) :
  exists r, line cells = pipe :: r.
Proof. unfold line. eexists. reflexivity. Qed.

Lemma separator_line_starts_with_pipe (cells : list pystr) :
  exists r, separator_line cells = pipe :: r.
Proof. unfold separator_line. eexists. reflexivity. Qed.

(** The table of a section with a resource, whose identifiers hold
    no newline, is made of lines that begin with [|]. *)
Lemma script_table_lines (sd : option section) (t : pystr) :
  one_line_ids sd -> entries sd <> [] ->
  generate_table table_config (Some (transform sd)) = Ok t ->
  (exists rest, t = pipe :: rest) /\ (exists x, t = x ++ [nl])
  /\ pipe_lines t.
Proof.
  intros Ho Hne Ht.
  rewrite generate_table_script in Ht.
  destruct (transform sd) as [|r rows] eqn:Er.
  { rewrite transform_map in Er. destruct (entries sd); [congruence|].
    discriminate. }
  injection Ht as <-.
  set (data := r :: rows) in *.
  set (widths := _calculate_column_widths table_config data) in *.
  assert (Hrow : forall x, In x data ->
            exists k md, x = make_row (k, md) /\ ~ In nl k).
  { intros x Hx. rewrite <- Er, transform_map in Hx.
    apply in_map_iff in Hx as [[k md] [<- He]].
    exists k, md. split; [reflexivity|].
    unfold one_line_ids in Ho. rewrite Forall_forall in Ho. apply Ho.
    unfold keys. apply (in_map fst _ _ He). }
  split; [|split].
  - unfold table_text.
    destruct (line_starts_with_pipe (header_cells table_config widths))
      as [x ->].
    eexists. reflexivity.
  - destruct (table_text_ends_with_pipe table_config widths data) as [x ->].
    exists (x ++ [pipe]). rewrite <- app_assoc. reflexivity.
  - rewrite table_text_lines. apply pipe_lines_lines.
    intros l [<-|[<-|Hl]].
    + split; [apply line_starts_with_pipe|].
      apply no_newline_in_line. intros p Hin.
      unfold header_cells in Hin.
      apply in_map_iff in Hin as [[col w] [<- Hin]].
      apply in_combine_l in Hin. apply no_newline_in_cell.
      intros Hc. apply (proj1 (script_header_chars col nl Hin Hc)).
      reflexivity.
    + split; [apply separator_line_starts_with_pipe|].
      apply no_newline_in_separator_line.
    + apply in_map_iff in Hl as [x [<- Hx]].
      split; [apply line_starts_with_pipe|].
      apply no_newline_in_line. intros p Hin.
      unfold row_cells in Hin.
      apply in_map_iff in Hin as [[col w] [<- Hin]].
      apply in_combine_l in Hin. apply no_newline_in_cell.
      destruct (Hrow x Hx) as [k [md [-> Hk]]].
      intros Hc.
      destruct (script_cell_chars col k md nl Hin Hc) as [H|[H _]];
        [exact (Hk H) | apply H; reflexivity].
Qed.

(** X16.  The table that the script renders for a section with at
    least one resource, whose identifiers hold neither a backslash
    nor a newline, begins with [|], ends with a newline, holds no
    backslash, and each of its newlines is its last character or is
    followed by [|]. *)
Theorem script_table_is_block (sd : option section) (t : pystr) :
  plain_ids sd -> one_line_ids sd -> entries sd <> [] ->
  generate_table table_config (Some (transform sd)) = Ok t ->
  table_block t.
Proof.
  intros Hp Ho Hne Ht.
  destruct (script_table_lines sd t Ho Hne Ht) as [Hfirst [Hlast Hlines]].
  split; [exact Hfirst|]. split; [exact Hlast|]. split; [exact Hlines|].
  intros Hin. apply (script_table_plain sd t Hp Ht). exact Hin.
Qed.

Lemma script_table_is_block_witness :
  table_block (table_text table_config [15; 6; 6; 6] [bucket_row]).
Proof.
  assert (Hp : plain_ids (Some bucket_section)).
  { repeat constructor. intros H. vm_compute in H.
    repeat (destruct H as [H|H]; [discriminate|]). exact H. }
  assert (Ho : one_line_ids (Some bucket_section)).
  { repeat constructor. intros H. vm_compute in H.
    repeat (destruct H as [H|H]; [discriminate|]). exact H. }
  apply (script_table_is_block (Some bucket_section) _ Hp Ho);
    [discriminate | reflexivity].
Defined.

(** ** A second run of the driver *)

Lemma firstn_shorter {B} (s1 s2 : list B) (L n : nat) :
  firstn L s1 = firstn L s2 -> n <= L -> firstn n s1 = firstn n s2.
Proof.
  intros H Hn.
  rewrite <- (Nat.min_l n L Hn), <- !firstn_firstn, H. reflexivity.
Qed.

Lemma span_of_prefix (s1 s2 : pystr) (L j n : nat) :
  firstn L s1 = firstn L s2 -> j + n <= L ->
  firstn n (skipn j s1) = firstn n (skipn j s2).
Proof.
  intros H Hn. rewrite !firstn_skipn_comm.
  rewrite (firstn_shorter s1 s2 L (j + n) H Hn). reflexivity.
Qed.

(** A heading of the pro section starts with a match of its pattern. *)
Lemma pro_heading_is_boundary (s : pystr) (i j : nat) :
  In j (ends (group1 PRO_HEADING_PATTERN) s i) ->
  ends (alts PRO_HEADING_PATTERN) s i <> [].
Proof.
  unfold PRO_HEADING_PATTERN. cbn [group1 alts].
  rewrite ends_bol_seq. destruct (at_bol s i); [|intros []].
  intros H. apply in_flat_map_ends in H as [x [Hx _]].
  intros E. rewrite E in Hx. destruct Hx.
Qed.

(** The community section of the document after both replacements is
    the community table, when the pro section starts at its end. *)
Lemma community_section_kept (content : pystr) (m1 m2 : Match)
  (rc rp : pystr) :
  table_block (pipe :: rc) ->
  search COMMUNITY_HEADING_PATTERN PRO_HEADING_PATTERN content = Some m1 ->
  search PRO_HEADING_PATTERN API_COVERAGE_HEADING_PATTERN
    (replaced content m1 (pipe :: rc)) = Some m2 ->
  m_start m2 = g1_end m1 + length (pipe :: rc) ->
  replace_content_between
    (replaced (replaced content m1 (pipe :: rc)) m2 (pipe :: rp))
    COMMUNITY_HEADING_PATTERN PRO_HEADING_PATTERN (pipe :: rc)
  = Ok (replaced (replaced content m1 (pipe :: rc)) m2 (pipe :: rp)).
Proof.
  intros [_ [_ [Hlines Hplain]]] Hs1 Hs2 Hlink.
  destruct (updated_agrees content _ _ m1 pipe rc Hs1) as [A1 [A2 [_ A4]]].
  destruct (updated_agrees _ _ _ m2 pipe rp Hs2) as [B1 [B2 _]].
  destruct (search_found _ _ _ Hs2) as [G1 [G2 [G3 _]]].
  set (ct := pipe :: rc) in *.
  set (D1 := replaced content m1 ct) in *.
  set (D2 := replaced D1 m2 (pipe :: rp)) in *.
  destruct script_patterns_local as [L1 [_ [P1 _]]].
  assert (Hsame : firstn (g1_end m1) D2 = firstn (g1_end m1) content).
  { rewrite <- A1. apply (firstn_shorter D2 D1 (g1_end m2) _ B1). lia. }
  assert (Hspan : firstn (length ct) (skipn (g1_end m1) D2) = ct).
  { rewrite (span_of_prefix D2 D1 (g1_end m2) (g1_end m1) (length ct) B1)
      by lia.
    rewrite A4, firstn_app, Nat.sub_diag, firstn_all. cbn [firstn].
    apply app_nil_r. }
  assert (Hsk : skipn (g1_end m1) D2
                = ct ++ skipn (length ct) (skipn (g1_end m1) D2)).
  { transitivity (firstn (length ct) (skipn (g1_end m1) D2)
                    ++ skipn (length ct) (skipn (g1_end m1) D2));
      [symmetry; apply firstn_skipn | rewrite Hspan; reflexivity]. }
  assert (Hj : g1_end m1 <= length D2) by lia.
  assert (Hnext : forall x, nth_error D2 (g1_end m1) = Some x ->
            avoids x (group1 COMMUNITY_HEADING_PATTERN) = true).
  { intros x Hx.
    rewrite <- (Nat.add_0_r (g1_end m1)), <- nth_error_skipn, Hsk in Hx.
    injection Hx as <-. exact P1. }
  apply (replace_unchanged content COMMUNITY_HEADING_PATTERN
           PRO_HEADING_PATTERN m1 ct D2 Hs1 L1 Hnext Hsame
           (conj Hj Hspan)
           (proj1 script_headings_avoid_backslash) Hplain).
  apply (community_boundary_after_block D2 (g1_end m1) ct _ Hsk Hj Hlines).
  fold ct. rewrite <- Hlink.
  apply (pro_heading_is_boundary D2 (m_start m2) (g1_end m2)).
  assert (Hin : In (g1_end m2)
                  (filter (upto (g1_end m2))
                     (ends (group1 PRO_HEADING_PATTERN) D1 (m_start m2)))).
  { apply filter_In. split; [exact G3 | apply Nat.leb_refl]. }
  rewrite (prefix_locality (group1 PRO_HEADING_PATTERN) D1 D2 (g1_end m2)
             (proj1 (proj2 script_patterns_local)) (eq_sym B1)) in Hin
    by lia.
  apply filter_In in Hin as [Hin _]. exact Hin.
Qed.

(** ** Matches move with the text behind their start *)




(** ** Idempotence of the section replacer *)




(** ** The document file *)

Lemma to_N_byte_of (n : N) : (n <= 255)%N -> Byte.to_N (byte_of n) = n.
Proof.
  intros H. unfold byte_of. destruct (Byte.of_N n) as [b|] eqn:E.
  - apply Byte.to_of_N. exact E.
  - apply Byte.of_N_None_iff in E. lia.
Qed.

Lemma continuation_byte_of (x : N) :
  (x < 64)%N -> continuation (byte_of (128 + x)) = Some x.
Proof.
  intros H. unfold continuation. rewrite to_N_byte_of by lia.
  destruct (N.leb_spec 128 (128 + x)); [|lia].
  destruct (N.ltb_spec (128 + x) 192); [|lia].
  cbn [andb]. f_equal. lia.
Qed.

Lemma div_mod_64 (c : N) : (c = c / 64 * 64 + c mod 64 /\ c mod 64 < 64)%N.
Proof.
  split; [|apply N.mod_lt; discriminate].
  rewrite (N.mul_comm (c / 64) 64). apply N.div_mod. discriminate.
Qed.

Lemma some_eq {B} (x y : B) : Some x = Some y -> x = y.
Proof. congruence. Qed.

Lemma utf_8_decode_char (c : char) (b rest : list Byte.byte) :
  utf_8_encode_char c = Some b ->
  utf_8_decode (b ++ rest) = option_map (cons c) (utf_8_decode rest).
Proof.
  unfold utf_8_encode_char.
  destruct (N.ltb_spec c 128) as [H1|H1].
  { intros E; apply some_eq in E; subst b. cbn [app utf_8_decode]. rewrite to_N_byte_of by lia.
    destruct (N.ltb_spec c 128); [reflexivity | lia]. }
  destruct (div_mod_64 c) as [E0 M0].
  destruct (N.ltb_spec c 2048) as [H2|H2].
  { intros E; apply some_eq in E; subst b. cbn [app utf_8_decode].
    assert (D : (c / 64 < 32)%N) by (apply N.Div0.div_lt_upper_bound; lia).
    assert (D' : (2 <= c / 64)%N) by (apply N.div_le_lower_bound; lia).
    rewrite to_N_byte_of by lia.
    destruct (N.ltb_spec (192 + c / 64) 128); [lia|].
    destruct (N.ltb_spec (192 + c / 64) 192); [lia|].
    destruct (N.ltb_spec (192 + c / 64) 224); [|lia].
    rewrite continuation_byte_of by exact M0.
    replace ((192 + c / 64 - 192) * 64 + c mod 64)%N with c by lia.
    destruct (N.ltb_spec c 128); [lia | reflexivity]. }
  destruct (div_mod_64 (c / 64)) as [E1 M1].
  destruct (N.ltb_spec c 65536) as [H3|H3].
  { destruct ((55296 <=? c) && (c <=? 57343))%N eqn:S; [discriminate|].
    intros E; apply some_eq in E; subst b. cbn [app utf_8_decode].
    assert (Q : (c / 4096 = c / 64 / 64)%N)
      by (rewrite N.Div0.div_div; reflexivity).
    assert (D : (c / 4096 < 16)%N) by (apply N.Div0.div_lt_upper_bound; lia).
    rewrite to_N_byte_of by lia.
    destruct (N.ltb_spec (224 + c / 4096) 128); [lia|].
    destruct (N.ltb_spec (224 + c / 4096) 192); [lia|].
    destruct (N.ltb_spec (224 + c / 4096) 224); [lia|].
    destruct (N.ltb_spec (224 + c / 4096) 240); [|lia].
    rewrite !continuation_byte_of by assumption.
    replace ((224 + c / 4096 - 224) * 4096 + c / 64 mod 64 * 64 + c mod 64)%N
      with c by lia.
    rewrite S. destruct (N.ltb_spec c 2048); [lia | reflexivity]. }
  destruct (div_mod_64 (c / 64 / 64)) as [E2 M2].
  destruct (N.ltb_spec c 1114112) as [H4|H4]; [|discriminate].
  intros E; apply some_eq in E; subst b. cbn [app utf_8_decode].
  assert (Q1 : (c / 4096 = c / 64 / 64)%N)
    by (rewrite N.Div0.div_div; reflexivity).
  assert (Q2 : (c / 262144 = c / 64 / 64 / 64)%N)
    by (rewrite !N.Div0.div_div; reflexivity).
  assert (D : (c / 262144 < 5)%N) by (apply N.Div0.div_lt_upper_bound; lia).
  rewrite to_N_byte_of by lia.
  destruct (N.ltb_spec (240 + c / 262144) 128); [lia|].
  destruct (N.ltb_spec (240 + c / 262144) 192); [lia|].
  destruct (N.ltb_spec (240 + c / 262144) 224); [lia|].
  destruct (N.ltb_spec (240 + c / 262144) 240); [lia|].
  destruct (N.ltb_spec (240 + c / 262144) 248); [|lia].
  rewrite Q1 at 1. rewrite !continuation_byte_of by assumption.
  replace ((240 + c / 262144 - 240) * 262144 + c / 64 / 64 mod 64 * 4096
           + c / 64 mod 64 * 64 + c mod 64)%N with c by lia.
  destruct (N.ltb_spec c 65536); [lia|].
  destruct (N.leb_spec 1114112 c); [lia | reflexivity].
Qed.

(** What is written as UTF-8 is read as it was written. *)
Lemma utf_8_decode_encode (text : pystr) (data : list Byte.byte) :
  utf_8_encode text = Some data -> utf_8_decode data = Some text.
Proof.
  revert data; induction text as [|c rest IH]; intros data.
  - intros [= <-]. reflexivity.
  - cbn [utf_8_encode].
    destruct (utf_8_encode_char c) as [b|] eqn:E; [|discriminate].
    destruct (utf_8_encode rest) as [bs|]; [|discriminate].
    intros [= <-]. rewrite (utf_8_decode_char c b bs E), (IH bs eq_refl).
    reflexivity.
Qed.

Lemma universal_newlines_no_return (text : pystr) :
  ~ In cr (universal_newlines text).
Proof.
  assert (H : forall n text, length text <= n ->
            ~ In cr (universal_newlines text)).
  { clear text. induction n as [|n IH]; intros [|c rest] Hlen; simpl in Hlen;
      try lia; try (intros []).
    cbn [universal_newlines].
    destruct (N.eqb_spec c cr) as [->|Hc].
    - destruct rest as [|d rest'].
      + intros [H|[]]. discriminate.
      + destruct (N.eqb d nl); intros [H|H]; try discriminate;
          revert H; apply IH; simpl in *; lia.
    - intros [H|H]; [congruence|]. revert H. apply IH. lia. }
  apply (H (length text)). lia.
Qed.

Lemma universal_newlines_id (text : pystr) :
  ~ In cr text -> universal_newlines text = text.
Proof.
  induction text as [|c rest IH]; intros Hno; [reflexivity|].
  cbn [universal_newlines].
  destruct (N.eqb_spec c cr) as [->|Hc]; [exfalso; apply Hno; left; reflexivity|].
  rewrite IH; [reflexivity|]. intros H. apply Hno. right. exact H.
Qed.

(** A text without [\r], written with the line separator [\n] or
    [\r\n], is read as it was written. *)
Lemma read_written_newlines (linesep text : pystr) :
  linesep = [nl] \/ linesep = [cr; nl] ->
  ~ In cr text ->
  universal_newlines (write_newlines linesep text) = text.
Proof.
  intros Hsep. induction text as [|c rest IH]; intros Hno; [reflexivity|].
  assert (Hc : c <> cr) by (intros ->; apply Hno; left; reflexivity).
  assert (Hr : ~ In cr rest) by (intros H; apply Hno; right; exact H).
  specialize (IH Hr).
  unfold write_newlines in *. cbn [flat_map].
  destruct (N.eqb_spec c nl) as [->|Hn].
  - destruct Hsep as [-> | ->]; cbn [app universal_newlines].
    + change (N.eqb nl cr) with false. cbv iota. rewrite IH. reflexivity.
    + change (N.eqb cr cr) with true. change (N.eqb nl nl) with true.
      cbv iota. rewrite IH. reflexivity.
  - cbn [app universal_newlines].
    destruct (N.eqb_spec c cr); [contradiction|]. rewrite IH. reflexivity.
Qed.

Lemma in_replaced (content : pystr) (m : Match) (block : pystr) (c : char) :
  In c (replaced content m block) -> In c content \/ In c block.
Proof.
  unfold replaced. intros H.
  apply in_app_or in H as [H|H].
  { left. rewrite <- (firstn_skipn (m_start m) content).
    apply in_or_app. left. exact H. }
  apply in_app_or in H as [H|H].
  { left. cbn [group] in H. apply in_slice in H. exact H. }
  apply in_app_or in H as [H|H]; [right; exact H|].
  left. rewrite <- (firstn_skipn (m_end m) content).
  apply in_or_app. right. exact H.
Qed.

(** ** The driver *)

Lemma main_exits (p : platform) (w : world) (code : N) :
  exit_code w = Some code -> main p w = (Raise (SystemExit code), w).
Proof. intros H. unfold main, parse_args. rewrite H. reflexivity. Qed.

Lemma main_without_catalog (p : platform) (w : world) (e : exn) :
  parse_args w = Ok tt -> _load_cfn_file w = Raise e ->
  main p w = (Raise e, w).
Proof. intros Ha Hl. unfold main. rewrite Ha, Hl. reflexivity. Qed.

Lemma main_without_document (p : platform) (w : world)
  (cfn_catalog : dict section) (e : exn) :
  parse_args w = Ok tt -> _load_cfn_file w = Ok cfn_catalog ->
  read_text w = Raise e ->
  main p w = (Raise e, w).
Proof.
  intros Ha Hl Hr. unfold main. rewrite Ha, Hl.
  destruct (tables_ok cfn_catalog) as [ct [pt Ht]]. rewrite Ht, Hr.
  reflexivity.
Qed.

(** The run from the two tables and the text of the document on. *)
Lemma main_runs (p : platform) (w : world) (cfn_catalog : dict section)
  (community_table pro_table original_doc : pystr) :
  parse_args w = Ok tt -> _load_cfn_file w = Ok cfn_catalog ->
  tables cfn_catalog = Ok (community_table, pro_table) ->
  read_text w = Ok original_doc ->
  main p w
  = match replace_content_between original_doc COMMUNITY_HEADING_PATTERN
            PRO_HEADING_PATTERN community_table with
    | Raise e => (Raise e, log (Replacing COMMUNITY_HEADING_PATTERN) w)
    | Ok updated_doc =>
        let w := log (Replacing PRO_HEADING_PATTERN)
                   (log (Replacing COMMUNITY_HEADING_PATTERN) w) in
        match replace_content_between updated_doc PRO_HEADING_PATTERN
                API_COVERAGE_HEADING_PATTERN pro_table with
        | Raise e => (Raise e, w)
        | Ok updated_doc =>
            if negb (pystr_eqb updated_doc original_doc)
            then write_text p updated_doc w
            else (Ok tt, w)
        end
    end.
Proof.
  intros Ha Hl Ht Hr. unfold main. rewrite Ha, Hl, Ht, Hr. reflexivity.
Qed.


Lemma main_unchanged (p : platform) (w : world) (cfn_catalog : dict section)
  (community_table pro_table original_doc : pystr) :
  parse_args w = Ok tt -> _load_cfn_file w = Ok cfn_catalog ->
  tables cfn_catalog = Ok (community_table, pro_table) ->
  read_text w = Ok original_doc ->
  replace_content_between original_doc COMMUNITY_HEADING_PATTERN
    PRO_HEADING_PATTERN community_table = Ok original_doc ->
  replace_content_between original_doc PRO_HEADING_PATTERN
    API_COVERAGE_HEADING_PATTERN pro_table = Ok original_doc ->
  main p w
  = (Ok tt, log (Replacing PRO_HEADING_PATTERN)
              (log (Replacing COMMUNITY_HEADING_PATTERN) w)).
Proof.
  intros Ha Hl Ht Hr H1 H2.
  rewrite (main_runs p w cfn_catalog _ _ _ Ha Hl Ht Hr), H1. cbv zeta.
  rewrite H2, pystr_eqb_refl. reflexivity.
Qed.

Lemma written_write_text (p : platform) (data : pystr) (w : world) :
  written (snd (write_text p data w)) = written w
  \/ written (snd (write_text p data w)) = written w ++ [data].
Proof.
  unfold write_text. destruct (md_read_only w); [left; reflexivity|].
  destruct (locale p _); cbn [snd]; [right | left; reflexivity].
  unfold written. cbn [trace]. rewrite flat_map_app. reflexivity.
Qed.





(** ** The outcomes of the driver *)

Lemma script_table_return_free (sd : option section) (t : pystr) :
  return_free_ids sd ->
  generate_table table_config (Some (transform sd)) = Ok t ->
  ~ In cr t.
Proof.
  intros Hp Ht Hin.
  rewrite generate_table_script in Ht.
  assert (Hin' : In cr
                   (table_text table_config
                      (_calculate_column_widths table_config (transform sd))
                      (transform sd))).
  { destruct (transform sd); injection Ht as <-; [destruct Hin | exact Hin]. }
  destruct (in_table_text cr table_config _ (transform sd) Hin')
    as [H|[col [Hcol H]]].
  - simpl in H. repeat (destruct H as [H|H]; [discriminate|]). exact H.
  - assert (Hrow : forall r, In r (transform sd) ->
              exists k md, r = make_row (k, md) /\ ~ In cr k).
    { intros r Hr. rewrite transform_map in Hr.
      apply in_map_iff in Hr as [[k md] [<- He]].
      exists k, md. split; [reflexivity|].
      unfold return_free_ids in Hp. rewrite Forall_forall in Hp. apply Hp.
      unfold keys. apply (in_map fst _ _ He). }
    simpl in Hcol.
    destruct Hcol as [<-|[<-|[<-|[<-|[]]]]];
      (destruct H as [H|[r [Hr H]]];
       [vm_compute in H; repeat (destruct H as [H|H]; [discriminate|]);
        exact H|]);
      destruct (Hrow r Hr) as [k [md [-> Hk]]].
    + apply Hk. exact H.
    + unfold cell_text, format_value in H. cbn in H.
      destruct (set_in _ _); simpl in H;
        repeat (destruct H as [H|H]; [discriminate|]); exact H.
    + unfold cell_text, format_value in H. cbn in H.
      destruct (set_in _ _); simpl in H;
        repeat (destruct H as [H|H]; [discriminate|]); exact H.
    + unfold cell_text, format_value in H. cbn in H.
      destruct (set_in _ _); simpl in H;
        repeat (destruct H as [H|H]; [discriminate|]); exact H.
Qed.

Lemma tables_of_sections (cfn_catalog : dict section)
  (community_table pro_table : pystr) :
  tables cfn_catalog = Ok (community_table, pro_table) ->
  generate_table table_config
    (Some (transform (dict_find cfn_catalog (py "community"))))
  = Ok community_table
  /\ generate_table table_config
       (Some (transform (dict_find cfn_catalog (py "pro"))))
     = Ok pro_table.
Proof.
  unfold tables. rewrite !generate_table_script. cbn [bind].
  intros [= <- <-]. split; reflexivity.
Qed.

(** X12.  The driver stops with the exit of the argument parser, with
    what loading the catalog raises or with what reading the document
    raises, and the document file is then as before.  With the catalog
    and the text read, and no backslash in a resource identifier, it
    raises the section error of the community heading or of the pro
    heading, with the file as before, or both replacements succeed.
    Then it writes nothing when the text is the text read.  Otherwise
    it writes: a file that cannot be opened for writing stays as it
    is and [OSError] is raised; a text that the locale cannot encode
    leaves the file empty and [UnicodeEncodeError] is raised; else the
    file holds the encoded text, with the line separator of the
    platform for every newline. *)
Theorem main_outcomes (p : platform) (w : world) :
  (forall code, exit_code w = Some code ->
     main p w = (Raise (SystemExit code), w))
  /\ (forall e, parse_args w = Ok tt -> _load_cfn_file w = Raise e ->
        main p w = (Raise e, w))
  /\ (forall cfn_catalog e,
        parse_args w = Ok tt -> _load_cfn_file w = Ok cfn_catalog ->
        read_text w = Raise e ->
        main p w = (Raise e, w))
  /\ (forall cfn_catalog original_doc,
        parse_args w = Ok tt -> _load_cfn_file w = Ok cfn_catalog ->
        read_text w = Ok original_doc ->
        plain_ids (dict_find cfn_catalog (py "community")) ->
        plain_ids (dict_find cfn_catalog (py "pro")) ->
        let w' := snd (main p w) in
        (fst (main p w) = Raise (ValueError COMMUNITY_HEADING_PATTERN)
         /\ md_file w' = md_file w /\ written w' = written w)
        \/ (fst (main p w) = Raise (ValueError PRO_HEADING_PATTERN)
            /\ md_file w' = md_file w /\ written w' = written w)
        \/ (exists community_table pro_table updated updated_doc,
              tables cfn_catalog = Ok (community_table, pro_table)
              /\ replace_content_between original_doc
                   COMMUNITY_HEADING_PATTERN PRO_HEADING_PATTERN
                   community_table = Ok updated
              /\ replace_content_between updated PRO_HEADING_PATTERN
                   API_COVERAGE_HEADING_PATTERN pro_table = Ok updated_doc
              /\ ((updated_doc = original_doc
                   /\ fst (main p w) = Ok tt
                   /\ md_file w' = md_file w /\ written w' = written w)
                  \/ (updated_doc <> original_doc
                      /\ md_read_only w = true
                      /\ fst (main p w) = Raise OSError
                      /\ md_file w' = md_file w /\ written w' = written w)
                  \/ (updated_doc <> original_doc
                      /\ md_read_only w = false
                      /\ locale p (write_newlines (linesep p) updated_doc)
                         = None
                      /\ fst (main p w) = Raise UnicodeEncodeError
                      /\ md_file w' = Some [] /\ written w' = written w)
                  \/ (updated_doc <> original_doc
                      /\ md_read_only w = false
                      /\ exists encoded,
                           locale p (write_newlines (linesep p) updated_doc)
                           = Some encoded
                           /\ fst (main p w) = Ok tt
                           /\ md_file w' = Some encoded
                           /\ written w' = written w ++ [updated_doc])))).
Proof.
  split; [|split; [|split]].
  - intros code H. apply main_exits. exact H.
  - intros e Ha Hl. apply main_without_catalog; assumption.
  - intros c e Ha Hl Hr. apply (main_without_document p w c e Ha Hl Hr).
  - intros c doc Ha Hl Hr Hpc Hpp w'.
    destruct (tables_ok c) as [ct [pt Ht]].
    destruct (tables_of_sections c ct pt Ht) as [Hgc Hgp].
    pose proof (script_table_plain _ _ Hpc Hgc) as Hbc.
    pose proof (script_table_plain _ _ Hpp Hgp) as Hbp.
    subst w'. rewrite (main_runs p w c ct pt doc Ha Hl Ht Hr).
    destruct (replace_plain doc COMMUNITY_HEADING_PATTERN
                PRO_HEADING_PATTERN ct
                (proj1 script_headings_avoid_backslash) Hbc) as [[d1 H1]|H1];
      rewrite H1.
    2:{ left. split; [reflexivity|]. split; [reflexivity | apply written_log]. }
    cbv zeta.
    destruct (replace_plain d1 PRO_HEADING_PATTERN API_COVERAGE_HEADING_PATTERN
                pt (proj2 script_headings_avoid_backslash) Hbp) as [[d2 H2]|H2];
      rewrite H2.
    2:{ right. left. split; [reflexivity|]. split; [reflexivity|].
        cbn [snd]. rewrite !written_log. reflexivity. }
    right. right. exists ct, pt, d1, d2.
    split; [exact Ht|]. split; [exact H1|]. split; [exact H2|].
    destruct (pystr_eqb d2 doc) eqn:E; cbn [negb].
    + left. apply pystr_eqb_eq in E. split; [exact E|]. split; [reflexivity|].
      split; [reflexivity|]. cbn [snd]. rewrite !written_log. reflexivity.
    + apply pystr_eqb_neq in E. right.
      set (W := log (Replacing PRO_HEADING_PATTERN)
                  (log (Replacing COMMUNITY_HEADING_PATTERN) w)).
      assert (HW : written W = written w)
        by (unfold W; rewrite !written_log; reflexivity).
      assert (Hwr : forall x, written
                      {| exit_code := exit_code W; cfn_json := cfn_json W;
                         md_file := x; md_read_only := md_read_only W;
                         trace := trace W ++ [Written d2] |}
                    = written w ++ [d2]).
      { intros x. rewrite <- HW. unfold written. cbn [trace].
        rewrite flat_map_app. reflexivity. }
      unfold write_text.
      change (md_read_only W) with (md_read_only w).
      destruct (md_read_only w) eqn:Ro.
      * left. split; [exact E|]. split; [reflexivity|]. split; [reflexivity|].
        split; [reflexivity | exact HW].
      * right.
        destruct (locale p (write_newlines (linesep p) d2)) as [enc|] eqn:L.
        -- right. split; [exact E|]. split; [reflexivity|]. exists enc.
           split; [reflexivity|]. split; [reflexivity|].
           split; [reflexivity | apply (Hwr (Some enc))].
        -- left. split; [exact E|]. split; [reflexivity|].
           split; [reflexivity|]. split; [reflexivity|].
           split; [reflexivity | exact HW].
Qed.

Lemma main_outcomes_witness :
  fst (main posix (world_of bucket_catalog community_only))
  = Raise (ValueError COMMUNITY_HEADING_PATTERN)
  /\ fst (main ascii_platform (world_of bucket_catalog page))
     = Raise UnicodeEncodeError
  /\ md_file (snd (main ascii_platform (world_of bucket_catalog page)))
     = Some [].
Proof.
  assert (Hc : plain_ids (dict_find bucket_catalog (py "community"))).
  { repeat constructor. intros H. vm_compute in H.
    repeat (destruct H as [H|H]; [discriminate|]). exact H. }
  assert (Hp : plain_ids (dict_find bucket_catalog (py "pro")))
    by constructor.
  split.
  - destruct (main_outcomes posix (world_of bucket_catalog community_only))
      as [_ [_ [_ H]]].
    destruct (H bucket_catalog community_only eq_refl eq_refl eq_refl Hc Hp)
      as [[H1 _]|[[H1 _]|[ct [pt [d1 [d2 [_ [H1 _]]]]]]]];
      [exact H1 | |]; vm_compute in H1; discriminate.
  - destruct (main_outcomes ascii_platform (world_of bucket_catalog page))
      as [_ [_ [_ H]]].
    destruct (H bucket_catalog page eq_refl eq_refl eq_refl Hc Hp)
      as [[H1 _]|[[H1 _]|[ct [pt [d1 [d2 [_ [_ [_ H1]]]]]]]]];
      [vm_compute in H1; discriminate..|].
    destruct H1 as [[_ [H1 _]]|[[_ [H1 _]]|[[_ [_ [_ [H1 [H2 _]]]]]
                                           |[_ [_ [enc [_ [H1 _]]]]]]]];
      [vm_compute in H1; discriminate.. | split; [exact H1 | exact H2]
      | vm_compute in H1; discriminate].
Defined.

Lemma main_keeps_inputs (p : platform) (w : world) :
  exit_code (snd (main p w)) = exit_code w
  /\ cfn_json (snd (main p w)) = cfn_json w.
Proof.
  unfold main.
  destruct (parse_args w); [|split; reflexivity].
  destruct (_load_cfn_file w) as [c|]; [|split; reflexivity].
  destruct (tables c) as [[ct pt]|]; [|split; reflexivity].
  destruct (read_text w) as [doc|]; [|split; reflexivity].
  destruct (replace_content_between doc _ _ ct) as [d1|];
    [|split; reflexivity].
  destruct (replace_content_between d1 _ _ pt) as [d2|];
    [|split; reflexivity].
  destruct (negb (pystr_eqb d2 doc)); [|split; reflexivity].
  unfold write_text. destruct (md_read_only _); [split; reflexivity|].
  destruct (locale p _); split; reflexivity.
Qed.

(** What [write_text] has written with a UTF-8 locale and the line
    separator [\n] or [\r\n], [read_text] reads as it was, when it
    holds no [\r]. *)
Lemma read_text_written (p : platform) (data : pystr) (w : world) :
  (forall t, locale p t = utf_8_encode t) ->
  linesep p = [nl] \/ linesep p = [cr; nl] ->
  ~ In cr data ->
  fst (write_text p data w) = Ok tt ->
  read_text (snd (write_text p data w)) = Ok data.
Proof.
  intros Hloc Hsep Hno. unfold write_text.
  destruct (md_read_only w); [discriminate|].
  rewrite Hloc.
  destruct (utf_8_encode (write_newlines (linesep p) data)) as [enc|] eqn:E;
    [|discriminate].
  intros _. cbn [snd]. unfold read_text. cbn [md_file].
  rewrite (utf_8_decode_encode _ _ E).
  rewrite (read_written_newlines (linesep p) data Hsep Hno). reflexivity.
Qed.

Lemma read_text_no_return (w : world) (text : pystr) :
  read_text w = Ok text -> ~ In cr text.
Proof.
  unfold read_text. destruct (md_file w) as [data|]; [|discriminate].
  destruct (utf_8_decode data) as [t|]; [|discriminate].
  intros [= <-]. apply universal_newlines_no_return.
Qed.

(** X17.  On a platform with a UTF-8 locale and the line separator
    [\n] or [\r\n], when both sections of the catalog hold a resource,
    no identifier holds a backslash, a newline or a carriage return,
    the document has both sections, and the pro heading found after
    the first replacement starts where the new community table ends:
    after a run that succeeds, the file reads as the document after
    both replacements, and a second run starts both replacements,
    succeeds, and leaves the file and the written texts as they
    are. *)
Theorem main_second_run (p : platform) (w : world)
  (cfn_catalog : dict section)
  (original_doc community_table pro_table : pystr) (m1 m2 : Match) :
  (forall t, locale p t = utf_8_encode t) ->
  linesep p = [nl] \/ linesep p = [cr; nl] ->
  parse_args w = Ok tt -> _load_cfn_file w = Ok cfn_catalog ->
  read_text w = Ok original_doc ->
  plain_ids (dict_find cfn_catalog (py "community")) ->
  one_line_ids (dict_find cfn_catalog (py "community")) ->
  return_free_ids (dict_find cfn_catalog (py "community")) ->
  entries (dict_find cfn_catalog (py "community")) <> [] ->
  plain_ids (dict_find cfn_catalog (py "pro")) ->
  one_line_ids (dict_find cfn_catalog (py "pro")) ->
  return_free_ids (dict_find cfn_catalog (py "pro")) ->
  entries (dict_find cfn_catalog (py "pro")) <> [] ->
  tables cfn_catalog = Ok (community_table, pro_table) ->
  search COMMUNITY_HEADING_PATTERN PRO_HEADING_PATTERN original_doc
  = Some m1 ->
  search PRO_HEADING_PATTERN API_COVERAGE_HEADING_PATTERN
    (replaced original_doc m1 community_table) = Some m2 ->
  m_start m2 = g1_end m1 + length community_table ->
  fst (main p w) = Ok tt ->
  let w1 := snd (main p w) in
  read_text w1
  = Ok (replaced (replaced original_doc m1 community_table) m2 pro_table)
  /\ main p w1
     = (Ok tt, log (Replacing PRO_HEADING_PATTERN)
                 (log (Replacing COMMUNITY_HEADING_PATTERN) w1))
  /\ md_file (snd (main p w1)) = md_file w1
  /\ written (snd (main p w1)) = written w1.
Proof.
  intros Hloc Hsep Ha Hl Hr Hpc Hoc Hrc Hnc Hpp Hop Hrp Hnp Ht Hs1 Hs2 Hlink
    Hok w1.
  destruct (tables_of_sections cfn_catalog _ _ Ht) as [Hgc Hgp].
  destruct (script_table_lines _ _ Hoc Hnc Hgc) as [[rc Ec] [Hlc Hlines_c]].
  destruct (script_table_lines _ _ Hop Hnp Hgp) as [[rp Ep] [Hlp Hlines_p]].
  pose proof (script_table_plain _ _ Hpc Hgc) as Hplain_c.
  pose proof (script_table_plain _ _ Hpp Hgp) as Hplain_p.
  pose proof (script_table_return_free _ _ Hrc Hgc) as Hret_c.
  pose proof (script_table_return_free _ _ Hrp Hgp) as Hret_p.
  assert (Hbc : table_block community_table)
    by (split; [exists rc; exact Ec | auto]).
  assert (Hbp : table_block pro_table)
    by (split; [exists rp; exact Ep | auto]).
  clear Hgc Hgp. subst community_table pro_table.
  set (D0 := original_doc) in *.
  destruct script_patterns_local as [L1 [L2 [P1 [P2 _]]]].
  destruct script_headings_avoid_backslash as [B1 B2].
  pose proof (script_section_boundary D0 _ _ m1 rc
                (or_introl (conj eq_refl eq_refl)) Hbc Hs1) as HE1.
  destruct (replace_updated D0 _ _ m1 pipe rc Hs1 L1 P1 B1 Hplain_c HE1)
    as [R1 _].
  pose proof (script_section_boundary _ _ _ m2 rp
                (or_intror (conj eq_refl eq_refl)) Hbp Hs2) as HE2.
  destruct (replace_updated _ _ _ m2 pipe rp Hs2 L2 P2 B2 Hplain_p HE2)
    as [R2 R2'].
  pose proof (community_section_kept D0 m1 m2 rc rp Hbc Hs1 Hs2 Hlink) as R1'.
  assert (Hret : ~ In cr (replaced (replaced D0 m1 (pipe :: rc)) m2
                            (pipe :: rp))).
  { intros H. apply in_replaced in H as [H|H]; [|exact (Hret_p H)].
    apply in_replaced in H as [H|H]; [|exact (Hret_c H)].
    exact (read_text_no_return w D0 Hr H). }
  set (D2 := replaced (replaced D0 m1 (pipe :: rc)) m2 (pipe :: rp)) in *.
  pose proof (main_keeps_inputs p w) as [Kx Kj]. fold w1 in Kx, Kj.
  assert (Hread : read_text w1 = Ok D2).
  { revert Hok. unfold w1.
    rewrite (main_runs p w cfn_catalog _ _ D0 Ha Hl Ht Hr), R1. cbv zeta.
    rewrite R2.
    destruct (pystr_eqb D2 D0) eqn:E; cbn [negb].
    - intros _. apply pystr_eqb_eq in E. rewrite E. exact Hr.
    - apply (read_text_written p D2 _ Hloc Hsep Hret). }
  assert (Ha1 : parse_args w1 = Ok tt)
    by (unfold parse_args in *; rewrite Kx; exact Ha).
  assert (Hl1 : _load_cfn_file w1 = Ok cfn_catalog)
    by (unfold _load_cfn_file in *; rewrite Kj; exact Hl).
  assert (Hagain : main p w1
                   = (Ok tt, log (Replacing PRO_HEADING_PATTERN)
                               (log (Replacing COMMUNITY_HEADING_PATTERN) w1)))
    by (apply (main_unchanged p w1 cfn_catalog _ _ D2 Ha1 Hl1 Ht Hread R1' R2')).
  split; [exact Hread|]. split; [exact Hagain|].
  rewrite Hagain. cbn [snd]. split; [reflexivity|].
  rewrite !written_log. reflexivity.
Qed.

Lemma main_second_run_witness :
  let w1 := snd (main posix (world_of two_section_catalog page)) in
  main posix w1
  = (Ok tt, log (Replacing PRO_HEADING_PATTERN)
              (log (Replacing COMMUNITY_HEADING_PATTERN) w1)).
Proof.
  assert (Hp : plain_ids (Some bucket_section)).
  { repeat constructor. intros H. vm_compute in H.
    repeat (destruct H as [H|H]; [discriminate|]). exact H. }
  assert (Ho : one_line_ids (Some bucket_section)).
  { repeat constructor. intros H. vm_compute in H.
    repeat (destruct H as [H|H]; [discriminate|]). exact H. }
  assert (Hc : return_free_ids (Some bucket_section)).
  { repeat constructor. intros H. vm_compute in H.
    repeat (destruct H as [H|H]; [discriminate|]). exact H. }
  assert (Hn : entries (Some bucket_section) <> []) by discriminate.
  set (t := table_text table_config [15; 6; 6; 6] [bucket_row]).
  assert (Ht : tables two_section_catalog = Ok (t, t))
    by (vm_compute; reflexivity).
  assert (Hr : read_text (world_of two_section_catalog page) = Ok page)
    by (vm_compute; reflexivity).
  assert (H1 : search COMMUNITY_HEADING_PATTERN PRO_HEADING_PATTERN page
               = Some {| m_start := 0; g1_end := 21; m_end := 29 |})
    by (vm_compute; reflexivity).
  assert (H2 : search PRO_HEADING_PATTERN API_COVERAGE_HEADING_PATTERN
                 (replaced page {| m_start := 0; g1_end := 21; m_end := 29 |} t)
               = Some {| m_start := 160; g1_end := 176; m_end := 184 |})
    by (vm_compute; reflexivity).
  assert (H3 : 160 = 21 + length t) by (vm_compute; reflexivity).
  assert (Hok : fst (main posix (world_of two_section_catalog page)) = Ok tt)
    by (vm_compute; reflexivity).
  apply (proj1 (proj2
           (main_second_run posix (world_of two_section_catalog page)
              two_section_catalog page t t _ _
              (fun _ => eq_refl) (or_introl eq_refl) eq_refl eq_refl Hr
              Hp Ho Hc Hn Hp Ho Hc Hn Ht H1 H2 H3 Hok))).
Defined.

(** ** A run of the driver *)

(** On the page with both headings the script writes the page with
    the community table once; run again on what it wrote, it starts
    both replacements and writes nothing. *)
Lemma main_twice_writes_once :
  let w0 := world_of bucket_catalog page in
  let w1 := snd (main posix w0) in
  let w2 := snd (main posix w1) in
  exists updated,
    written w1 = [updated]
    /\ read_text w1 = Ok updated
    /\ updated <> page
    /\ md_file w2 = md_file w1
    /\ trace w2 = trace w1 ++ [Replacing COMMUNITY_HEADING_PATTERN;
                               Replacing PRO_HEADING_PATTERN].
Proof.
  vm_compute. eexists. repeat split. discriminate.
Qed.
